(** * spaces-download-mcp: the polling core and the tool handlers

    A shallow embedding of [src/index.ts] (tools registered through the
    Smithery SDK) and of the Express variant of the same server (one
    [handleCallTool] switch behind a JSON-RPC front), followed by the
    properties of the completion poller and of the handlers.

    - Backend JSON is untyped, as [makeApiRequest] returns [any]: a
      [jsval], with the coercions the program applies to it (truthiness,
      template-literal rendering, property reads that throw on [null]).
    - Asynchronous code that may throw is a state-and-exception monad over
      a [World]: the number of network calls issued and the log of every
      [fetch] and every sleep.  "How many calls" and "how many sleeps"
      are statements about that log.
    - The backend is an opaque collaborator: the i-th network call of a
      run receives [backend i], a rejection or a response.
    - A template literal renders its substitutions from left to right,
      and rendering a value that came out of JSON can throw: every
      [${...}] is a step of its own in the bodies.
    - The two files spell the glyphs of their messages with different
      bytes; a tool body takes the glyphs of the file it stands in.
    - The one floating-point expression of the program, the size of a
      space in megabytes, is a parameter. *)

From Stdlib Require Import String Ascii List ZArith Lia Bool DecimalString.
Import ListNotations.
Local Open Scope string_scope.
Local Open Scope Z_scope.
Set Warnings "-register-all,-notation-for-abbreviation".

(** ** JavaScript values

    [makeApiRequest] returns [Promise<any>]: whatever JSON the backend
    sent.  Numbers are the integers: a JSON fraction is outside the
    model. *)

Inductive jsval : Type :=
| JUndefined
| JNull
| JBool (b : bool)
| JNum (n : Z)
| JStr (s : string)
| JArr (items : list jsval)
| JObj (fields : list (string * jsval)).

(** What a [throw] carries: an [Error] object (only its message is ever
    read) or any other value. *)
Inductive thrown : Type :=
| ErrorObj (message : string)
| NonError (v : jsval).

Inductive outcome (A : Type) : Type :=
| Return (a : A)
| Throw (e : thrown).
Arguments Return {A} a.
Arguments Throw {A} e.

Module Js.

(** *** Number::toString, for the integers

    Up to 2^53 in magnitude every integer is a double and renders as its
    decimal numeral.  Beyond, a numeral of JSON stands for the double
    nearest to it, ties to even, and that double renders with the
    fewest significant digits that still identify it: in full up to 21
    digits, in exponent form from there.  What exceeds the range of the
    doubles is [Infinity]. *)

Definition decimal (n : Z) : string := NilEmpty.string_of_int (Z.to_int n).

(** The double nearest to the integer [a > 0]. *)
Definition round_to_double (a : Z) : Z :=
  let bits := Z.log2 a + 1 in
  if bits <=? 53 then a
  else
    let e := bits - 53 in
    let q := Z.shiftr a e in
    let r := a - Z.shiftl q e in
    let half := Z.shiftl 1 (e - 1) in
    Z.shiftl (if (half <? r) || ((r =? half) && Z.odd q) then q + 1 else q) e.

(** The integer [c] is read back as the double [x = m * 2^e], with [m]
    of 53 bits: it lies within half a gap of [x], the ends counting
    when [m] is even.  Below a power of two the gap is half as wide.
    (Both sides are doubled to stay in the integers.) *)
Definition rounds_to (x c : Z) : bool :=
  let e := Z.log2 x - 52 in
  let m := Z.shiftr x e in
  let hi := 2 * x + Z.shiftl 1 e in
  let lo := 2 * x - (if m =? Z.shiftl 1 52 then Z.shiftl 1 (e - 1)
                     else Z.shiftl 1 e) in
  ((lo <? 2 * c) && (2 * c <? hi))
  || (Z.even m && ((2 * c =? lo) || (2 * c =? hi))).

(** The integer of fewest significant digits that is read back as the
    double [x] of [d] digits, the nearest to [x] where two qualify:
    tried with [k], [k + 1], ... significant digits. *)
Fixpoint shortest (x d : Z) (fuel : nat) (k : Z) : Z :=
  match fuel with
  | O => x
  | S fuel' =>
      let p := 10 ^ (d - k) in
      let below := (x / p) * p in
      let above := below + p in
      match rounds_to x below, rounds_to x above with
      | true, true =>
          if x - below <? above - x then below
          else if above - x <? x - below then above
          else if Z.even (below / p) then below else above
      | true, false => below
      | false, true => above
      | false, false => shortest x d fuel' (k + 1)
      end
  end.

Fixpoint strip_zeros (s : string) : string :=
  match s with
  | EmptyString => EmptyString
  | String c rest =>
      match strip_zeros rest with
      | EmptyString => if Ascii.eqb c "0" then EmptyString else String c EmptyString
      | kept => String c kept
      end
  end.

Definition number_to_string (n : Z) : string :=
  let a := Z.abs n in
  if a <=? 9007199254740992 then decimal n
  else
    let sign := if n <? 0 then "-" else "" in
    let x := round_to_double a in
    if 2 ^ 1024 <=? x then sign ++ "Infinity"
    else
      let d := Z.of_nat (String.length (decimal x)) in
      let s := decimal (shortest x d (Z.to_nat d) 1) in
      let n := Z.of_nat (String.length s) in
      if n <=? 21 then sign ++ s
      else
        match strip_zeros s with
        | String c EmptyString => sign ++ String c "e+" ++ decimal (n - 1)
        | String c rest => sign ++ String c ("." ++ rest) ++ "e+" ++ decimal (n - 1)
        | EmptyString => sign ++ s
        end.
Arguments number_to_string : simpl never.

(** ToBoolean. *)
Definition truthy (v : jsval) : bool :=
  match v with
  | JUndefined | JNull => false
  | JBool b => b
  | JNum n => negb (n =? 0)
  | JStr s => negb (String.eqb s "")
  | JArr _ | JObj _ => true
  end.

(** [a || b] *)
Definition or (a b : jsval) : jsval := if truthy a then a else b.

Definition type_error (message : string) : thrown := ErrorObj message.

(** The object has an own property [k]. *)
Definition has_key (k : string) (fields : list (string * jsval)) : bool :=
  existsb (fun kv => String.eqb k (fst kv)) fields.

(** ToString, as a template literal applies it.  An object renders
    through [Object.prototype.toString] unless it has an own property
    [toString]: data is never callable, [valueOf] gives no primitive
    either, and the conversion throws a TypeError.  An array joins the
    renderings of its elements and throws where one of them does. *)
Fixpoint to_string (v : jsval) : outcome string :=
  match v with
  | JUndefined => Return "undefined"
  | JNull => Return "null"
  | JBool true => Return "true"
  | JBool false => Return "false"
  | JNum n => Return (number_to_string n)
  | JStr s => Return s
  | JArr items =>
      let elem (x : jsval) : outcome string :=
        match x with
        | JUndefined | JNull => Return ""
        | _ => to_string x
        end in
      (fix join (l : list jsval) : outcome string :=
         match l with
         | [] => Return ""
         | [x] => elem x
         | x :: rest =>
             match elem x with
             | Throw e => Throw e
             | Return s =>
                 match join rest with
                 | Throw e => Throw e
                 | Return r => Return (s ++ "," ++ r)
                 end
             end
         end) items
  | JObj fields =>
      if has_key "toString" fields
      then Throw (type_error "Cannot convert object to primitive value")
      else Return "[object Object]"
  end.

Fixpoint lookup (k : string) (fields : list (string * jsval)) : jsval :=
  match fields with
  | [] => JUndefined
  | (k', v) :: rest => if String.eqb k k' then v else lookup k rest
  end.

(** [v.k] for the data properties the program reads.  Reading from
    [null] or [undefined] is a TypeError; a primitive or an array has
    none of the named fields.  (The wording of TypeError messages
    follows V8; nothing below depends on it.) *)
Definition get (v : jsval) (k : string) : outcome jsval :=
  match v with
  | JUndefined =>
      Throw (type_error ("Cannot read properties of undefined (reading '" ++ k ++ "')"))
  | JNull =>
      Throw (type_error ("Cannot read properties of null (reading '" ++ k ++ "')"))
  | JObj fields => Return (lookup k fields)
  | _ => Return JUndefined
  end.

(** [arr.includes(v)] on an array of strings: SameValueZero. *)
Definition includes (arr : list string) (v : jsval) : bool :=
  match v with
  | JStr s => existsb (String.eqb s) arr
  | _ => false
  end.

End Js.

(** ** The outside world *)

(** The [RequestInit] fields the callers supply.  The body is the value
    handed to [JSON.stringify]; the serialisation itself is not
    modelled. *)
Record RequestInit : Type := {
  init_method : option string;
  init_body : option jsval
}.

Definition no_options : RequestInit :=
  {| init_method := None; init_body := None |}.

Record request : Type := {
  req_url : string;
  req_method : option string;
  req_headers : list (string * string);
  req_body : option jsval;
  req_abort_ms : Z          (* the armed AbortController timer *)
}.

Record response : Type := {
  resp_status : Z;
  resp_text : outcome string;   (* response.text() *)
  resp_json : outcome jsval     (* response.json() *)
}.

Definition resp_ok (r : response) : bool :=
  (200 <=? resp_status r) && (resp_status r <=? 299).

Inductive fetch_outcome : Type :=
| Rejects (e : thrown)      (* network failure, or the abort timer fired *)
| Responds (r : response).

Inductive event : Type :=
| EFetch (r : request)
| ESleep (ms : Z).

Record World : Type := {
  calls : nat;          (* network calls issued so far *)
  log : list event
}.

(** ** A monad for asynchronous code that may throw

    [await] is sequencing; a rejected promise is a [Throw].  A [Throw]
    keeps the world as it was when the exception was raised. *)

Definition M (A : Type) : Type := World -> outcome A * World.

Definition ret {A} (a : A) : M A := fun w => (Return a, w).

Definition throw {A} (e : thrown) : M A := fun w => (Throw e, w).

Definition bind {A B} (m : M A) (k : A -> M B) : M B :=
  fun w =>
    match m w with
    | (Return a, w') => k a w'
    | (Throw e, w') => (Throw e, w')
    end.

(** [try { body } catch (error) { handler }] *)
Definition try_catch {A} (body : M A) (handler : thrown -> M A) : M A :=
  fun w =>
    match body w with
    | (Return a, w') => (Return a, w')
    | (Throw e, w') => handler e w'
    end.

(** A pure step that may throw (a property read, a settled promise). *)
Definition lift {A} (o : outcome A) : M A := fun w => (o, w).

(** A [${...}] of a template literal: ToString, which may throw. *)
Definition render (v : jsval) : M string := lift (Js.to_string v).

Declare Scope js_scope.
Delimit Scope js_scope with js.
Notation "x <- m ;; k" := (bind m (fun x => k))
  (at level 61, m at next level, right associativity) : js_scope.
Notation "m ;; k" := (bind m (fun _ => k))
  (at level 61, right associativity) : js_scope.
Local Open Scope js_scope.

(** [error instanceof Error ? error.message : 'Unknown error'] *)
Definition error_text (e : thrown) : string :=
  match e with
  | ErrorObj message => message
  | NonError _ => "Unknown error"
  end.

(** [await new Promise(resolve => setTimeout(resolve, ms))] *)
Definition sleep (ms : Z) : M unit :=
  fun w => (Return tt, {| calls := calls w; log := log w ++ [ESleep ms] |}).

Record Config : Type := {
  apiUrl : string;
  timeout : option Z
}.

(** [(config.timeout || 30) * 1000] *)
Definition abort_delay (config : Config) : Z :=
  match timeout config with
  | Some t => if t =? 0 then 30 * 1000 else t * 1000
  | None => 30 * 1000
  end.

(** The request [makeApiRequest] hands to [fetch]: the caller's options,
    the abort signal and the JSON content type. *)
Definition api_request (url : string) (config : Config) (options : RequestInit)
    : request :=
  {| req_url := url;
     req_method := init_method options;
     req_headers := [("Content-Type", "application/json")];
     req_body := init_body options;
     req_abort_ms := abort_delay config |}.

(** ** Helpers of the handlers *)

Definition nl : string := String "010"%char "".

(** The status glyphs of the messages.  Each file spells them with its
    own bytes, given here as they stand in the file. *)
Record Glyphs : Type := {
  check_mark : string;
  cross_mark : string;
  party_popper : string
}.

Definition bytes (codes : list Z) : string :=
  string_of_list_ascii (map (fun code => ascii_of_nat (Z.to_nat code)) codes).

(** The glyphs of [src/index.ts]. *)
Definition index_glyphs : Glyphs :=
  {| check_mark := bytes [195; 162; 197; 147; 226; 128; 166];
     cross_mark := bytes [195; 162; 197; 146];
     party_popper := bytes [195; 176; 197; 184; 197; 189; 226; 128; 176] |}.

(** The glyphs of the Express variant. *)
Definition express_glyphs : Glyphs :=
  {| check_mark := bytes [226; 128; 154; 195; 186; 195; 150];
     cross_mark := bytes [226; 128; 154; 195; 185; 195; 165];
     party_popper := bytes [239; 163; 191; 195; 188; 195; 169; 195; 162] |}.

(** [{ content: [{ type: 'text', text }] }] *)
Definition text_result (text : string) : jsval :=
  JObj [("content", JArr [JObj [("type", JStr "text"); ("text", JStr text)]])].

(** [const { k } = v]: a TypeError on [null] and [undefined]. *)
Definition destructure (v : jsval) (k source : string) : outcome jsval :=
  match v with
  | JUndefined =>
      Throw (Js.type_error ("Cannot destructure property '" ++ k ++ "' of '"
                              ++ source ++ "' as it is undefined."))
  | JNull =>
      Throw (Js.type_error ("Cannot destructure property '" ++ k ++ "' of '"
                              ++ source ++ "' as it is null."))
  | _ => Js.get v k
  end.

(** The empty pattern, [const {} = v]. *)
Definition empty_pattern (v : jsval) : outcome unit :=
  match v with
  | JUndefined =>
      Throw (Js.type_error "Cannot destructure 'undefined' as it is undefined.")
  | JNull =>
      Throw (Js.type_error "Cannot destructure 'null' as it is null.")
  | _ => Return tt
  end.

(** A destructuring default, [{ k = d }]: used when the field is
    [undefined]. *)
Definition default_to (d v : jsval) : jsval :=
  match v with
  | JUndefined => d
  | _ => v
  end.

(** *** The pattern [/\/spaces\/([a-zA-Z0-9]+)/] *)

Definition is_alnum (c : ascii) : bool :=
  let n := nat_of_ascii c in
  ((48 <=? n) && (n <=? 57) || (65 <=? n) && (n <=? 90)
   || (97 <=? n) && (n <=? 122))%nat.

(** The longest run of alphanumerics at the head: the greedy [+]. *)
Fixpoint take_alnum (s : string) : string :=
  match s with
  | EmptyString => EmptyString
  | String c rest => if is_alnum c then String c (take_alnum rest) else EmptyString
  end.

Fixpoint strip_prefix (p s : string) : option string :=
  match p, s with
  | EmptyString, _ => Some s
  | String a p', String b s' => if Ascii.eqb a b then strip_prefix p' s' else None
  | String _ _, EmptyString => None
  end.

(** The match anchored at the head of [s]: capture group 1. *)
Definition match_here (s : string) : option string :=
  match strip_prefix "/spaces/" s with
  | Some rest =>
      match take_alnum rest with
      | EmptyString => None
      | id => Some id
      end
  | None => None
  end.

(** [s.match(/\/spaces\/([a-zA-Z0-9]+)/)]: the leftmost match, its group 1;
    [None] is the [null] of a failed match. *)
Fixpoint regex_match (s : string) : option string :=
  match match_here s with
  | Some id => Some id
  | None =>
      match s with
      | EmptyString => None
      | String _ rest => regex_match rest
      end
  end.

(** [space_url.match(...)] on whatever the caller passed, then the guard
    [if (!spaceIdMatch) throw ...] and [spaceIdMatch[1]]. *)
Definition extract_space_id (space_url : jsval) : outcome string :=
  match space_url with
  | JStr s =>
      match regex_match s with
      | Some id => Return id
      | None => Throw (ErrorObj "Invalid space URL format")
      end
  | JUndefined =>
      Throw (Js.type_error "Cannot read properties of undefined (reading 'match')")
  | JNull =>
      Throw (Js.type_error "Cannot read properties of null (reading 'match')")
  | _ => Throw (Js.type_error "space_url.match is not a function")
  end.

(** [spaces.length] for what [response.spaces || []] can be.  (A string's
    length counts bytes here and UTF-16 units in JavaScript; it is only
    compared with 0, and a truthy string is not empty.) *)
Definition js_length (v : jsval) : jsval :=
  match v with
  | JArr items => JNum (Z.of_nat (List.length items))
  | JStr s => JNum (Z.of_nat (String.length s))
  | JObj fields => Js.lookup "length" fields
  | _ => JUndefined
  end.

(** [v === 0] *)
Definition is_zero (v : jsval) : bool :=
  match v with
  | JNum 0 => true
  | _ => false
  end.

(** ** Vocabulary of the properties *)

(** The JSON value a backend answer delivers through [makeApiRequest]: a
    2xx response whose body parses. *)
Definition snapshot_of (o : fetch_outcome) : option jsval :=
  match o with
  | Responds r =>
      if resp_ok r then
        match resp_json r with
        | Return v => Some v
        | Throw _ => None
        end
      else None
  | Rejects _ => None
  end.

(** The snapshot has a [status] that belongs to the given set. *)
Definition status_in (statuses : list string) (snapshot : jsval) : Prop :=
  exists st, Js.get snapshot "status" = Return st
             /\ Js.includes statuses st = true.

(** The snapshot has a [status] outside both sets: still in progress. *)
Definition in_progress (completed failed : list string) (snapshot : jsval) : Prop :=
  exists st, Js.get snapshot "status" = Return st
             /\ Js.includes completed st = false
             /\ Js.includes failed st = false.

(** The error of a poll that met a failed status: the failure error with
    the rendering of the field it carries, or the TypeError of a field
    that cannot be rendered. *)
Definition failure_of (carried : jsval) : thrown :=
  match Js.to_string carried with
  | Return detail => ErrorObj ("Operation failed: " ++ detail)
  | Throw e => e
  end.

(** The request of a poll tick. *)
Definition status_request (statusUrl : string) (config : Config) : request :=
  api_request statusUrl config no_options.

(** What [n] ticks that found the operation in progress leave in the
    log: a status call, then a sleep, [n] times. *)
Fixpoint waiting_ticks (r : request) (intervalMs : Z) (n : nat) : list event :=
  match n with
  | O => []
  | S n' => EFetch r :: ESleep intervalMs :: waiting_ticks r intervalMs n'
  end.

(** The network calls of a log, and the durations of its sleeps. *)
Fixpoint fetches (l : list event) : list request :=
  match l with
  | [] => []
  | EFetch r :: rest => r :: fetches rest
  | ESleep _ :: rest => fetches rest
  end.

Fixpoint sleeps (l : list event) : list Z :=
  match l with
  | [] => []
  | EFetch _ :: rest => sleeps rest
  | ESleep ms :: rest => ms :: sleeps rest
  end.

(** The world after [n] more calls that appended [evs] to the log. *)
Definition advance (w : World) (n : nat) (evs : list event) : World :=
  {| calls := calls w + n; log := log w ++ evs |}.

(** *** Constants and envelopes of the JSON-RPC front *)

Definition SERVER_CAPABILITIES : jsval := JObj [("tools", JObj [])].

Definition SERVER_INFO : jsval :=
  JObj [("name", JStr "twitter-spaces"); ("version", JStr "1.0.0")].

Definition string_property (description : string) : jsval :=
  JObj [("type", JStr "string"); ("description", JStr description)].

Definition space_url_property : jsval :=
  string_property "Full Twitter Space URL (e.g., https://x.com/i/spaces/1ZkKzYLnWOLxv)".

Definition space_id_property : jsval :=
  string_property "Space ID (e.g., 1ZkKzYLnWOLxv)".

Definition wait_property (description : string) : jsval :=
  JObj [("type", JStr "boolean"); ("description", JStr description);
        ("default", JBool true)].

Definition tool_entry (name description : string)
    (properties : list (string * jsval)) (required : option (list string)) : jsval :=
  JObj [("name", JStr name);
        ("description", JStr description);
        ("inputSchema",
         JObj ([("type", JStr "object"); ("properties", JObj properties)]
               ++ match required with
                  | Some names => [("required", JArr (map JStr names))]
                  | None => []
                  end))].

(** Tool definitions (no configuration required). *)
Definition TOOLS : jsval :=
  JArr [
    tool_entry "check_space_availability"
      "Check if a Twitter Space is available for download"
      [("space_url", space_url_property)] (Some ["space_url"]);
    tool_entry "download_twitter_space"
      "Download a Twitter Space and wait for completion"
      [("space_url", space_url_property);
       ("wait_for_completion",
        wait_property "Whether to wait for download completion before returning")]
      (Some ["space_url"]);
    tool_entry "transcribe_space"
      "Transcribe a downloaded Twitter Space using AI"
      [("space_id", space_id_property);
       ("wait_for_completion",
        wait_property "Whether to wait for transcription completion before returning")]
      (Some ["space_id"]);
    tool_entry "get_transcript"
      "Download transcript in various formats (json, txt, paragraphs, timecoded, summary)"
      [("space_id", space_id_property);
       ("format",
        JObj [("type", JStr "string");
              ("enum", JArr (map JStr ["json"; "txt"; "paragraphs"; "timecoded"; "summary"]));
              ("description", JStr "Transcript format to download");
              ("default", JStr "paragraphs")])]
      (Some ["space_id"]);
    tool_entry "list_spaces"
      "List all downloaded Twitter Spaces"
      [] None;
    tool_entry "download_and_transcribe_space"
      "Download a Twitter Space and automatically transcribe it"
      [("space_url", space_url_property)] (Some ["space_url"])
  ].

Record RpcError : Type := {
  code : Z;
  message : string
}.

(** [JsonRpcResponse]; [jsonrpc] is always ['2.0']. *)
Record JsonRpcResponse : Type := {
  rpc_id : jsval;
  rpc_result : option jsval;
  rpc_error : option RpcError
}.

Inductive rpc_method : Type :=
| Initialize
| ToolsList
| ToolsCall.

(** The [case] labels of [switch (request.method)]. *)
Definition method_of_name (method : jsval) : option rpc_method :=
  match method with
  | JStr s =>
      if String.eqb s "initialize" then Some Initialize
      else if String.eqb s "tools/list" then Some ToolsList
      else if String.eqb s "tools/call" then Some ToolsCall
      else None
  | _ => None
  end.

Inductive tool : Type :=
| CheckSpaceAvailability
| DownloadTwitterSpace
| TranscribeSpace
| GetTranscript
| ListSpaces
| DownloadAndTranscribeSpace.

(** The [case] labels of [switch (name)]; the comparison is [===]. *)
Definition tool_of_name (name : jsval) : option tool :=
  match name with
  | JStr s =>
      if String.eqb s "check_space_availability" then Some CheckSpaceAvailability
      else if String.eqb s "download_twitter_space" then Some DownloadTwitterSpace
      else if String.eqb s "transcribe_space" then Some TranscribeSpace
      else if String.eqb s "get_transcript" then Some GetTranscript
      else if String.eqb s "list_spaces" then Some ListSpaces
      else if String.eqb s "download_and_transcribe_space"
           then Some DownloadAndTranscribeSpace
      else None
  | _ => None
  end.

Definition tool_name (t : tool) : string :=
  match t with
  | CheckSpaceAvailability => "check_space_availability"
  | DownloadTwitterSpace => "download_twitter_space"
  | TranscribeSpace => "transcribe_space"
  | GetTranscript => "get_transcript"
  | ListSpaces => "list_spaces"
  | DownloadAndTranscribeSpace => "download_and_transcribe_space"
  end.

(** The names under which [TOOLS] declares the tools. *)
Definition declared_tool_names : list jsval :=
  match TOOLS with
  | JArr entries =>
      map (fun entry => match entry with
                        | JObj fields => Js.lookup "name" fields
                        | _ => JUndefined
                        end) entries
  | _ => []
  end.

(** The methods the JSON-RPC front serves. *)
Definition known_methods : list jsval :=
  [JStr "initialize"; JStr "tools/list"; JStr "tools/call"].

Definition nullish (v : jsval) : bool :=
  match v with
  | JUndefined | JNull => true
  | _ => false
  end.

Definition all_alnum (s : string) : bool :=
  forallb is_alnum (list_ascii_of_string s).

(** The URL has a segment [/spaces/] followed by one or more
    alphanumeric characters. *)
Definition contains_space_segment (url : string) : Prop :=
  exists before id after,
    url = before ++ "/spaces/" ++ id ++ after
    /\ id <> "" /\ all_alnum id = true.

(** The request names an operation the server does not support: an
    unknown method, or an unknown tool passed to [tools/call]. *)
Definition names_unsupported_operation (request : jsval) : Prop :=
  (exists method,
      Js.get request "method" = Return method /\ ~ In method known_methods)
  \/ (exists params name,
         Js.get request "method" = Return (JStr "tools/call")
         /\ Js.get request "params" = Return params
         /\ Js.get params "name" = Return name
         /\ ~ In name declared_tool_names).

(** The envelope reports a protocol-level error: an error code and no
    result. *)
Definition reported_at_protocol_level (response : JsonRpcResponse) : Prop :=
  rpc_result response = None /\ exists e, rpc_error response = Some e.

(** ** Sample backends and inputs *)

Definition json_reply (v : jsval) : fetch_outcome :=
  Responds {| resp_status := 200; resp_text := Return ""; resp_json := Return v |}.

Definition local_config : Config :=
  {| apiUrl := "http://localhost:8000"; timeout := Some 30 |}.

Definition fresh_world : World := {| calls := 0; log := [] |}.

Definition sample_status_url : string := "http://localhost:8000/api/status/d1".

Definition processing_snapshot : jsval :=
  JObj [("status", JStr "processing")].

Definition completed_snapshot : jsval :=
  JObj [("status", JStr "completed");
        ("space_id", JStr "1ZkKzYLnWOLxv");
        ("filename", JStr "spaces/1ZkKzYLnWOLxv.mp3")].

(** The status sequence [processing, completed]. *)
Definition completes_second (i : nat) : fetch_outcome :=
  match i with
  | O => json_reply processing_snapshot
  | _ => json_reply completed_snapshot
  end.

(** A job that never leaves [processing]. *)
Definition never_done (i : nat) : fetch_outcome := json_reply processing_snapshot.

Definition failed_snapshot : jsval :=
  JObj [("status", JStr "failed");
        ("error", JStr "Space audio is gone");
        ("message", JStr "Download failed")].

(** The status sequence [processing, failed]. *)
Definition fails_second (i : nat) : fetch_outcome :=
  match i with
  | O => json_reply processing_snapshot
  | _ => json_reply failed_snapshot
  end.

(** A failed snapshot whose [error] field is present and empty. *)
Definition failed_with_empty_error : jsval :=
  JObj [("status", JStr "failed");
        ("error", JStr "");
        ("message", JStr "Download failed")].

Definition fails_at_once (i : nat) : fetch_outcome :=
  json_reply failed_with_empty_error.

(** A status that both sets name. *)
Definition cancelled_snapshot : jsval :=
  JObj [("status", JStr "cancelled"); ("message", JStr "Stopped by the user")].

Definition cancelled_at_once (i : nat) : fetch_outcome :=
  json_reply cancelled_snapshot.

Definition unavailable_reply : jsval :=
  JObj [("available", JBool false); ("error", JStr "Space has ended")].

Definition space_unavailable (i : nat) : fetch_outcome :=
  json_reply unavailable_reply.

(** No storage configured, and no [spaces] field. *)
Definition no_storage_reply : jsval := JObj [("r2_configured", JBool false)].

Definition no_storage (i : nat) : fetch_outcome := json_reply no_storage_reply.

(** A backend that is down. *)
Definition backend_down (i : nat) : fetch_outcome :=
  Rejects (ErrorObj "fetch failed").

Definition download_started : jsval :=
  JObj [("download_id", JStr "d1"); ("status", JStr "started");
        ("message", JStr "Download started")].

(** The start call, then the status sequence [processing, completed]. *)
Definition download_completes (i : nat) : fetch_outcome :=
  match i with
  | O => json_reply download_started
  | S i' => completes_second i'
  end.

(** A backend that answers 404. *)
Definition not_found (i : nat) : fetch_outcome :=
  Responds {| resp_status := 404;
              resp_text := Return "Not found";
              resp_json := Throw (ErrorObj "Unexpected token N in JSON") |}.

(** One status in progress, then the connection breaks. *)
Definition breaks_second (i : nat) : fetch_outcome :=
  match i with
  | O => json_reply processing_snapshot
  | _ => Rejects (ErrorObj "fetch failed")
  end.

(** One status in progress, then a body that is JSON [null]. *)
Definition null_second (i : nat) : fetch_outcome :=
  match i with
  | O => json_reply processing_snapshot
  | _ => json_reply JNull
  end.

Definition available_reply : jsval := JObj [("available", JBool true)].

Definition transcription_started : jsval :=
  JObj [("transcription_id", JStr "t1"); ("status", JStr "started")].

(** Availability, download start, [processing, completed], transcription
    start, [completed]. *)
Definition workflow_succeeds (i : nat) : fetch_outcome :=
  match i with
  | 0%nat => json_reply available_reply
  | 1%nat => json_reply download_started
  | 2%nat => json_reply processing_snapshot
  | 3%nat => json_reply completed_snapshot
  | 4%nat => json_reply transcription_started
  | _ => json_reply (JObj [("status", JStr "completed")])
  end.

(** Availability, download start, [processing, failed]. *)
Definition workflow_download_fails (i : nat) : fetch_outcome :=
  match i with
  | 0%nat => json_reply available_reply
  | 1%nat => json_reply download_started
  | 2%nat => json_reply processing_snapshot
  | _ => json_reply failed_snapshot
  end.

Definition transcript_ready (i : nat) : fetch_outcome :=
  Responds {| resp_status := 200;
              resp_text := Return "Hello everyone.";
              resp_json := Throw (ErrorObj "Unexpected token H in JSON") |}.

Definition launch_space : jsval :=
  JObj [("id", JStr "1ZkKzYLnWOLxv"); ("title", JStr "Launch")].

Definition nothing_stored (i : nat) : fetch_outcome :=
  json_reply (JObj [("r2_configured", JBool true)]).

Definition one_space_stored (i : nat) : fetch_outcome :=
  json_reply (JObj [("r2_configured", JBool true); ("spaces", JArr [launch_space])]).

Definition null_entry_stored (i : nat) : fetch_outcome :=
  json_reply (JObj [("r2_configured", JBool true);
                    ("spaces", JArr [launch_space; JNull])]).

Definition sample_space_url : string := "https://x.com/i/spaces/1ZkKzYLnWOLxv".

Definition url_without_segment : string := "https://x.com/i/status/1ZkKzYLnWOLxv".

Definition call_params (name : string) (arguments : jsval) : jsval :=
  JObj [("name", JStr name); ("arguments", arguments)].

Definition rpc_request (id : Z) (method : string) (params : jsval) : jsval :=
  JObj [("jsonrpc", JStr "2.0"); ("id", JNum id); ("method", JStr method);
        ("params", params)].

(** A stand-in for the megabyte rendering, where a run needs one. *)
Definition no_size (audio_size : jsval) : outcome string := Return "0.00".

(** What [JSON.parse] makes of [{"toString": 1}]: an object whose own
    [toString] is not a function. *)
Definition unprintable : jsval := JObj [("toString", JNum 1)].

(** The download start, then a status that never leaves [processing]. *)
Definition download_hangs (i : nat) : fetch_outcome :=
  match i with
  | O => json_reply download_started
  | _ => json_reply processing_snapshot
  end.

(** The transcription start, then a status that never leaves
    [processing]. *)
Definition transcription_hangs (i : nat) : fetch_outcome :=
  match i with
  | O => json_reply transcription_started
  | _ => json_reply processing_snapshot
  end.

(** Availability, download start, then [processing] for ever. *)
Definition workflow_download_hangs (i : nat) : fetch_outcome :=
  match i with
  | 0%nat => json_reply available_reply
  | 1%nat => json_reply download_started
  | _ => json_reply processing_snapshot
  end.

(** Availability, download start, [processing, completed], transcription
    start, then [processing] for ever. *)
Definition workflow_transcription_hangs (i : nat) : fetch_outcome :=
  match i with
  | 0%nat => json_reply available_reply
  | 1%nat => json_reply download_started
  | 2%nat => json_reply processing_snapshot
  | 3%nat => json_reply completed_snapshot
  | 4%nat => json_reply transcription_started
  | _ => json_reply processing_snapshot
  end.

Section Server.

(** The backend's answer to the i-th network call. *)
Variable backend : nat -> fetch_outcome.

Definition fetch (r : request) : M response :=
  fun w =>
    let w' := {| calls := S (calls w); log := log w ++ [EFetch r] |} in
    match backend (calls w) with
    | Rejects e => (Throw e, w')
    | Responds resp => (Return resp, w')
    end.

Definition makeApiRequest (url : string) (config : Config)
    (options : RequestInit) : M jsval :=
  try_catch
    (response <- fetch (api_request url config options) ;;
     if negb (resp_ok response) then
       errorText <- lift (resp_text response) ;;
       throw (ErrorObj ("HTTP " ++ Js.number_to_string (resp_status response)
                          ++ ": " ++ errorText))
     else
       lift (resp_json response))
    (fun error =>
       match error with
       | ErrorObj message => throw (ErrorObj ("API request failed: " ++ message))
       | NonError _ => throw error
       end).

(** The [for] loop of [pollForCompletion], by the number of ticks that
    remain. *)
Fixpoint poll_loop (statusUrl : string) (config : Config)
    (completedStatuses failedStatuses : list string)
    (maxAttempts intervalMs : Z) (remaining : nat) : M jsval :=
  match remaining with
  | O =>
      throw (ErrorObj ("Operation timed out after "
                         ++ Js.number_to_string maxAttempts ++ " attempts"))
  | S remaining' =>
      status <- makeApiRequest statusUrl config no_options ;;
      st <- lift (Js.get status "status") ;;
      if Js.includes completedStatuses st then
        ret status
      else if Js.includes failedStatuses st then
        (* [status.error || status.message]: [status] has been read from
           already, so neither read can throw *)
        err <- lift (Js.get status "error") ;;
        msg <- lift (Js.get status "message") ;;
        detail <- lift (Js.to_string (Js.or err msg)) ;;
        throw (ErrorObj ("Operation failed: " ++ detail))
      else
        sleep intervalMs ;;
        poll_loop statusUrl config completedStatuses failedStatuses
                  maxAttempts intervalMs remaining'
  end.

(** [attempt] runs over 0, 1, ... while [attempt < maxAttempts]. *)
Definition pollForCompletion (statusUrl : string) (config : Config)
    (completedStatuses failedStatuses : list string)
    (maxAttempts intervalMs : Z) : M jsval :=
  poll_loop statusUrl config completedStatuses failedStatuses
            maxAttempts intervalMs (Z.to_nat maxAttempts).

Definition default_completed : list string := ["completed"].
Definition default_failed : list string := ["failed"].
Definition default_maxAttempts : Z := 60.
Definition default_intervalMs : Z := 5000.

(** *** The tool bodies

    What stands inside the [try] of a tool of [index.ts], and inside the
    matching [case] of [handleCallTool]; the two files agree on them up to
    the bytes of their glyphs.  Every [${...}] of a template literal is a
    [render], in the order of the source, since it can throw. *)

(** [(space.audio_size / 1024 / 1024).toFixed(2)]: floating point, left
    abstract, together with the TypeError of an [audio_size] that has no
    primitive value. *)
Variable megabytes_toFixed2 : jsval -> outcome string.

(** [(info ? `<label>${info.<key> || 'Unknown'}\n` : '')] *)
Definition info_line (info : jsval) (key label : string) : M string :=
  if Js.truthy info then
    field <- lift (Js.get info key) ;;
    shown <- render (Js.or field (JStr "Unknown")) ;;
    ret (label ++ shown ++ nl)
  else ret "".

Definition check_space_availability_body (g : Glyphs) (space_url : jsval)
    (config : Config) : M jsval :=
  spaceId <- lift (extract_space_id space_url) ;;
  let url := apiUrl config ++ "/api/check-space/" ++ spaceId in
  result <- makeApiRequest url config no_options ;;
  shown_url <- render space_url ;;
  available <- lift (Js.get result "available") ;;
  status <- lift (Js.get result "status") ;;
  shown_status <- render (Js.or status (JStr "Unknown")) ;;
  error <- lift (Js.get result "error") ;;
  error_line <-
    (if Js.truthy error then
       shown_error <- render error ;;
       ret ("Error: " ++ shown_error ++ nl)
     else ret "") ;;
  space_info <- lift (Js.get result "space_info") ;;
  title_line <- info_line space_info "title" "Title: " ;;
  creator_line <- info_line space_info "creator_name" "Creator: " ;;
  state_line <- info_line space_info "state" "State: " ;;
  ret (text_result
         ("Space Availability Check for " ++ shown_url ++ ":" ++ nl ++ nl
          ++ "Available: "
          ++ (if Js.truthy available then check_mark g ++ " Yes"
              else cross_mark g ++ " No") ++ nl
          ++ "Status: " ++ shown_status ++ nl
          ++ error_line ++ title_line ++ creator_line ++ state_line)).

Definition download_twitter_space_body (g : Glyphs)
    (space_url wait_for_completion : jsval) (config : Config) : M jsval :=
  let downloadUrl := apiUrl config ++ "/api/download" in
  downloadResponse <-
    makeApiRequest downloadUrl config
      {| init_method := Some "POST";
         init_body := Some (JObj [("space_url", space_url)]) |} ;;
  shown_url <- render space_url ;;
  download_id <- lift (Js.get downloadResponse "download_id") ;;
  shown_id <- render download_id ;;
  status <- lift (Js.get downloadResponse "status") ;;
  shown_status <- render status ;;
  message <- lift (Js.get downloadResponse "message") ;;
  shown_message <- render message ;;
  let result :=
    "Started download for " ++ shown_url ++ nl
    ++ "Download ID: " ++ shown_id ++ nl
    ++ "Status: " ++ shown_status ++ nl
    ++ "Message: " ++ shown_message ++ nl ++ nl in
  if Js.truthy wait_for_completion then
    let result := result ++ "Waiting for download to complete..." ++ nl ++ nl in
    id_in_url <- render download_id ;;
    let statusUrl := apiUrl config ++ "/api/status/" ++ id_in_url in
    finalStatus <- pollForCompletion statusUrl config default_completed
                     default_failed default_maxAttempts default_intervalMs ;;
    space_id <- lift (Js.get finalStatus "space_id") ;;
    shown_space <- render space_id ;;
    filename <- lift (Js.get finalStatus "filename") ;;
    shown_filename <- render filename ;;
    r2_url <- lift (Js.get finalStatus "r2_url") ;;
    r2_line <-
      (if Js.truthy r2_url then
         shown_r2 <- render r2_url ;;
         ret ("R2 URL: " ++ shown_r2 ++ nl)
       else ret "") ;;
    final_message <- lift (Js.get finalStatus "message") ;;
    shown_final <- render final_message ;;
    ret (text_result
           (result ++ check_mark g ++ " Download completed!" ++ nl
            ++ "Space ID: " ++ shown_space ++ nl
            ++ "Filename: " ++ shown_filename ++ nl
            ++ r2_line
            ++ "Final Message: " ++ shown_final ++ nl))
  else
    ret (text_result result).

Definition transcribe_space_body (g : Glyphs)
    (space_id wait_for_completion : jsval) (config : Config) : M jsval :=
  let transcribeUrl := apiUrl config ++ "/api/transcribe" in
  transcribeResponse <-
    makeApiRequest transcribeUrl config
      {| init_method := Some "POST";
         init_body := Some (JObj [("space_id", space_id)]) |} ;;
  shown_space <- render space_id ;;
  transcription_id <- lift (Js.get transcribeResponse "transcription_id") ;;
  shown_id <- render transcription_id ;;
  status <- lift (Js.get transcribeResponse "status") ;;
  shown_status <- render status ;;
  message <- lift (Js.get transcribeResponse "message") ;;
  shown_message <- render message ;;
  let result :=
    "Started transcription for space " ++ shown_space ++ nl
    ++ "Transcription ID: " ++ shown_id ++ nl
    ++ "Status: " ++ shown_status ++ nl
    ++ "Message: " ++ shown_message ++ nl ++ nl in
  if Js.truthy wait_for_completion then
    let result := result ++ "Waiting for transcription to complete..." ++ nl ++ nl in
    id_in_url <- render transcription_id ;;
    let statusUrl := apiUrl config ++ "/api/transcription/status/" ++ id_in_url in
    finalStatus <- pollForCompletion statusUrl config ["completed"] ["failed"]
                     120 10000 ;;
    final_message <- lift (Js.get finalStatus "message") ;;
    shown_final <- render final_message ;;
    ret (text_result
           (result ++ check_mark g ++ " Transcription completed!" ++ nl
            ++ "Final Message: " ++ shown_final ++ nl
            ++ nl ++ "You can now download the transcript in different formats using the 'get_transcript' tool."))
  else
    ret (text_result result).

(** [get_transcript] calls [fetch] itself: no JSON header, the body read
    as text.  The URL is rendered before the call. *)
Definition get_transcript_body (space_id format : jsval)
    (config : Config) : M jsval :=
  id_in_url <- render space_id ;;
  format_in_url <- render format ;;
  let transcriptUrl := apiUrl config ++ "/api/transcript/" ++ id_in_url
                         ++ "/download/" ++ format_in_url in
  response <- fetch {| req_url := transcriptUrl;
                       req_method := None;
                       req_headers := [];
                       req_body := None;
                       req_abort_ms := abort_delay config |} ;;
  if negb (resp_ok response) then
    errorText <- lift (resp_text response) ;;
    throw (ErrorObj ("HTTP " ++ Js.number_to_string (resp_status response)
                       ++ ": " ++ errorText))
  else
    transcript <- lift (resp_text response) ;;
    shown_space <- render space_id ;;
    shown_format <- render format ;;
    ret (text_result
           ("Transcript for space " ++ shown_space ++ " ("
            ++ shown_format ++ " format):" ++ nl ++ nl ++ transcript)).

(** What the callback of [spaces.forEach((space, index) => ...)] appends
    to [result] for one entry. *)
Definition space_entry (g : Glyphs) (index : Z) (space : jsval) : M string :=
  title <- lift (Js.get space "title") ;;
  shown_title <- render (Js.or title (JStr "Untitled Space")) ;;
  id <- lift (Js.get space "id") ;;
  shown_id <- render id ;;
  creator_name <- lift (Js.get space "creator_name") ;;
  shown_creator <- render (Js.or creator_name (JStr "Unknown")) ;;
  creator_screen_name <- lift (Js.get space "creator_screen_name") ;;
  shown_screen <- render (Js.or creator_screen_name (JStr "unknown")) ;;
  start_date <- lift (Js.get space "start_date") ;;
  shown_date <- render (Js.or start_date (JStr "Unknown")) ;;
  has_audio <- lift (Js.get space "has_audio") ;;
  has_transcript <- lift (Js.get space "has_transcript") ;;
  audio_size <- lift (Js.get space "audio_size") ;;
  size_line <-
    (if Js.truthy audio_size then
       shown_size <- lift (megabytes_toFixed2 audio_size) ;;
       ret ("   Size: " ++ shown_size ++ " MB" ++ nl)
     else ret "") ;;
  state <- lift (Js.get space "state") ;;
  shown_state <- render (Js.or state (JStr "Unknown")) ;;
  ret (Js.number_to_string (index + 1) ++ ". " ++ shown_title ++ nl
       ++ "   ID: " ++ shown_id ++ nl
       ++ "   Creator: " ++ shown_creator ++ " (@" ++ shown_screen ++ ")" ++ nl
       ++ "   Date: " ++ shown_date ++ nl
       ++ "   Audio: "
       ++ (if Js.truthy has_audio then check_mark g ++ " Available"
           else cross_mark g ++ " Missing") ++ nl
       ++ "   Transcript: "
       ++ (if Js.truthy has_transcript then check_mark g ++ " Available"
           else cross_mark g ++ " Not transcribed") ++ nl
       ++ size_line
       ++ "   State: " ++ shown_state ++ nl ++ nl).

(** [spaces.forEach], threading the accumulated [result]. *)
Fixpoint forEach_space (g : Glyphs) (spaces : list jsval) (index : Z)
    (result : string) : M string :=
  match spaces with
  | [] => ret result
  | space :: rest =>
      entry <- space_entry g index space ;;
      forEach_space g rest (index + 1) (result ++ entry)
  end.

Definition list_spaces_body (g : Glyphs) (config : Config) : M jsval :=
  let spacesUrl := apiUrl config ++ "/api/spaces" in
  response <- makeApiRequest spacesUrl config no_options ;;
  r2_configured <- lift (Js.get response "r2_configured") ;;
  if negb (Js.truthy r2_configured) then
    ret (text_result "R2 storage is not configured. No spaces available.")
  else
    response_spaces <- lift (Js.get response "spaces") ;;
    let spaces := Js.or response_spaces (JArr []) in
    if is_zero (js_length spaces) then
      ret (text_result "No spaces found. Download some Twitter Spaces to get started!")
    else
      shown_count <- render (js_length spaces) ;;
      let result := "Found " ++ shown_count ++ " spaces:" ++ nl ++ nl in
      match spaces with
      | JArr items =>
          result <- forEach_space g items 0 result ;;
          ret (text_result result)
      | _ => throw (Js.type_error "spaces.forEach is not a function")
      end.

Definition download_and_transcribe_space_body (g : Glyphs) (space_url : jsval)
    (config : Config) : M jsval :=
  shown_url <- render space_url ;;
  let result := "Starting complete process for " ++ shown_url ++ nl ++ nl in
  (* Step 1: Check availability *)
  spaceId <- lift (extract_space_id space_url) ;;
  let result := result ++ "1. Checking space availability..." ++ nl in
  let availabilityUrl := apiUrl config ++ "/api/check-space/" ++ spaceId in
  availability <- makeApiRequest availabilityUrl config no_options ;;
  available <- lift (Js.get availability "available") ;;
  if negb (Js.truthy available) then
    error <- lift (Js.get availability "error") ;;
    shown_error <- render error ;;
    throw (ErrorObj ("Space not available: " ++ shown_error))
  else
    let result := result ++ "   " ++ check_mark g ++ " Space is available" ++ nl ++ nl in
    (* Step 2: Download *)
    let result := result ++ "2. Starting download..." ++ nl in
    let downloadUrl := apiUrl config ++ "/api/download" in
    downloadResponse <-
      makeApiRequest downloadUrl config
        {| init_method := Some "POST";
           init_body := Some (JObj [("space_url", space_url)]) |} ;;
    download_id <- lift (Js.get downloadResponse "download_id") ;;
    shown_id <- render download_id ;;
    let result := result ++ "   Download ID: " ++ shown_id ++ nl in
    id_in_url <- render download_id ;;
    let statusUrl := apiUrl config ++ "/api/status/" ++ id_in_url in
    downloadStatus <- pollForCompletion statusUrl config default_completed
                        default_failed default_maxAttempts default_intervalMs ;;
    filename <- lift (Js.get downloadStatus "filename") ;;
    shown_filename <- render filename ;;
    let result := result ++ "   " ++ check_mark g ++ " Download completed" ++ nl
                    ++ "   Filename: " ++ shown_filename ++ nl ++ nl in
    (* Step 3: Transcribe *)
    let result := result ++ "3. Starting transcription..." ++ nl in
    let transcribeUrl := apiUrl config ++ "/api/transcribe" in
    space_id <- lift (Js.get downloadStatus "space_id") ;;
    transcribeResponse <-
      makeApiRequest transcribeUrl config
        {| init_method := Some "POST";
           init_body := Some (JObj [("space_id", space_id)]) |} ;;
    transcription_id <- lift (Js.get transcribeResponse "transcription_id") ;;
    shown_tid <- render transcription_id ;;
    let result := result ++ "   Transcription ID: " ++ shown_tid ++ nl in
    tid_in_url <- render transcription_id ;;
    let transcribeStatusUrl := apiUrl config ++ "/api/transcription/status/"
                                 ++ tid_in_url in
    _ <- pollForCompletion transcribeStatusUrl config ["completed"] ["failed"]
           120 10000 ;;
    shown_space <- render space_id ;;
    shown_space_again <- render space_id ;;
    ret (text_result
           (result ++ "   " ++ check_mark g ++ " Transcription completed" ++ nl ++ nl
            ++ party_popper g ++ " Complete! Space " ++ shown_space
            ++ " has been downloaded and transcribed." ++ nl
            ++ "Use the 'get_transcript' tool with space_id=" ++ String "034"%char ""
            ++ shown_space_again ++ String "034"%char ""
            ++ " to view the transcript.")).

(** *** index.ts: one handler per registered tool

    [async ({ space_url }, config) => { try { body } catch (error) { ... } }]:
    the parameter pattern is bound before the [try] is entered. *)

Definition caught (label : string) (body : M jsval) : M jsval :=
  try_catch body
    (fun error => ret (text_result (label ++ error_text error))).

Definition check_space_availability (args : jsval) (config : Config) : M jsval :=
  space_url <- lift (destructure args "space_url" "undefined") ;;
  caught "Error checking space availability: "
    (check_space_availability_body index_glyphs space_url config).

Definition download_twitter_space (args : jsval) (config : Config) : M jsval :=
  space_url <- lift (destructure args "space_url" "undefined") ;;
  wait_for_completion <- lift (destructure args "wait_for_completion" "undefined") ;;
  caught "Error downloading space: "
    (download_twitter_space_body index_glyphs space_url
       (default_to (JBool true) wait_for_completion) config).

Definition transcribe_space (args : jsval) (config : Config) : M jsval :=
  space_id <- lift (destructure args "space_id" "undefined") ;;
  wait_for_completion <- lift (destructure args "wait_for_completion" "undefined") ;;
  caught "Error transcribing space: "
    (transcribe_space_body index_glyphs space_id
       (default_to (JBool true) wait_for_completion) config).

Definition get_transcript (args : jsval) (config : Config) : M jsval :=
  space_id <- lift (destructure args "space_id" "undefined") ;;
  format <- lift (destructure args "format" "undefined") ;;
  caught "Error getting transcript: "
    (get_transcript_body space_id (default_to (JStr "paragraphs") format) config).

(** [async ({}, config) => ...]: the empty pattern binds nothing and still
    rejects [null] and [undefined]. *)
Definition list_spaces (args : jsval) (config : Config) : M jsval :=
  _ <- lift (empty_pattern args) ;;
  caught "Error listing spaces: " (list_spaces_body index_glyphs config).

Definition download_and_transcribe_space (args : jsval) (config : Config)
    : M jsval :=
  space_url <- lift (destructure args "space_url" "undefined") ;;
  caught "Error in complete process: "
    (download_and_transcribe_space_body index_glyphs space_url config).

(** The registry [server.tool(...)] fills: handler, the label of its
    [catch], and the body inside its [try]. *)
Definition registered_handler (t : tool) : jsval -> Config -> M jsval :=
  match t with
  | CheckSpaceAvailability => check_space_availability
  | DownloadTwitterSpace => download_twitter_space
  | TranscribeSpace => transcribe_space
  | GetTranscript => get_transcript
  | ListSpaces => list_spaces
  | DownloadAndTranscribeSpace => download_and_transcribe_space
  end.

Definition catch_label (t : tool) : string :=
  match t with
  | CheckSpaceAvailability => "Error checking space availability: "
  | DownloadTwitterSpace => "Error downloading space: "
  | TranscribeSpace => "Error transcribing space: "
  | GetTranscript => "Error getting transcript: "
  | ListSpaces => "Error listing spaces: "
  | DownloadAndTranscribeSpace => "Error in complete process: "
  end.

(** The body of a tool on the arguments object, the destructuring
    defaults applied, with the glyphs of the file it stands in; [source]
    only words the TypeError of a failed destructuring. *)
Definition tool_body (g : Glyphs) (t : tool) (args : jsval) (source : string)
    (config : Config) : M jsval :=
  match t with
  | CheckSpaceAvailability =>
      space_url <- lift (destructure args "space_url" source) ;;
      check_space_availability_body g space_url config
  | DownloadTwitterSpace =>
      space_url <- lift (destructure args "space_url" source) ;;
      wait_for_completion <- lift (destructure args "wait_for_completion" source) ;;
      download_twitter_space_body g space_url
        (default_to (JBool true) wait_for_completion) config
  | TranscribeSpace =>
      space_id <- lift (destructure args "space_id" source) ;;
      wait_for_completion <- lift (destructure args "wait_for_completion" source) ;;
      transcribe_space_body g space_id
        (default_to (JBool true) wait_for_completion) config
  | GetTranscript =>
      space_id <- lift (destructure args "space_id" source) ;;
      format <- lift (destructure args "format" source) ;;
      get_transcript_body space_id (default_to (JStr "paragraphs") format) config
  | ListSpaces =>
      list_spaces_body g config
  | DownloadAndTranscribeSpace =>
      space_url <- lift (destructure args "space_url" source) ;;
      download_and_transcribe_space_body g space_url config
  end.

(** *** The Express variant: [handleCallTool] and the JSON-RPC front *)

(** The [switch] inside the [try] of [handleCallTool]. *)
Definition tool_switch (name args : jsval) (config : Config) : M jsval :=
  match tool_of_name name with
  | Some t => tool_body express_glyphs t args "args" config
  | None =>
      shown_name <- render name ;;
      throw (ErrorObj ("Unknown tool: " ++ shown_name))
  end.

(** [const { name, arguments: args } = params] stands before the [try]. *)
Definition handleCallTool (params : jsval) (config : Config) : M jsval :=
  name <- lift (destructure params "name" "params") ;;
  args <- lift (destructure params "arguments" "params") ;;
  caught "Error: " (tool_switch name args config).

Definition handleInitialize (params : jsval) : M jsval :=
  ret (JObj [("protocolVersion", JStr "2024-11-05");
             ("capabilities", SERVER_CAPABILITIES);
             ("serverInfo", SERVER_INFO)]).

Definition handleListTools : M jsval :=
  ret (JObj [("tools", TOOLS)]).

Definition handleMcpRequest (request : jsval) (config : Config)
    : M JsonRpcResponse :=
  try_catch
    (method <- lift (Js.get request "method") ;;
     let respond (result : jsval) : M JsonRpcResponse :=
       id <- lift (Js.get request "id") ;;
       ret {| rpc_id := id; rpc_result := Some result; rpc_error := None |} in
     match method_of_name method with
     | Some Initialize =>
         params <- lift (Js.get request "params") ;;
         result <- handleInitialize params ;;
         respond result
     | Some ToolsList =>
         result <- handleListTools ;;
         respond result
     | Some ToolsCall =>
         params <- lift (Js.get request "params") ;;
         result <- handleCallTool params config ;;
         respond result
     | None =>
         id <- lift (Js.get request "id") ;;
         shown_method <- render method ;;
         ret {| rpc_id := id;
                rpc_result := None;
                rpc_error := Some {| code := -32601;
                                     message := "Method not found: "
                                                ++ shown_method |} |}
     end)
    (fun error =>
       id <- lift (Js.get request "id") ;;
       ret {| rpc_id := id;
              rpc_result := None;
              rpc_error := Some {| code := -32603;
                                   message := match error with
                                              | ErrorObj m => m
                                              | NonError _ => "Internal error"
                                              end |} |}).

(** The first [j] ticks after [w] find the operation in progress. *)
Definition waits_through (completedStatuses failedStatuses : list string)
    (w : World) (j : nat) : Prop :=
  forall i, (i < j)%nat ->
    exists v, snapshot_of (backend (calls w + i)) = Some v
              /\ in_progress completedStatuses failedStatuses v.

(** The detail of the failure error as the specification words it: the
    snapshot's [error] field, or its [message] field when [error] is
    absent. *)
Definition spec_failure_detail (snapshot : jsval) : outcome string :=
  match Js.get snapshot "error", Js.get snapshot "message" with
  | Return JUndefined, Return msg => Js.to_string msg
  | Return err, _ => Js.to_string err
  | Throw e, _ => Throw e
  end.

(** The specification's sentence on failed operations, read to the
    letter: at the first failed snapshot the poll throws the failure
    error with [spec_failure_detail]. *)
Definition failure_carries_error_unless_absent (statusUrl : string)
    (config : Config) (completedStatuses failedStatuses : list string)
    (maxAttempts intervalMs : Z) : Prop :=
  forall (k : nat) (w : World) (snapshot st : jsval) (detail : string),
    (1 <= k)%nat -> Z.of_nat k <= maxAttempts ->
    waits_through completedStatuses failedStatuses w (k - 1) ->
    snapshot_of (backend (calls w + (k - 1))) = Some snapshot ->
    Js.get snapshot "status" = Return st ->
    Js.includes completedStatuses st = false ->
    Js.includes failedStatuses st = true ->
    spec_failure_detail snapshot = Return detail ->
    fst (pollForCompletion statusUrl config completedStatuses failedStatuses
                           maxAttempts intervalMs w)
    = Throw (ErrorObj ("Operation failed: " ++ detail)).

(** Whenever the body returns, it returns a text result. *)
Definition returns_text (body : M jsval) : Prop :=
  forall w r w', body w = (Return r, w') -> exists text, r = text_result text.

(** The specification's sentence on unsupported operations, read to the
    letter: every such request is reported at the protocol level. *)
Definition unsupported_reported_at_protocol_level (config : Config) : Prop :=
  forall request w,
    names_unsupported_operation request ->
    exists response w',
      handleMcpRequest request config w = (Return response, w')
      /\ reported_at_protocol_level response.

(** ** Properties of the request helper and of the poller *)

Lemma fetches_app (l1 l2 : list event) :
  fetches (l1 ++ l2) = (fetches l1 ++ fetches l2)%list.
Proof.
  induction l1 as [|[r|ms] l1 IH]; simpl; [reflexivity | f_equal; exact IH | exact IH].
Qed.

Lemma sleeps_app (l1 l2 : list event) :
  sleeps (l1 ++ l2) = (sleeps l1 ++ sleeps l2)%list.
Proof.
  induction l1 as [|[r|ms] l1 IH]; simpl; [reflexivity | exact IH | f_equal; exact IH].
Qed.

Lemma fetches_waiting_ticks (r : request) (ms : Z) (n : nat) :
  fetches (waiting_ticks r ms n) = repeat r n.
Proof. induction n; simpl; [reflexivity | f_equal; assumption]. Qed.

Lemma sleeps_waiting_ticks (r : request) (ms : Z) (n : nat) :
  sleeps (waiting_ticks r ms n) = repeat ms n.
Proof. induction n; simpl; [reflexivity | f_equal; assumption]. Qed.

Lemma waiting_ticks_snoc (r : request) (ms : Z) (n : nat) :
  waiting_ticks r ms (S n) = (waiting_ticks r ms n ++ [EFetch r; ESleep ms])%list.
Proof.
  induction n as [|n IH]; [reflexivity|].
  simpl in *. do 2 f_equal. exact IH.
Qed.

Lemma advance_advance (w : World) (n m : nat) (e1 e2 : list event) :
  advance (advance w n e1) m e2 = advance w (n + m) (e1 ++ e2).
Proof.
  unfold advance; simpl. f_equal; [lia | now rewrite app_assoc].
Qed.

Lemma advance_0 (w : World) : advance w 0 [] = w.
Proof.
  destruct w as [c l]. unfold advance; simpl.
  f_equal; [lia | apply app_nil_r].
Qed.

(** A call the backend answers with parseable 2xx JSON returns that JSON
    and costs one network call. *)
Lemma makeApiRequest_delivers url config options (w : World) (v : jsval) :
  snapshot_of (backend (calls w)) = Some v ->
  makeApiRequest url config options w
  = (Return v, advance w 1 [EFetch (api_request url config options)]).
Proof.
  unfold snapshot_of, makeApiRequest, try_catch, bind, fetch, lift, advance.
  destruct (backend (calls w)) as [e|r]; [discriminate|].
  destruct (resp_ok r); [|discriminate]. simpl.
  destruct (resp_json r) as [v'|e]; [|discriminate].
  intros [= ->]. do 2 f_equal. lia.
Qed.

(** One call, whatever its outcome. *)
Lemma makeApiRequest_one_call url config options (w : World) :
  snd (makeApiRequest url config options w)
  = advance w 1 [EFetch (api_request url config options)].
Proof.
  unfold makeApiRequest, try_catch, bind, fetch, lift, throw, advance.
  replace (calls w + 1)%nat with (S (calls w)) by lia.
  destruct (backend (calls w)) as [[m|v]|r]; simpl; try reflexivity.
  destruct (resp_ok r); simpl.
  - destruct (resp_json r) as [v|[m|v]]; reflexivity.
  - destruct (resp_text r) as [t|[m|v]]; reflexivity.
Qed.

(** An error out of [makeApiRequest] is never the poller's failure
    error. *)
Lemma makeApiRequest_cases url config options (w : World) :
  (exists v, snapshot_of (backend (calls w)) = Some v
             /\ makeApiRequest url config options w
                = (Return v, advance w 1 [EFetch (api_request url config options)]))
  \/ (exists e, makeApiRequest url config options w
                = (Throw e, advance w 1 [EFetch (api_request url config options)])
                /\ forall detail, e <> ErrorObj ("Operation failed: " ++ detail)).
Proof.
  destruct (snapshot_of (backend (calls w))) as [v|] eqn:Hs.
  - left. exists v. split; [reflexivity|]. now apply makeApiRequest_delivers.
  - right. revert Hs.
    unfold snapshot_of, makeApiRequest, try_catch, bind, fetch, lift, throw, advance.
    replace (calls w + 1)%nat with (S (calls w)) by lia.
    destruct (backend (calls w)) as [[m|v]|r]; simpl.
    + intros _. eexists. split; [reflexivity|]. intros d; simpl; discriminate.
    + intros _. eexists. split; [reflexivity|]. intros d; discriminate.
    + destruct (resp_ok r); simpl.
      * destruct (resp_json r) as [v|[m|v]]; [discriminate| |];
          intros _; eexists; (split; [reflexivity|]); intros d; simpl; discriminate.
      * destruct (resp_text r) as [t|[m|v]];
          intros _; eexists; (split; [reflexivity|]); intros d; simpl; discriminate.
Qed.

Section Poller.

Variables (statusUrl : string) (config : Config).
Variables (completedStatuses failedStatuses : list string).
Variables (maxAttempts intervalMs : Z).

Notation loop := (poll_loop statusUrl config completedStatuses failedStatuses
                            maxAttempts intervalMs).
Notation poll := (pollForCompletion statusUrl config completedStatuses
                                    failedStatuses maxAttempts intervalMs).
Notation tick := (status_request statusUrl config).
Notation waits_through := (waits_through completedStatuses failedStatuses).
Notation timed_out :=
  (ErrorObj ("Operation timed out after " ++ Js.number_to_string maxAttempts
               ++ " attempts")).

(** A tick that finds the operation in progress sleeps and moves on. *)
Lemma poll_loop_in_progress (remaining : nat) (w : World) (v : jsval) :
  snapshot_of (backend (calls w)) = Some v ->
  in_progress completedStatuses failedStatuses v ->
  loop (S remaining) w
  = loop remaining (advance w 1 [EFetch tick; ESleep intervalMs]).
Proof.
  intros Hv (st & Hst & Hc & Hf).
  simpl. unfold bind at 1.
  rewrite (makeApiRequest_delivers _ _ _ _ _ Hv).
  unfold bind at 1, lift at 1. rewrite Hst, Hc, Hf.
  unfold bind, sleep, advance; simpl.
  rewrite <- app_assoc. reflexivity.
Qed.

(** [j] such ticks in a row. *)
Lemma poll_loop_waits (j remaining : nat) (w : World) :
  waits_through w j ->
  loop (j + remaining) w
  = loop remaining (advance w j (waiting_ticks tick intervalMs j)).
Proof.
  revert w. induction j as [|j IH]; intros w H.
  - simpl. now rewrite advance_0.
  - destruct (H 0%nat ltac:(lia)) as (v & Hv & Hp).
    rewrite Nat.add_0_r in Hv.
    change (S j + remaining)%nat with (S (j + remaining)).
    rewrite (poll_loop_in_progress _ _ _ Hv Hp).
    rewrite IH.
    + rewrite advance_advance. reflexivity.
    + intros i Hi. destruct (H (S i) ltac:(lia)) as (v' & Hv' & Hp').
      exists v'. split; [|exact Hp'].
      simpl. now replace (calls w + 1 + i)%nat with (calls w + S i)%nat by lia.
Qed.

(** A tick that finds a completed status returns the snapshot. *)
Lemma poll_loop_completed (remaining : nat) (w : World) (v : jsval) :
  snapshot_of (backend (calls w)) = Some v ->
  status_in completedStatuses v ->
  loop (S remaining) w = (Return v, advance w 1 [EFetch tick]).
Proof.
  intros Hv (st & Hst & Hc).
  simpl. unfold bind at 1.
  rewrite (makeApiRequest_delivers _ _ _ _ _ Hv).
  unfold bind, lift. rewrite Hst, Hc. reflexivity.
Qed.

(** A tick that finds a failed status, and not a completed one,
    throws. *)
Lemma poll_loop_failed (remaining : nat) (w : World) (v st : jsval) :
  snapshot_of (backend (calls w)) = Some v ->
  Js.get v "status" = Return st ->
  Js.includes completedStatuses st = false ->
  Js.includes failedStatuses st = true ->
  exists err msg,
    Js.get v "error" = Return err /\ Js.get v "message" = Return msg
    /\ loop (S remaining) w
       = (Throw (failure_of (Js.or err msg)), advance w 1 [EFetch tick]).
Proof.
  intros Hv Hst Hc Hf.
  assert (Hget : forall k, exists x, Js.get v k = Return x).
  { intros k. destruct v; simpl in *; try discriminate; eauto. }
  destruct (Hget "error") as (err & He).
  destruct (Hget "message") as (msg & Hm).
  exists err, msg. repeat split; try assumption.
  simpl. unfold bind at 1.
  rewrite (makeApiRequest_delivers _ _ _ _ _ Hv).
  unfold bind, lift, throw, failure_of. rewrite Hst, Hc, Hf, He, Hm.
  destruct (Js.to_string (Js.or err msg)); reflexivity.
Qed.

Lemma budget_split (k : nat) :
  (1 <= k)%nat -> Z.of_nat k <= maxAttempts ->
  Z.to_nat maxAttempts = ((k - 1) + S (Z.to_nat maxAttempts - k))%nat.
Proof. lia. Qed.

(** Tick [k] is reached with [k - 1] waits behind it. *)
Lemma poll_reaches_tick (k : nat) (w : World) :
  (1 <= k)%nat -> Z.of_nat k <= maxAttempts ->
  waits_through w (k - 1) ->
  poll w
  = loop (S (Z.to_nat maxAttempts - k))
         (advance w (k - 1) (waiting_ticks tick intervalMs (k - 1))).
Proof.
  intros Hk HN Hw. unfold pollForCompletion.
  rewrite (budget_split k Hk HN) at 1. now apply poll_loop_waits.
Qed.

Lemma poll_completes_at (k : nat) (w : World) (snapshot : jsval) :
  (1 <= k)%nat -> Z.of_nat k <= maxAttempts ->
  waits_through w (k - 1) ->
  snapshot_of (backend (calls w + (k - 1))) = Some snapshot ->
  status_in completedStatuses snapshot ->
  poll w
  = (Return snapshot,
     advance w k (waiting_ticks tick intervalMs (k - 1) ++ [EFetch tick])).
Proof.
  intros Hk HN Hw Hv Hc.
  rewrite (poll_reaches_tick k w Hk HN Hw).
  rewrite (poll_loop_completed _ _ snapshot); [| exact Hv | exact Hc].
  rewrite advance_advance. now replace (k - 1 + 1)%nat with k by lia.
Qed.

Lemma poll_exhausts (w : World) :
  waits_through w (Z.to_nat maxAttempts) ->
  poll w
  = (Throw timed_out,
     advance w (Z.to_nat maxAttempts)
             (waiting_ticks tick intervalMs (Z.to_nat maxAttempts))).
Proof.
  intros Hw. unfold pollForCompletion.
  rewrite <- (Nat.add_0_r (Z.to_nat maxAttempts)) at 1.
  rewrite poll_loop_waits by exact Hw. reflexivity.
Qed.

(** Whatever the backend does, the loop issues at most as many status
    calls as ticks remain. *)
Lemma poll_loop_bounded (remaining : nat) (w : World) :
  (calls (snd (loop remaining w)) <= calls w + remaining)%nat.
Proof.
  revert w. induction remaining as [|remaining IH]; intros w; simpl.
  - lia.
  - unfold bind at 1.
    pose proof (makeApiRequest_one_call statusUrl config no_options w) as Hw.
    destruct (makeApiRequest statusUrl config no_options w) as [[v|e] w1];
      simpl in Hw; subst w1; [|simpl; lia].
    unfold bind at 1, lift at 1.
    destruct (Js.get v "status") as [st|e]; [|simpl; lia].
    destruct (Js.includes completedStatuses st); [simpl; lia|].
    destruct (Js.includes failedStatuses st).
    + unfold bind, lift, throw.
      destruct (Js.get v "error"); [|simpl; lia].
      destruct (Js.get v "message"); [|simpl; lia].
      destruct (Js.to_string _); simpl; lia.
    + unfold bind at 1, sleep at 1.
      etransitivity; [apply IH|]. simpl. lia.
Qed.

(** C1: when the k-th snapshot (k <= max_attempts) is the first with a
    completed status and no earlier one has a failed status, the poll
    returns that snapshot; it has then made exactly k status calls and
    slept exactly k - 1 times, each time for the interval. *)
Theorem poll_returns_kth_snapshot (k : nat) (w : World) (snapshot : jsval) :
  (1 <= k)%nat -> Z.of_nat k <= maxAttempts ->
  waits_through w (k - 1) ->
  snapshot_of (backend (calls w + (k - 1))) = Some snapshot ->
  status_in completedStatuses snapshot ->
  let evs := (waiting_ticks tick intervalMs (k - 1) ++ [EFetch tick])%list in
  poll w
  = (Return snapshot, advance w k evs)
  /\ fetches evs = repeat tick k
  /\ sleeps evs = repeat intervalMs (k - 1).
Proof.
  intros Hk HN Hw Hv Hc evs. split; [|split].
  - now apply poll_completes_at.
  - unfold evs. rewrite fetches_app, fetches_waiting_ticks. simpl.
    replace k with (k - 1 + 1)%nat at 2 by lia.
    now rewrite repeat_app.
  - unfold evs. rewrite sleeps_app, sleeps_waiting_ticks. simpl.
    apply app_nil_r.
Qed.

(** C3: when the first max_attempts snapshots all have a status outside
    both sets, the poll fails with the time-out error, whose message
    names max_attempts, after exactly max_attempts status calls. *)
Theorem poll_times_out_after_budget (w : World) :
  waits_through w (Z.to_nat maxAttempts) ->
  let n := Z.to_nat maxAttempts in
  let evs := waiting_ticks tick intervalMs n in
  poll w
  = (Throw timed_out, advance w n evs)
  /\ fetches evs = repeat tick n.
Proof.
  intros Hw n evs. split.
  - now apply poll_exhausts.
  - apply fetches_waiting_ticks.
Qed.

(** C10: a tick that finds the operation in progress sleeps for the
    interval before the loop goes on, the last tick of the budget
    included; so the time-out path sleeps exactly max_attempts times,
    and its last sleep stands between the last status call and the
    time-out error. *)
Theorem timeout_path_sleeps_every_tick (w : World) :
  waits_through w (Z.to_nat maxAttempts) ->
  let n := Z.to_nat maxAttempts in
  let evs := waiting_ticks tick intervalMs n in
  (forall remaining w0 v,
      snapshot_of (backend (calls w0)) = Some v ->
      in_progress completedStatuses failedStatuses v ->
      loop (S remaining) w0
      = loop remaining (advance w0 1 [EFetch tick; ESleep intervalMs]))
  /\ poll w
     = (Throw timed_out, advance w n evs)
  /\ sleeps evs = repeat intervalMs n
  /\ (1 <= maxAttempts ->
      evs = (waiting_ticks tick intervalMs (n - 1)
             ++ [EFetch tick; ESleep intervalMs])%list).
Proof.
  intros Hw n evs. repeat split.
  - intros remaining w0 v Hv Hp. now apply poll_loop_in_progress with (v := v).
  - now apply poll_exhausts.
  - apply sleeps_waiting_ticks.
  - intros HN. unfold evs.
    replace n with (S (n - 1)) at 1 by (unfold n; lia).
    apply waiting_ticks_snoc.
Qed.

Lemma poll_fails_at (k : nat) (w : World) (snapshot st : jsval) :
  (1 <= k)%nat -> Z.of_nat k <= maxAttempts ->
  waits_through w (k - 1) ->
  snapshot_of (backend (calls w + (k - 1))) = Some snapshot ->
  Js.get snapshot "status" = Return st ->
  Js.includes completedStatuses st = false ->
  Js.includes failedStatuses st = true ->
  exists err msg,
    Js.get snapshot "error" = Return err
    /\ Js.get snapshot "message" = Return msg
    /\ poll w
       = (Throw (failure_of (Js.or err msg)),
          advance w k (waiting_ticks tick intervalMs (k - 1) ++ [EFetch tick])).
Proof.
  intros Hk HN Hw Hv Hst Hc Hf.
  destruct (poll_loop_failed (Z.to_nat maxAttempts - k)
              (advance w (k - 1) (waiting_ticks tick intervalMs (k - 1)))
              snapshot st Hv Hst Hc Hf) as (err & msg & He & Hm & Hrun).
  exists err, msg. repeat split; try assumption.
  rewrite (poll_reaches_tick k w Hk HN Hw), Hrun, advance_advance.
  now replace (k - 1 + 1)%nat with k by lia.
Qed.

(** Where a failure error comes from: the last snapshot fetched had a
    status in the failed set and outside the completed set. *)
Lemma poll_loop_failure_origin (remaining : nat) (w w' : World) (detail : string) :
  loop remaining w = (Throw (ErrorObj ("Operation failed: " ++ detail)), w') ->
  exists v st,
    snapshot_of (backend (calls w' - 1)) = Some v
    /\ Js.get v "status" = Return st
    /\ Js.includes failedStatuses st = true
    /\ Js.includes completedStatuses st = false.
Proof.
  revert w. induction remaining as [|remaining IH]; intros w; simpl.
  - unfold throw. discriminate.
  - unfold bind at 1.
    destruct (makeApiRequest_cases statusUrl config no_options w)
      as [(v & Hv & ->)|(e & -> & Hne)].
    + unfold bind at 1, lift at 1.
      destruct (Js.get v "status") as [st|e] eqn:Hst.
      * destruct (Js.includes completedStatuses st) eqn:Hc.
        { unfold ret. discriminate. }
        destruct (Js.includes failedStatuses st) eqn:Hf.
        { intros H. exists v, st.
          assert (calls w' = calls w + 1)%nat as ->.
          { revert H. unfold bind, lift, throw.
            destruct (Js.get v "error"); [|intros [= _ <-]; reflexivity].
            destruct (Js.get v "message"); [|intros [= _ <-]; reflexivity].
            destruct (Js.to_string _); intros [= _ <-]; reflexivity. }
          replace (calls w + 1 - 1)%nat with (calls w) by lia.
          repeat split; assumption. }
        unfold bind at 1, sleep at 1. apply IH.
      * destruct v; simpl in Hst; try discriminate;
          injection Hst as <-; intros [= H _]; discriminate.
    + intros [= H _]. now elim (Hne detail).
Qed.

(** C9: a snapshot whose status belongs to both sets ends the poll as a
    success, with that snapshot; and whenever the poll throws the
    failure error, the snapshot it had just fetched has a status in
    the failed set and outside the completed set. *)
Theorem completed_check_precedes_failed
    (k : nat) (w : World) (snapshot st : jsval) :
  (1 <= k)%nat -> Z.of_nat k <= maxAttempts ->
  waits_through w (k - 1) ->
  snapshot_of (backend (calls w + (k - 1))) = Some snapshot ->
  Js.get snapshot "status" = Return st ->
  Js.includes completedStatuses st = true ->
  Js.includes failedStatuses st = true ->
  poll w
  = (Return snapshot,
     advance w k (waiting_ticks tick intervalMs (k - 1) ++ [EFetch tick]))
  /\ (forall w0 w' detail,
        poll w0 = (Throw (ErrorObj ("Operation failed: " ++ detail)), w') ->
        exists v st',
          snapshot_of (backend (calls w' - 1)) = Some v
          /\ Js.get v "status" = Return st'
          /\ Js.includes failedStatuses st' = true
          /\ Js.includes completedStatuses st' = false).
Proof.
  intros Hk HN Hw Hv Hst Hc _. split.
  - apply poll_completes_at; try assumption. now exists st.
  - intros w0 w' detail. apply poll_loop_failure_origin.
Qed.

(** C2, amended: when the k-th snapshot (k <= max_attempts) is the
    first with a failed status, none before it is completed and it is
    not completed itself, the poll fails after exactly k status calls
    and makes no further call.  The field it reports is the snapshot's
    [error] when that is truthy and its [message] otherwise (absent,
    null or empty [error]); where that field renders as text, as every
    string does, the poll throws the failure error carrying it, and
    where it does not (an object with a [toString] property of its own)
    the poll throws the TypeError of the rendering instead. *)
Theorem poll_fails_on_kth_snapshot (k : nat) (w : World) (snapshot st : jsval) :
  (1 <= k)%nat -> Z.of_nat k <= maxAttempts ->
  waits_through w (k - 1) ->
  snapshot_of (backend (calls w + (k - 1))) = Some snapshot ->
  Js.get snapshot "status" = Return st ->
  Js.includes completedStatuses st = false ->
  Js.includes failedStatuses st = true ->
  exists err msg e,
    Js.get snapshot "error" = Return err
    /\ Js.get snapshot "message" = Return msg
    /\ let evs := (waiting_ticks tick intervalMs (k - 1) ++ [EFetch tick])%list in
       let carried := if Js.truthy err then err else msg in
       poll w = (Throw e, advance w k evs)
       /\ fetches evs = repeat tick k
       /\ (forall detail,
             Js.to_string carried = Return detail ->
             e = ErrorObj ("Operation failed: " ++ detail))
       /\ (forall e', Js.to_string carried = Throw e' -> e = e').
Proof.
  intros Hk HN Hw Hv Hst Hc Hf.
  destruct (poll_fails_at k w snapshot st Hk HN Hw Hv Hst Hc Hf)
    as (err & msg & He & Hm & Hrun).
  exists err, msg, (failure_of (Js.or err msg)).
  split; [exact He|]. split; [exact Hm|]. split; [exact Hrun|]. split; [|split].
  - rewrite fetches_app, fetches_waiting_ticks. simpl.
    replace k with (k - 1 + 1)%nat at 2 by lia.
    now rewrite repeat_app.
  - intros detail Hd. unfold failure_of, Js.or. now rewrite Hd.
  - intros e' Hd. unfold failure_of, Js.or. now rewrite Hd.
Qed.

End Poller.

(** ** Properties of the tool handlers *)

Lemma destructure_get (v : jsval) (k source : string) :
  nullish v = false -> destructure v k source = Js.get v k.
Proof. destruct v; simpl; congruence. Qed.

Lemma empty_pattern_object (v : jsval) :
  nullish v = false -> empty_pattern v = Return tt.
Proof. destruct v; simpl; congruence. Qed.

Lemma get_not_nullish (v x : jsval) (k : string) :
  Js.get v k = Return x -> nullish v = false.
Proof. destruct v; simpl; congruence. Qed.

Lemma get_total (v : jsval) (k : string) :
  nullish v = false -> exists x, Js.get v k = Return x.
Proof. destruct v; simpl; try discriminate; eauto. Qed.

(** Case analysis along a run: split on whatever the run inspects
    next. *)
Ltac next_case H :=
  match type of H with
  | context [match ?x with _ => _ end] => destruct x eqn:?
  | context [if ?b then _ else _] => destruct b eqn:?
  end.

Ltac settle H :=
  first [ discriminate H
        | injection H as <- <-; eexists; reflexivity ].

Ltac run_through H :=
  unfold bind, lift, ret, throw in H;
  repeat (first [ settle H | next_case H ]);
  try settle H.

Lemma check_space_availability_body_text g space_url config :
  returns_text (check_space_availability_body g space_url config).
Proof.
  intros w r w' H. unfold check_space_availability_body, info_line, render in H.
  run_through H.
Qed.

Lemma download_twitter_space_body_text g space_url wait config :
  returns_text (download_twitter_space_body g space_url wait config).
Proof.
  intros w r w' H. unfold download_twitter_space_body, render in H. run_through H.
Qed.

Lemma transcribe_space_body_text g space_id wait config :
  returns_text (transcribe_space_body g space_id wait config).
Proof.
  intros w r w' H. unfold transcribe_space_body, render in H. run_through H.
Qed.

Lemma get_transcript_body_text space_id format config :
  returns_text (get_transcript_body space_id format config).
Proof.
  intros w r w' H. unfold get_transcript_body, render in H. run_through H.
Qed.

Lemma list_spaces_body_text g config :
  returns_text (list_spaces_body g config).
Proof.
  intros w r w' H. unfold list_spaces_body, render in H. run_through H.
Qed.

Lemma download_and_transcribe_space_body_text g space_url config :
  returns_text (download_and_transcribe_space_body g space_url config).
Proof.
  intros w r w' H. unfold download_and_transcribe_space_body, render in H.
  run_through H.
Qed.

Lemma tool_body_text g t args source config :
  returns_text (tool_body g t args source config).
Proof.
  intros w r w' H. destruct t; unfold tool_body, bind, lift in H;
    repeat next_case H; try discriminate H;
    [ eapply check_space_availability_body_text
    | eapply download_twitter_space_body_text
    | eapply transcribe_space_body_text
    | eapply get_transcript_body_text
    | eapply list_spaces_body_text
    | eapply download_and_transcribe_space_body_text ]; eassumption.
Qed.

Lemma tool_switch_text name args config :
  returns_text (tool_switch name args config).
Proof.
  unfold tool_switch. destruct (tool_of_name name) as [t|].
  - apply tool_body_text.
  - intros w r w' H. unfold render, bind, lift, throw in H.
    destruct (Js.to_string name); discriminate H.
Qed.

Lemma tool_body_source g t args s1 s2 config :
  nullish args = false ->
  tool_body g t args s1 config = tool_body g t args s2 config.
Proof.
  intros Hn. destruct t; unfold tool_body;
    rewrite ?(destructure_get args _ s1 Hn), ?(destructure_get args _ s2 Hn);
    reflexivity.
Qed.

Lemma tool_of_name_tool_name (t : tool) : tool_of_name (JStr (tool_name t)) = Some t.
Proof. destruct t; reflexivity. Qed.

Lemma caught_throw label (body : M jsval) w e w' :
  body w = (Throw e, w') ->
  caught label body w = (Return (text_result (label ++ error_text e)), w').
Proof. unfold caught, try_catch, ret. now intros ->. Qed.

Lemma caught_return label (body : M jsval) w r w' :
  body w = (Return r, w') -> caught label body w = (Return r, w').
Proof. unfold caught, try_catch. now intros ->. Qed.

Lemma caught_total label (body : M jsval) w :
  returns_text body ->
  exists text w', caught label body w = (Return (text_result text), w').
Proof.
  intros Hb. destruct (body w) as [[r|e] w'] eqn:Hrun.
  - destruct (Hb _ _ _ Hrun) as [text ->].
    exists text, w'. now apply caught_return.
  - exists (label ++ error_text e), w'. now apply caught_throw.
Qed.

(** With an arguments object at hand, a handler of [index.ts] is its
    body under its [catch]. *)
Lemma registered_handler_caught t args config w :
  nullish args = false ->
  registered_handler t args config w
  = caught (catch_label t) (tool_body index_glyphs t args "args" config) w.
Proof.
  intros Hn.
  destruct t; simpl;
    unfold check_space_availability, download_twitter_space, transcribe_space,
      get_transcript, list_spaces, download_and_transcribe_space,
      caught, try_catch, bind, lift;
    rewrite ?destructure_get by exact Hn;
    rewrite ?(empty_pattern_object args Hn);
    repeat match goal with
           | |- context [Js.get args ?k] =>
               let E := fresh in
               destruct (get_total args k Hn) as [? E]; rewrite E
           end;
    reflexivity.
Qed.

(** With a parameters object at hand, [handleCallTool] is its [switch]
    under its [catch]. *)
Lemma handleCallTool_caught params name args config w :
  Js.get params "name" = Return name ->
  Js.get params "arguments" = Return args ->
  handleCallTool params config w
  = caught "Error: " (tool_switch name args config) w.
Proof.
  intros Hname Hargs. pose proof (get_not_nullish _ _ _ Hname) as Hn.
  unfold handleCallTool, bind, lift.
  rewrite !destructure_get by exact Hn. now rewrite Hname, Hargs.
Qed.

Lemma handleCallTool_known params t args config w :
  Js.get params "name" = Return (JStr (tool_name t)) ->
  Js.get params "arguments" = Return args ->
  handleCallTool params config w
  = caught "Error: " (tool_body express_glyphs t args "args" config) w.
Proof.
  intros Hname Hargs. rewrite (handleCallTool_caught _ _ _ _ _ Hname Hargs).
  unfold tool_switch. now rewrite tool_of_name_tool_name.
Qed.

(** C4: a tool handler is a boundary.  Called with a parameters object,
    [handleCallTool] always returns a text result and never throws, and
    whatever error its [switch] raises (out of [makeApiRequest], out of
    [pollForCompletion], or anywhere else in a tool body) comes back as
    the text [Error: ] followed by the error's message; the handlers of
    [index.ts] do the same under their own labels. *)
Theorem tool_handlers_catch_every_error
    (params args : jsval) (config : Config) (w : World) :
  nullish params = false ->
  nullish args = false ->
  (exists text w',
      handleCallTool params config w = (Return (text_result text), w'))
  /\ (forall name arguments e w',
        Js.get params "name" = Return name ->
        Js.get params "arguments" = Return arguments ->
        tool_switch name arguments config w = (Throw e, w') ->
        handleCallTool params config w
        = (Return (text_result ("Error: " ++ error_text e)), w'))
  /\ (forall t,
        (exists text w',
            registered_handler t args config w = (Return (text_result text), w'))
        /\ (forall e w',
              tool_body index_glyphs t args "args" config w = (Throw e, w') ->
              registered_handler t args config w
              = (Return (text_result (catch_label t ++ error_text e)), w'))).
Proof.
  intros Hp Ha. split; [|split].
  - destruct (get_total params "name" Hp) as [name Hname].
    destruct (get_total params "arguments" Hp) as [arguments Hargs].
    rewrite (handleCallTool_caught _ _ _ _ _ Hname Hargs).
    apply caught_total, tool_switch_text.
  - intros name arguments e w' Hname Hargs Hrun.
    rewrite (handleCallTool_caught _ _ _ _ _ Hname Hargs).
    now apply caught_throw.
  - intros t. rewrite (registered_handler_caught t args config w Ha). split.
    + apply caught_total, tool_body_text.
    + intros e w' Hrun. now apply caught_throw.
Qed.

(** *** The URL pattern *)

Lemma strip_prefix_sound (p s rest : string) :
  strip_prefix p s = Some rest -> s = p ++ rest.
Proof.
  revert s. induction p as [|a p IH]; intros [|b s]; simpl; try congruence.
  destruct (Ascii.eqb_spec a b) as [->|]; [|discriminate].
  intros H. f_equal. now apply IH.
Qed.

Lemma strip_prefix_complete (p rest : string) :
  strip_prefix p (p ++ rest) = Some rest.
Proof.
  induction p as [|a p IH]; simpl; [reflexivity|].
  now rewrite Ascii.eqb_refl.
Qed.

Lemma take_alnum_split (s : string) : exists after, s = take_alnum s ++ after.
Proof.
  induction s as [|c s [after IH]]; simpl.
  - now exists "".
  - destruct (is_alnum c).
    + exists after. simpl. now f_equal.
    + now exists (String c s).
Qed.

Lemma take_alnum_all_alnum (s : string) : all_alnum (take_alnum s) = true.
Proof.
  induction s as [|c s IH]; simpl; [reflexivity|].
  destruct (is_alnum c) eqn:Hc; [|reflexivity].
  unfold all_alnum in *. simpl. now rewrite Hc.
Qed.

Lemma regex_match_unfold (s : string) :
  regex_match s
  = match match_here s with
    | Some id => Some id
    | None => match s with
              | EmptyString => None
              | String _ rest => regex_match rest
              end
    end.
Proof. destruct s; reflexivity. Qed.

Lemma match_here_sound (s id : string) :
  match_here s = Some id ->
  exists after, s = "/spaces/" ++ id ++ after /\ id <> "" /\ all_alnum id = true.
Proof.
  unfold match_here.
  destruct (strip_prefix "/spaces/" s) as [rest|] eqn:Hp; [|discriminate].
  apply strip_prefix_sound in Hp.
  destruct (take_alnum rest) as [|c run] eqn:Hrun; [discriminate|].
  intros [= <-]. destruct (take_alnum_split rest) as [after Hafter].
  exists after. rewrite <- Hrun. repeat split.
  - now rewrite <- Hafter.
  - rewrite Hrun. discriminate.
  - apply take_alnum_all_alnum.
Qed.

(** A match is a segment of the URL. *)
Lemma regex_match_sound (url id : string) :
  regex_match url = Some id ->
  exists before after,
    url = before ++ "/spaces/" ++ id ++ after /\ id <> "" /\ all_alnum id = true.
Proof.
  induction url as [|c url IH]; rewrite regex_match_unfold.
  - destruct (match_here "") as [id'|] eqn:Hh; [|discriminate].
    intros [= ->]. destruct (match_here_sound _ _ Hh) as (after & ? & ? & ?).
    now exists "", after.
  - destruct (match_here (String c url)) as [id'|] eqn:Hh.
    + intros [= ->]. destruct (match_here_sound _ _ Hh) as (after & ? & ? & ?).
      now exists "", after.
    + intros H. destruct (IH H) as (before & after & -> & ? & ?).
      now exists (String c before), after.
Qed.

(** A URL with a segment matches. *)
Lemma regex_match_complete (url : string) :
  contains_space_segment url -> regex_match url <> None.
Proof.
  intros (before & id & after & -> & Hne & Hall).
  destruct id as [|c id]; [congruence|].
  unfold all_alnum in Hall; simpl in Hall.
  apply andb_true_iff in Hall as [Hc _].
  induction before as [|b before IH]; rewrite regex_match_unfold.
  - unfold match_here. change ("" ++ ?x) with x.
    rewrite strip_prefix_complete. simpl. rewrite Hc. discriminate.
  - destruct (match_here (String b before ++ _)); [discriminate|].
    simpl. exact IH.
Qed.

Lemma regex_match_none (url : string) :
  ~ contains_space_segment url -> regex_match url = None.
Proof.
  intros Hno. destruct (regex_match url) as [id|] eqn:Hm; [|reflexivity].
  destruct (regex_match_sound _ _ Hm) as (before & after & ? & ? & ?).
  elim Hno. now exists before, id, after.
Qed.

Lemma no_match_no_segment (url : string) :
  regex_match url = None -> ~ contains_space_segment url.
Proof. intros Hm Hc. now apply (regex_match_complete url Hc). Qed.

(** *** The handlers, tool by tool *)

(** C6: a [space_url] with no segment [/spaces/] followed by
    alphanumerics makes the availability check fail with the error
    [Invalid space URL format] before any network call: the world is
    left as it was, and both variants of the handler report that
    error. *)
Theorem check_rejects_url_without_segment
    (g : Glyphs) (url : string) (args : jsval) (config : Config) (w : World) :
  ~ contains_space_segment url ->
  Js.get args "space_url" = Return (JStr url) ->
  check_space_availability_body g (JStr url) config w
  = (Throw (ErrorObj "Invalid space URL format"), w)
  /\ check_space_availability args config w
     = (Return (text_result
                  "Error checking space availability: Invalid space URL format"), w)
  /\ (forall params,
        Js.get params "name" = Return (JStr "check_space_availability") ->
        Js.get params "arguments" = Return args ->
        handleCallTool params config w
        = (Return (text_result "Error: Invalid space URL format"), w)).
Proof.
  intros Hno Hurl. pose proof (get_not_nullish _ _ _ Hurl) as Hn.
  assert (Hbody : forall g0, check_space_availability_body g0 (JStr url) config w
                             = (Throw (ErrorObj "Invalid space URL format"), w)).
  { intros g0. unfold check_space_availability_body, bind, lift, extract_space_id.
    now rewrite (regex_match_none url Hno). }
  assert (Htool : forall g0, tool_body g0 CheckSpaceAvailability args "args" config w
                             = (Throw (ErrorObj "Invalid space URL format"), w)).
  { intros g0. unfold tool_body, bind, lift.
    rewrite (destructure_get _ _ _ Hn), Hurl. apply Hbody. }
  split; [apply Hbody|split].
  - change check_space_availability
      with (registered_handler CheckSpaceAvailability).
    rewrite (registered_handler_caught _ _ _ _ Hn).
    now rewrite (caught_throw _ _ _ _ _ (Htool index_glyphs)).
  - intros params Hname Hargs.
    rewrite (handleCallTool_known params CheckSpaceAvailability args config w
               Hname Hargs).
    now rewrite (caught_throw _ _ _ _ _ (Htool express_glyphs)).
Qed.

(** C5: when the availability check answers [available: false], the
    combined workflow makes that one network call and no other (no
    download, no transcription) and ends with the error of that stage,
    which both variants of the handler put into their result: the error
    [Space not available: ] followed by the reply's [error] field where
    that field renders as text, the TypeError of the rendering where it
    does not. *)
Theorem unavailable_space_stops_workflow
    (g : Glyphs) (url id : string) (args availability : jsval)
    (config : Config) (w : World) :
  Js.get args "space_url" = Return (JStr url) ->
  regex_match url = Some id ->
  snapshot_of (backend (calls w)) = Some availability ->
  Js.get availability "available" = Return (JBool false) ->
  exists error stage_error,
    Js.get availability "error" = Return error
    /\ (forall shown,
          Js.to_string error = Return shown ->
          stage_error = ErrorObj ("Space not available: " ++ shown))
    /\ (forall e, Js.to_string error = Throw e -> stage_error = e)
    /\ let check := api_request (apiUrl config ++ "/api/check-space/" ++ id)
                                config no_options in
       let w' := advance w 1 [EFetch check] in
       download_and_transcribe_space_body g (JStr url) config w
       = (Throw stage_error, w')
       /\ download_and_transcribe_space args config w
          = (Return (text_result ("Error in complete process: "
                                    ++ error_text stage_error)), w')
       /\ (forall params,
             Js.get params "name" = Return (JStr "download_and_transcribe_space") ->
             Js.get params "arguments" = Return args ->
             handleCallTool params config w
             = (Return (text_result ("Error: " ++ error_text stage_error)), w'))
       /\ fetches (log w') = (fetches (log w) ++ [check])%list.
Proof.
  intros Hurl Hid Hv Hav.
  pose proof (get_not_nullish _ _ _ Hurl) as Hn.
  destruct (get_total availability "error" (get_not_nullish _ _ _ Hav))
    as [error Herr].
  exists error,
    (match Js.to_string error with
     | Return shown => ErrorObj ("Space not available: " ++ shown)
     | Throw e => e
     end).
  split; [exact Herr|]. split; [now intros shown ->|]. split; [now intros e ->|].
  intros check w'.
  assert (Hbody : forall g0,
             download_and_transcribe_space_body g0 (JStr url) config w
             = (Throw (match Js.to_string error with
                       | Return shown => ErrorObj ("Space not available: " ++ shown)
                       | Throw e => e
                       end), w')).
  { intros g0. unfold download_and_transcribe_space_body, extract_space_id, render.
    unfold bind at 1, lift at 1. cbn [Js.to_string].
    unfold bind at 1, lift at 1. rewrite Hid.
    unfold bind at 1. rewrite (makeApiRequest_delivers _ _ _ _ _ Hv).
    unfold bind, lift, throw. rewrite Hav, Herr. cbn [Js.truthy negb].
    destruct (Js.to_string error); reflexivity. }
  assert (Htool : forall g0,
             tool_body g0 DownloadAndTranscribeSpace args "args" config w
             = (Throw (match Js.to_string error with
                       | Return shown => ErrorObj ("Space not available: " ++ shown)
                       | Throw e => e
                       end), w')).
  { intros g0. unfold tool_body, bind, lift.
    rewrite (destructure_get _ _ _ Hn), Hurl. apply Hbody. }
  split; [apply Hbody|split; [|split]].
  - change download_and_transcribe_space
      with (registered_handler DownloadAndTranscribeSpace).
    rewrite (registered_handler_caught _ _ _ _ Hn).
    now rewrite (caught_throw _ _ _ _ _ (Htool index_glyphs)).
  - intros params Hname Hargs.
    rewrite (handleCallTool_known params DownloadAndTranscribeSpace args config w
               Hname Hargs).
    now rewrite (caught_throw _ _ _ _ _ (Htool express_glyphs)).
  - unfold w', advance; simpl. now rewrite fetches_app.
Qed.

(** C7: when the backend answers [r2_configured: false], listing the
    spaces returns the explanatory text, which is not an error and
    lists no space, whatever the [spaces] field holds and also when it
    is absent. *)
Theorem list_spaces_without_storage
    (g : Glyphs) (response : jsval) (config : Config) (w : World) :
  snapshot_of (backend (calls w)) = Some response ->
  Js.get response "r2_configured" = Return (JBool false) ->
  let explanation :=
    text_result "R2 storage is not configured. No spaces available." in
  let w' := advance w 1 [EFetch (api_request (apiUrl config ++ "/api/spaces")
                                             config no_options)] in
  list_spaces_body g config w = (Return explanation, w')
  /\ (forall args,
        nullish args = false ->
        list_spaces args config w = (Return explanation, w'))
  /\ (forall params args,
        Js.get params "name" = Return (JStr "list_spaces") ->
        Js.get params "arguments" = Return args ->
        handleCallTool params config w = (Return explanation, w')).
Proof.
  intros Hv Hr2 explanation w'.
  assert (Hbody : forall g0, list_spaces_body g0 config w = (Return explanation, w')).
  { intros g0. unfold list_spaces_body. unfold bind at 1.
    rewrite (makeApiRequest_delivers _ _ _ _ _ Hv).
    unfold bind, lift. rewrite Hr2. reflexivity. }
  split; [apply Hbody|split].
  - intros args Hn. change list_spaces with (registered_handler ListSpaces).
    rewrite (registered_handler_caught _ _ _ _ Hn).
    apply caught_return. apply (Hbody index_glyphs).
  - intros params args Hname Hargs.
    rewrite (handleCallTool_known params ListSpaces args config w Hname Hargs).
    apply caught_return. apply (Hbody express_glyphs).
Qed.

(** *** The JSON-RPC front *)

Lemma method_of_name_unknown (method : jsval) :
  ~ In method known_methods -> method_of_name method = None.
Proof.
  intros Hno. destruct method as [| |b|n|m|items|fields]; try reflexivity.
  unfold method_of_name.
  repeat match goal with
         | |- context [String.eqb m ?name] =>
             destruct (String.eqb_spec m name) as [->|_];
             [exfalso; apply Hno; simpl; auto 10|]
         end.
  reflexivity.
Qed.

Lemma tool_of_name_unknown (name : jsval) :
  ~ In name declared_tool_names -> tool_of_name name = None.
Proof.
  intros Hno. destruct name as [| |b|n|m|items|fields]; try reflexivity.
  unfold tool_of_name.
  repeat match goal with
         | |- context [String.eqb m ?name] =>
             destruct (String.eqb_spec m name) as [->|_];
             [exfalso; apply Hno; simpl; auto 10|]
         end.
  reflexivity.
Qed.

(** C8, amended: an unknown JSON-RPC method is answered with the
    protocol error -32601 (method not found) in the envelope and no
    result, where its name renders as text, as every string does; a name
    that does not (an object with a [toString] property of its own) is
    answered with the internal-error code -32603 and the message of the
    TypeError.  An unknown tool name passed to [tools/call] is answered
    with a result and no protocol error: the text [Error: Unknown tool: ]
    followed by the name, or [Error: ] followed by the message of the
    TypeError for a name that does not render, as tool content. *)
Theorem unsupported_operation_reports
    (request : jsval) (config : Config) (w : World) :
  (forall method,
      Js.get request "method" = Return method ->
      ~ In method known_methods ->
      exists id,
        Js.get request "id" = Return id
        /\ (forall shown,
              Js.to_string method = Return shown ->
              handleMcpRequest request config w
              = (Return {| rpc_id := id;
                           rpc_result := None;
                           rpc_error :=
                             Some {| code := -32601;
                                     message := "Method not found: " ++ shown |} |},
                 w))
        /\ (forall m,
              Js.to_string method = Throw (ErrorObj m) ->
              handleMcpRequest request config w
              = (Return {| rpc_id := id;
                           rpc_result := None;
                           rpc_error := Some {| code := -32603; message := m |} |},
                 w)))
  /\ (forall params name arguments,
        Js.get request "method" = Return (JStr "tools/call") ->
        Js.get request "params" = Return params ->
        Js.get params "name" = Return name ->
        Js.get params "arguments" = Return arguments ->
        ~ In name declared_tool_names ->
        exists id,
          Js.get request "id" = Return id
          /\ (forall shown,
                Js.to_string name = Return shown ->
                handleMcpRequest request config w
                = (Return {| rpc_id := id;
                             rpc_result :=
                               Some (text_result ("Error: Unknown tool: " ++ shown));
                             rpc_error := None |}, w))
          /\ (forall e,
                Js.to_string name = Throw e ->
                handleMcpRequest request config w
                = (Return {| rpc_id := id;
                             rpc_result :=
                               Some (text_result ("Error: " ++ error_text e));
                             rpc_error := None |}, w))).
Proof.
  split.
  - intros method Hm Hno.
    destruct (get_total request "id" (get_not_nullish _ _ _ Hm)) as [id Hid].
    exists id. split; [exact Hid|].
    split; [intros shown Hs | intros m Hs];
      unfold handleMcpRequest, try_catch, render, bind, lift, ret;
      now rewrite Hm, (method_of_name_unknown method Hno), Hid, Hs.
  - intros params name arguments Hm Hp Hname Hargs Hno.
    destruct (get_total request "id" (get_not_nullish _ _ _ Hm)) as [id Hid].
    exists id. split; [exact Hid|].
    split; [intros shown Hs | intros e Hs];
      unfold handleMcpRequest, try_catch; unfold bind at 1, lift at 1;
      rewrite Hm;
      change (method_of_name (JStr "tools/call")) with (Some ToolsCall); cbv iota;
      unfold bind at 1, lift at 1; rewrite Hp;
      unfold bind at 1, lift at 1; unfold bind at 1;
      rewrite (handleCallTool_caught _ _ _ _ _ Hname Hargs);
      unfold tool_switch; rewrite (tool_of_name_unknown name Hno);
      unfold caught, try_catch, render, throw, ret, bind, lift;
      now rewrite Hs, Hid.
Qed.

(** ** Further properties: the request helper *)

(** X1: a backend answer outside 200-299 is an error that quotes the status
    and the body text; the JSON of the body is never looked at. *)
Theorem makeApiRequest_reports_http_status
    url config options (w : World) (r : response) (body : string) :
  backend (calls w) = Responds r ->
  resp_ok r = false ->
  resp_text r = Return body ->
  makeApiRequest url config options w
  = (Throw (ErrorObj ("API request failed: HTTP "
                        ++ Js.number_to_string (resp_status r) ++ ": " ++ body)),
     advance w 1 [EFetch (api_request url config options)]).
Proof.
  intros Hb Hok Ht.
  unfold makeApiRequest, try_catch, bind, fetch, lift, throw, advance.
  rewrite Hb, Hok, Ht. simpl.
  now replace (calls w + 1)%nat with (S (calls w)) by lia.
Qed.

Lemma makeApiRequest_error_prefix url config options (w : World) (m : string) :
  fst (makeApiRequest url config options w) = Throw (ErrorObj m) ->
  exists detail, m = "API request failed: " ++ detail.
Proof.
  unfold makeApiRequest, try_catch, bind, fetch, lift, throw.
  destruct (backend (calls w)) as [[m0|v]|r]; simpl.
  - intros [= <-]. eauto.
  - discriminate.
  - destruct (resp_ok r); simpl.
    + destruct (resp_json r) as [v|[m0|v]]; simpl; try discriminate.
      intros [= <-]. eauto.
    + destruct (resp_text r) as [t|[m0|v]]; simpl; try discriminate;
        intros [= <-]; eauto.
Qed.

(** X2: whatever the backend does, [makeApiRequest] issues exactly one network
    call, and every [Error] it throws has a message that begins with
    [API request failed: ]; it returns a value only for a 2xx answer
    whose body parses. *)
Theorem makeApiRequest_single_call_uniform_error
    url config options (w : World) :
  snd (makeApiRequest url config options w)
  = advance w 1 [EFetch (api_request url config options)]
  /\ (forall m, fst (makeApiRequest url config options w) = Throw (ErrorObj m) ->
                exists detail, m = "API request failed: " ++ detail)
  /\ (forall v, fst (makeApiRequest url config options w) = Return v ->
                snapshot_of (backend (calls w)) = Some v).
Proof.
  split; [apply makeApiRequest_one_call|split].
  - apply makeApiRequest_error_prefix.
  - intros v.
    destruct (makeApiRequest_cases url config options w)
      as [(v' & Hv & ->)|(e & -> & _)]; simpl.
    + now intros [= <-].
    + discriminate.
Qed.

(** ** Further properties: the poller *)

Section PollerAtLarge.

Variables (statusUrl : string) (config : Config).
Variables (completedStatuses failedStatuses : list string).
Variables (maxAttempts intervalMs : Z).

Notation loop := (poll_loop statusUrl config completedStatuses failedStatuses
                            maxAttempts intervalMs).
Notation poll := (pollForCompletion statusUrl config completedStatuses
                                    failedStatuses maxAttempts intervalMs).
Notation tick := (status_request statusUrl config).
Notation waits_through := (waits_through completedStatuses failedStatuses).

Lemma poll_loop_footprint (remaining : nat) (w : World) :
  exists evs,
    snd (loop remaining w) = advance w (List.length (fetches evs)) evs
    /\ Forall (fun e => e = EFetch tick \/ e = ESleep intervalMs) evs
    /\ (List.length (fetches evs) <= remaining)%nat
    /\ (List.length (sleeps evs) <= List.length (fetches evs))%nat.
Proof.
  revert w. induction remaining as [|remaining IH]; intros w.
  - exists []. simpl. rewrite advance_0. repeat split; auto.
  - assert (Hstop : forall (o : outcome jsval),
               loop (S remaining) w = (o, advance w 1 [EFetch tick]) ->
               exists evs,
                 snd (loop (S remaining) w) = advance w (List.length (fetches evs)) evs
                 /\ Forall (fun e => e = EFetch tick \/ e = ESleep intervalMs) evs
                 /\ (List.length (fetches evs) <= S remaining)%nat
                 /\ (List.length (sleeps evs) <= List.length (fetches evs))%nat).
    { intros o Ho. exists [EFetch tick]. rewrite Ho. simpl.
      repeat split; auto; lia. }
    destruct (makeApiRequest_cases statusUrl config no_options w)
      as [(v & Hv & Hrun)|(e & Hrun & _)].
    + destruct (Js.get v "status") as [st|e] eqn:Hst.
      * destruct (Js.includes completedStatuses st) eqn:Hc.
        { eapply Hstop. apply poll_loop_completed with (v := v); [exact Hv|].
          now exists st. }
        destruct (Js.includes failedStatuses st) eqn:Hf.
        { destruct (poll_loop_failed statusUrl config completedStatuses
                      failedStatuses maxAttempts intervalMs remaining w v st
                      Hv Hst Hc Hf) as (err & msg & _ & _ & Hfail).
          eapply Hstop. exact Hfail. }
        rewrite (poll_loop_in_progress statusUrl config completedStatuses
                   failedStatuses maxAttempts intervalMs remaining w v Hv)
          by (exists st; auto).
        destruct (IH (advance w 1 [EFetch tick; ESleep intervalMs]))
          as (evs & Hsnd & Hall & Hlen & Hsl).
        exists (EFetch tick :: ESleep intervalMs :: evs).
        rewrite Hsnd, advance_advance. simpl.
        repeat split; auto; lia.
      * eapply Hstop. simpl. unfold bind at 1. rewrite Hrun.
        unfold bind, lift. rewrite Hst. reflexivity.
    + eapply Hstop. simpl. unfold bind at 1. rewrite Hrun. reflexivity.
Qed.

(** X3: whatever the backend answers, a poll issues at most [maxAttempts]
    network calls, each of them the status request, never sleeps more
    often than it calls, and every sleep lasts [intervalMs]. *)
Theorem poll_stays_within_budget (w : World) :
  exists evs,
    snd (poll w) = advance w (List.length (fetches evs)) evs
    /\ Forall (fun e => e = EFetch tick \/ e = ESleep intervalMs) evs
    /\ (List.length (fetches evs) <= Z.to_nat maxAttempts)%nat
    /\ (List.length (sleeps evs) <= List.length (fetches evs))%nat.
Proof. apply poll_loop_footprint. Qed.

(** X4: a status call that fails (rejected, non-2xx or unparseable) ends the
    poll at once with the request error: the poll does not retry it. *)
Theorem poll_gives_up_on_request_error (j : nat) (w : World) :
  (j < Z.to_nat maxAttempts)%nat ->
  waits_through w j ->
  snapshot_of (backend (calls w + j)) = None ->
  exists e,
    poll w = (Throw e,
              advance w (S j) (waiting_ticks tick intervalMs j ++ [EFetch tick]))
    /\ (forall m, e = ErrorObj m -> exists detail, m = "API request failed: " ++ detail).
Proof.
  intros Hj Hw Hnone. unfold pollForCompletion.
  replace (Z.to_nat maxAttempts) with (j + S (Z.to_nat maxAttempts - S j))%nat by lia.
  rewrite (poll_loop_waits statusUrl config completedStatuses failedStatuses
             maxAttempts intervalMs j _ w Hw).
  set (wj := advance w j (waiting_ticks tick intervalMs j)).
  destruct (makeApiRequest_cases statusUrl config no_options wj)
    as [(v & Hv & _)|(e & Hrun & _)].
  - unfold wj in Hv. simpl in Hv. congruence.
  - exists e. split.
    + simpl. unfold bind at 1. rewrite Hrun. unfold wj.
      rewrite advance_advance. now replace (j + 1)%nat with (S j) by lia.
    + intros m ->. apply (makeApiRequest_error_prefix statusUrl config no_options wj).
      now rewrite Hrun.
Qed.

(** X5: with no attempt allowed ([maxAttempts] zero or negative) the poll
    makes no call at all and times out at once. *)
Theorem poll_without_budget (w : World) :
  maxAttempts <= 0 ->
  poll w = (Throw (ErrorObj ("Operation timed out after "
                               ++ Js.number_to_string maxAttempts ++ " attempts")), w).
Proof.
  intros H. unfold pollForCompletion.
  now replace (Z.to_nat maxAttempts) with 0%nat by lia.
Qed.

(** X6: a snapshot that is JSON [null] ends the poll with the TypeError of
    reading its [status], thrown as it is: the poll neither retries nor
    wraps it. *)
Theorem poll_chokes_on_null_snapshot (j : nat) (w : World) :
  (j < Z.to_nat maxAttempts)%nat ->
  waits_through w j ->
  snapshot_of (backend (calls w + j)) = Some JNull ->
  exists e,
    Js.get JNull "status" = Throw e
    /\ poll w
       = (Throw e,
          advance w (S j) (waiting_ticks tick intervalMs j ++ [EFetch tick])).
Proof.
  intros Hj Hw Hnull. eexists. split; [reflexivity|].
  unfold pollForCompletion.
  replace (Z.to_nat maxAttempts) with (j + S (Z.to_nat maxAttempts - S j))%nat by lia.
  rewrite (poll_loop_waits statusUrl config completedStatuses failedStatuses
             maxAttempts intervalMs j _ w Hw).
  simpl. unfold bind at 1.
  rewrite (makeApiRequest_delivers statusUrl config no_options _ JNull)
    by exact Hnull.
  rewrite advance_advance. now replace (j + 1)%nat with (S j) by lia.
Qed.

End PollerAtLarge.

(** ** Further properties: the URL pattern *)

Lemma append_assoc_string (a b c : string) : (a ++ b) ++ c = a ++ (b ++ c).
Proof. induction a as [|x a IH]; simpl; [reflexivity | now rewrite IH]. Qed.

Lemma strip_prefix_cons (a b : ascii) (p s : string) :
  strip_prefix (String a p) (String b s)
  = if Ascii.eqb a b then strip_prefix p s else None.
Proof. reflexivity. Qed.

Lemma take_alnum_app (id after : string) :
  all_alnum id = true -> take_alnum (id ++ after) = id ++ take_alnum after.
Proof.
  unfold all_alnum. induction id as [|c id IH]; simpl; [reflexivity|].
  intros H. apply andb_true_iff in H as [Hc Hid]. rewrite Hc. f_equal. now apply IH.
Qed.

(** X7: the pattern matches exactly the URLs with a [/spaces/] segment, and
    what it extracts is a non-empty run of alphanumerics that stands in
    the URL right after [/spaces/]. *)
Theorem regex_match_finds_the_segment (url : string) :
  (regex_match url = None <-> ~ contains_space_segment url)
  /\ (forall id,
        regex_match url = Some id ->
        id <> "" /\ all_alnum id = true
        /\ exists before after, url = before ++ "/spaces/" ++ id ++ after).
Proof.
  split; [split|].
  - apply no_match_no_segment.
  - apply regex_match_none.
  - intros id Hm. destruct (regex_match_sound _ _ Hm) as (before & after & ? & ? & ?).
    repeat split; eauto.
Qed.

(** X8: round trip: from a URL made of a prefix without [/s], then [/spaces/],
    an identifier and a rest that does not go on with an alphanumeric,
    the pattern gives the identifier back, whole. *)
Theorem regex_match_round_trip (before id after : string) :
  id <> "" ->
  all_alnum id = true ->
  take_alnum after = "" ->
  (forall x y, before <> x ++ "/s" ++ y) ->
  regex_match (before ++ "/spaces/" ++ id ++ after) = Some id.
Proof.
  intros Hne Hall Hafter. induction before as [|c before IH]; intros Hfree.
  - rewrite regex_match_unfold. unfold match_here.
    change ("" ++ ?x) with x. rewrite strip_prefix_complete.
    rewrite (take_alnum_app id after Hall), Hafter.
    replace (id ++ "") with id by (clear; induction id; simpl; congruence).
    destruct id; [congruence|reflexivity].
  - rewrite regex_match_unfold.
    assert (Hhere : match_here (String c before ++ "/spaces/" ++ id ++ after) = None).
    { unfold match_here. cbn [append]. rewrite strip_prefix_cons.
      destruct (Ascii.eqb_spec "/" c) as [<-|]; [|reflexivity].
      destruct before as [|d before]; cbn [append]; rewrite strip_prefix_cons.
      - reflexivity.
      - destruct (Ascii.eqb_spec "s" d) as [<-|]; [|reflexivity].
        now elim (Hfree "" before). }
    rewrite Hhere. cbn [append]. apply IH.
    intros x y ->. now apply (Hfree (String c x) y).
Qed.

(** ** Further properties: the JSON-RPC front *)

(** X9: the [switch] of [handleCallTool] serves exactly the names [TOOLS]
    declares. *)
Theorem switch_serves_the_declared_tools (name : jsval) :
  tool_of_name name <> None <-> In name declared_tool_names.
Proof.
  split.
  - destruct name as [| |b|n|m|items|fields]; simpl; try congruence.
    repeat match goal with
           | |- context [String.eqb m ?lit] =>
               destruct (String.eqb_spec m lit) as [->|_]; [intros _; auto 10|]
           end.
    congruence.
  - intros Hin Hnone. simpl in Hin.
    repeat destruct Hin as [<-|Hin]; try discriminate Hnone. exact Hin.
Qed.

Lemma handleCallTool_without_params params config w :
  nullish params = true ->
  exists e, handleCallTool params config w = (Throw e, w)
            /\ destructure params "name" "params" = Throw e.
Proof.
  intros Hn. destruct params; try discriminate Hn; eexists; split; reflexivity.
Qed.

Lemma handleCallTool_returns params config w :
  nullish params = false ->
  exists text w', handleCallTool params config w = (Return (text_result text), w').
Proof.
  intros Hp.
  destruct (get_total params "name" Hp) as [name Hname].
  destruct (get_total params "arguments" Hp) as [arguments Hargs].
  rewrite (handleCallTool_caught _ _ _ _ _ Hname Hargs).
  apply caught_total, tool_switch_text.
Qed.

(** X10: every request object gets an envelope: it echoes the request's [id],
    carries either a result or an error and never both, and its error
    code, if any, is -32601 or -32603. *)
Theorem handleMcpRequest_envelope (request : jsval) (config : Config) (w : World) :
  nullish request = false ->
  exists response w',
    handleMcpRequest request config w = (Return response, w')
    /\ Js.get request "id" = Return (rpc_id response)
    /\ (rpc_result response = None <-> rpc_error response <> None)
    /\ (forall e, rpc_error response = Some e -> code e = -32601 \/ code e = -32603).
Proof.
  intros Hn.
  destruct (get_total request "method" Hn) as [method Hm].
  destruct (get_total request "id" Hn) as [id Hid].
  destruct (get_total request "params" Hn) as [params Hp].
  enough (exists response w',
             handleMcpRequest request config w = (Return response, w')
             /\ rpc_id response = id
             /\ (rpc_result response = None <-> rpc_error response <> None)
             /\ (forall e, rpc_error response = Some e ->
                           code e = -32601 \/ code e = -32603))
    as (response & w' & H1 & H2 & H3 & H4).
  { exists response, w'. rewrite Hid, H2. auto. }
  assert (Hdone : forall (response : JsonRpcResponse) (w' : World),
             rpc_id response = id ->
             (rpc_result response = None <-> rpc_error response <> None) ->
             (forall e, rpc_error response = Some e ->
                        code e = -32601 \/ code e = -32603) ->
             exists response0 w0,
               (Return response, w') = (Return response0, w0)
               /\ rpc_id response0 = id
               /\ (rpc_result response0 = None <-> rpc_error response0 <> None)
               /\ (forall e, rpc_error response0 = Some e ->
                             code e = -32601 \/ code e = -32603)).
  { intros response w' H0 H1 H2. now exists response, w'. }
  unfold handleMcpRequest, try_catch. unfold bind at 1, lift at 1. rewrite Hm.
  destruct (method_of_name method) as [[| |]|].
  - unfold handleInitialize, bind, lift, ret. rewrite Hp, Hid.
    apply Hdone; simpl; [reflexivity | split; congruence | discriminate].
  - unfold handleListTools, bind, lift, ret. rewrite Hid.
    apply Hdone; simpl; [reflexivity | split; congruence | discriminate].
  - unfold bind at 1, lift at 1. rewrite Hp. unfold bind at 1.
    destruct (nullish params) eqn:Hnp.
    + destruct (handleCallTool_without_params params config w Hnp) as (e & -> & _).
      unfold bind, lift, ret. rewrite Hid.
      apply Hdone; simpl; [reflexivity | split; congruence |].
      intros e0 [= <-]. now right.
    + destruct (handleCallTool_returns params config w Hnp) as (text & w' & ->).
      unfold bind, lift, ret. rewrite Hid.
      apply Hdone; simpl; [reflexivity | split; congruence | discriminate].
  - unfold render, bind, lift, ret. rewrite Hid.
    destruct (Js.to_string method) as [shown|e]; rewrite ?Hid.
    + apply Hdone; simpl; [reflexivity | split; congruence |].
      intros e [= <-]. now left.
    + apply Hdone; simpl; [reflexivity | split; congruence |].
      intros e0 [= <-]. now right.
Qed.

(** X11: discovery needs no backend: [initialize] and [tools/list] answer
    without a network call, and the same for every configuration. *)
Theorem discovery_is_offline (request id : jsval) (config : Config) (w : World) :
  Js.get request "id" = Return id ->
  (Js.get request "method" = Return (JStr "initialize") ->
   handleMcpRequest request config w
   = (Return {| rpc_id := id;
                rpc_result :=
                  Some (JObj [("protocolVersion", JStr "2024-11-05");
                              ("capabilities", SERVER_CAPABILITIES);
                              ("serverInfo", SERVER_INFO)]);
                rpc_error := None |}, w))
  /\ (Js.get request "method" = Return (JStr "tools/list") ->
      handleMcpRequest request config w
      = (Return {| rpc_id := id;
                   rpc_result := Some (JObj [("tools", TOOLS)]);
                   rpc_error := None |}, w)).
Proof.
  intros Hid.
  destruct (get_total request "params" (get_not_nullish _ _ _ Hid)) as [params Hp].
  split; intros Hm;
    unfold handleMcpRequest, try_catch; unfold bind at 1, lift at 1; rewrite Hm.
  - change (method_of_name (JStr "initialize")) with (Some Initialize). cbv iota.
    unfold handleInitialize, bind, lift, ret. now rewrite Hp, Hid.
  - change (method_of_name (JStr "tools/list")) with (Some ToolsList). cbv iota.
    unfold handleListTools, bind, lift, ret. now rewrite Hid.
Qed.

(** X12: a [tools/call] whose [params] are missing or [null] reaches no tool:
    it is answered with the internal-error code -32603 and the message of
    the TypeError, without a network call. *)
Theorem tools_call_needs_params
    (request id params : jsval) (config : Config) (w : World) :
  Js.get request "id" = Return id ->
  Js.get request "method" = Return (JStr "tools/call") ->
  Js.get request "params" = Return params ->
  nullish params = true ->
  exists e,
    destructure params "name" "params" = Throw e
    /\ handleMcpRequest request config w
       = (Return {| rpc_id := id;
                    rpc_result := None;
                    rpc_error := Some {| code := -32603;
                                         message := error_text e |} |}, w).
Proof.
  intros Hid Hm Hp Hn.
  destruct (handleCallTool_without_params params config w Hn) as (e & Hrun & He).
  exists e. split; [exact He|].
  unfold handleMcpRequest, try_catch. unfold bind at 1, lift at 1. rewrite Hm.
  change (method_of_name (JStr "tools/call")) with (Some ToolsCall). cbv iota.
  unfold bind at 1, lift at 1. rewrite Hp. unfold bind at 1. rewrite Hrun.
  unfold bind, lift, ret. rewrite Hid.
  destruct params; try discriminate Hn; simpl in He; injection He as <-; reflexivity.
Qed.

(** ** Further properties: the tools *)

(** Stepping through a body: a step known to return hands its value to
    the rest of the body. *)
Lemma bind_return {A B : Type} (m : M A) (k : A -> M B) (w w' : World) (a : A) :
  m w = (Return a, w') -> bind m k w = k a w'.
Proof. intros H. unfold bind. now rewrite H. Qed.

Lemma bind_throw {A B : Type} (m : M A) (k : A -> M B) (w w' : World) (e : thrown) :
  m w = (Throw e, w') -> bind m k w = (Throw e, w').
Proof. intros H. unfold bind. now rewrite H. Qed.

Lemma bind_lift {A B : Type} (o : outcome A) (k : A -> M B) (w : World) (a : A) :
  o = Return a -> bind (lift o) k w = k a w.
Proof. now intros ->. Qed.

Lemma bind_render {B : Type} (v : jsval) (k : string -> M B) (w : World) (s : string) :
  Js.to_string v = Return s -> bind (render v) k w = k s w.
Proof. intros H. unfold render, bind, lift. now rewrite H. Qed.

Lemma bind_render_throw {B : Type} (v : jsval) (k : string -> M B) (w : World)
    (e : thrown) :
  Js.to_string v = Throw e -> bind (render v) k w = (Throw e, w).
Proof. intros H. unfold render, bind, lift. now rewrite H. Qed.

(** Run the reads and renderings whose results the context knows. *)
Ltac evaluate :=
  repeat (cbv beta zeta;
          match goal with
          | H : Js.to_string ?v = Return ?s |- context [bind (render ?v) ?k ?w] =>
              rewrite (bind_render v k w s H)
          | H : ?o = Return ?a |- context [bind (lift ?o) ?k ?w] =>
              rewrite (bind_lift o k w a H)
          end).

(** The same once no network call is left: unfold the monad and follow
    the known results. *)
Ltac follow :=
  unfold render, info_line, bind, lift, ret, throw;
  repeat (cbv beta iota;
          match goal with
          | H : ?o = Return _ |- context [match ?o with _ => _ end] => rewrite H
          | H : ?o = Throw _ |- context [match ?o with _ => _ end] => rewrite H
          | H : ?b = true |- context [if ?b then _ else _] => rewrite H
          | H : ?b = false |- context [if ?b then _ else _] => rewrite H
          end);
  cbv beta iota.

(** Split on whatever a run without network calls inspects next. *)
Ltac case_on_goal :=
  match goal with
  | |- context [Js.truthy ?v] => destruct (Js.truthy v) eqn:?
  | |- context [Js.get ?v ?k] => destruct (Js.get v k) eqn:?
  | |- context [Js.to_string ?v] => destruct (Js.to_string v) eqn:?
  | |- context [megabytes_toFixed2 ?v] => destruct (megabytes_toFixed2 v) eqn:?
  end.

Ltac settle_pure :=
  unfold render, info_line, bind, lift, ret, throw;
  repeat (cbv beta iota; first [ reflexivity | case_on_goal ]);
  try reflexivity.

(** The start request of a download. *)
Notation download_start space_url config :=
  (api_request (apiUrl config ++ "/api/download") config
     {| init_method := Some "POST";
        init_body := Some (JObj [("space_url", space_url)]) |}).

(** The start request of a transcription. *)
Notation transcribe_start space_id config :=
  (api_request (apiUrl config ++ "/api/transcribe") config
     {| init_method := Some "POST";
        init_body := Some (JObj [("space_id", space_id)]) |}).

(** What a download reports once it is started. *)
Notation started_report shown_url shown_id shown_status shown_message :=
  ("Started download for " ++ shown_url ++ nl
   ++ "Download ID: " ++ shown_id ++ nl
   ++ "Status: " ++ shown_status ++ nl
   ++ "Message: " ++ shown_message ++ nl ++ nl).

(** X16: with [wait_for_completion] given and falsy ([false], but also [null],
    0 or an empty string) a download is one start call and no poll,
    whatever the backend answers; when the URL and the three fields of
    the answer render as text, the result reports the handle and the
    initial status. *)
Theorem download_without_waiting
    (g : Glyphs) (args space_url wait started : jsval) (config : Config) (w : World) :
  Js.get args "space_url" = Return space_url ->
  Js.get args "wait_for_completion" = Return wait ->
  wait <> JUndefined ->
  Js.truthy wait = false ->
  snapshot_of (backend (calls w)) = Some started ->
  let w' := advance w 1 [EFetch (download_start space_url config)] in
  snd (tool_body g DownloadTwitterSpace args "args" config w) = w'
  /\ (forall download_id status message shown_url shown_id shown_status shown_message,
        Js.to_string space_url = Return shown_url ->
        Js.get started "download_id" = Return download_id ->
        Js.to_string download_id = Return shown_id ->
        Js.get started "status" = Return status ->
        Js.to_string status = Return shown_status ->
        Js.get started "message" = Return message ->
        Js.to_string message = Return shown_message ->
        tool_body g DownloadTwitterSpace args "args" config w
        = (Return (text_result
                     (started_report shown_url shown_id shown_status shown_message)),
           w')).
Proof.
  intros Hurl Hwait Hdef Hfalsy Hv w'.
  pose proof (get_not_nullish _ _ _ Hurl) as Ha.
  unfold tool_body. rewrite !(destructure_get _ _ _ Ha). evaluate.
  replace (default_to (JBool true) wait) with wait by (destruct wait; simpl; congruence).
  unfold download_twitter_space_body.
  rewrite (bind_return _ _ _ _ _ (makeApiRequest_delivers _ _ _ _ _ Hv)).
  rewrite Hfalsy. fold w'. split.
  - settle_pure.
  - intros download_id status message shown_url shown_id shown_status shown_message
           Hsu Hid Hsid Hst Hsst Hmsg Hsmsg.
    evaluate. reflexivity.
Qed.

(** X17: with [wait_for_completion] left out (or truthy) a download is the
    start call followed by the poll of [/api/status/<handle>], the handle
    being the one the start call returned: when the k-th status, k at
    most 60, is the first completed one, the tool ends after 1 + k calls
    and k - 1 sleeps of 5000 ms, and, the fields of the final snapshot
    rendering as text, returns the report of the completed download. *)
Theorem download_waits_for_completion
    (g : Glyphs) (args space_url wait started download_id status message final : jsval)
    (shown_url shown_id shown_status shown_message : string)
    (config : Config) (k : nat) (w : World) :
  Js.get args "space_url" = Return space_url ->
  Js.get args "wait_for_completion" = Return wait ->
  Js.truthy (default_to (JBool true) wait) = true ->
  snapshot_of (backend (calls w)) = Some started ->
  Js.to_string space_url = Return shown_url ->
  Js.get started "download_id" = Return download_id ->
  Js.to_string download_id = Return shown_id ->
  Js.get started "status" = Return status ->
  Js.to_string status = Return shown_status ->
  Js.get started "message" = Return message ->
  Js.to_string message = Return shown_message ->
  (1 <= k <= 60)%nat ->
  (forall i, (i < k - 1)%nat ->
     exists v, snapshot_of (backend (calls w + 1 + i)) = Some v
               /\ in_progress ["completed"] ["failed"] v) ->
  snapshot_of (backend (calls w + 1 + (k - 1))) = Some final ->
  status_in ["completed"] final ->
  let status_call :=
    status_request (apiUrl config ++ "/api/status/" ++ shown_id) config in
  let evs := ([EFetch (download_start space_url config)]
              ++ waiting_ticks status_call 5000 (k - 1)
              ++ [EFetch status_call])%list in
  snd (tool_body g DownloadTwitterSpace args "args" config w) = advance w (1 + k) evs
  /\ sleeps evs = repeat 5000 (k - 1)
  /\ (forall space_id filename r2_url final_message
             shown_space shown_filename shown_r2 shown_final,
        Js.get final "space_id" = Return space_id ->
        Js.to_string space_id = Return shown_space ->
        Js.get final "filename" = Return filename ->
        Js.to_string filename = Return shown_filename ->
        Js.get final "r2_url" = Return r2_url ->
        (Js.truthy r2_url = true -> Js.to_string r2_url = Return shown_r2) ->
        Js.get final "message" = Return final_message ->
        Js.to_string final_message = Return shown_final ->
        tool_body g DownloadTwitterSpace args "args" config w
        = (Return (text_result
                     ((started_report shown_url shown_id shown_status shown_message
                       ++ "Waiting for download to complete..." ++ nl ++ nl)
                      ++ check_mark g ++ " Download completed!" ++ nl
                      ++ "Space ID: " ++ shown_space ++ nl
                      ++ "Filename: " ++ shown_filename ++ nl
                      ++ (if Js.truthy r2_url then "R2 URL: " ++ shown_r2 ++ nl else "")
                      ++ "Final Message: " ++ shown_final ++ nl)),
           advance w (1 + k) evs)).
Proof.
  intros Hurl Hwait Htruthy Hv Hsu Hid Hsid Hst Hsst Hmsg Hsmsg Hk Hticks Hfinal
         Hdone status_call evs.
  pose proof (get_not_nullish _ _ _ Hurl) as Ha.
  assert (Hpoll : pollForCompletion (apiUrl config ++ "/api/status/" ++ shown_id)
                    config default_completed default_failed default_maxAttempts
                    default_intervalMs
                    (advance w 1 [EFetch (download_start space_url config)])
                  = (Return final,
                     advance (advance w 1 [EFetch (download_start space_url config)]) k
                             (waiting_ticks status_call 5000 (k - 1)
                              ++ [EFetch status_call]))).
  { apply poll_completes_at.
    - lia.
    - unfold default_maxAttempts. lia.
    - intros i Hi. exact (Hticks i Hi).
    - exact Hfinal.
    - exact Hdone. }
  rewrite advance_advance in Hpoll.
  unfold tool_body. rewrite !(destructure_get _ _ _ Ha). evaluate.
  unfold download_twitter_space_body.
  rewrite (bind_return _ _ _ _ _ (makeApiRequest_delivers _ _ _ _ _ Hv)).
  rewrite Htruthy. evaluate.
  rewrite (bind_return _ _ _ _ _ Hpoll). cbv beta.
  split; [|split].
  - settle_pure.
  - unfold evs. simpl. rewrite sleeps_app, sleeps_waiting_ticks. simpl.
    apply app_nil_r.
  - intros space_id filename r2_url final_message
           shown_space shown_filename shown_r2 shown_final
           Hsp Hssp Hfile Hsfile Hr2 Hsr2 Hfm Hsfm.
    evaluate. destruct (Js.truthy r2_url) eqn:Htr2.
    + specialize (Hsr2 eq_refl). follow. reflexivity.
    + follow. reflexivity.
Qed.

(** X24: the download poll has a budget of 60 status calls, 5000 ms apart:
    a download whose first 60 statuses are all in progress ends with the
    error [Operation timed out after 60 attempts], after the start call,
    60 status calls and 60 sleeps; no 61st status is asked for. *)
Theorem download_gives_up_after_its_budget
    (g : Glyphs) (args space_url wait started download_id status message : jsval)
    (shown_url shown_id shown_status shown_message : string)
    (config : Config) (w : World) :
  Js.get args "space_url" = Return space_url ->
  Js.get args "wait_for_completion" = Return wait ->
  Js.truthy (default_to (JBool true) wait) = true ->
  snapshot_of (backend (calls w)) = Some started ->
  Js.to_string space_url = Return shown_url ->
  Js.get started "download_id" = Return download_id ->
  Js.to_string download_id = Return shown_id ->
  Js.get started "status" = Return status ->
  Js.to_string status = Return shown_status ->
  Js.get started "message" = Return message ->
  Js.to_string message = Return shown_message ->
  (forall i, (i < 60)%nat ->
     exists v, snapshot_of (backend (calls w + 1 + i)) = Some v
               /\ in_progress ["completed"] ["failed"] v) ->
  let status_call :=
    status_request (apiUrl config ++ "/api/status/" ++ shown_id) config in
  let evs := ([EFetch (download_start space_url config)]
              ++ waiting_ticks status_call 5000 60)%list in
  tool_body g DownloadTwitterSpace args "args" config w
  = (Throw (ErrorObj "Operation timed out after 60 attempts"), advance w 61 evs)
  /\ List.length (fetches evs) = 61%nat
  /\ sleeps evs = repeat 5000 60.
Proof.
  intros Hurl Hwait Htruthy Hv Hsu Hid Hsid Hst Hsst Hmsg Hsmsg Hticks status_call evs.
  pose proof (get_not_nullish _ _ _ Hurl) as Ha.
  assert (Hpoll : pollForCompletion (apiUrl config ++ "/api/status/" ++ shown_id)
                    config default_completed default_failed default_maxAttempts
                    default_intervalMs
                    (advance w 1 [EFetch (download_start space_url config)])
                  = (Throw (ErrorObj "Operation timed out after 60 attempts"),
                     advance (advance w 1 [EFetch (download_start space_url config)]) 60
                             (waiting_ticks status_call 5000 60))).
  { apply (poll_exhausts (apiUrl config ++ "/api/status/" ++ shown_id) config
             default_completed default_failed default_maxAttempts default_intervalMs).
    intros i Hi. apply Hticks. exact Hi. }
  rewrite advance_advance in Hpoll.
  split; [|split].
  - unfold tool_body. rewrite !(destructure_get _ _ _ Ha). evaluate.
    unfold download_twitter_space_body.
    rewrite (bind_return _ _ _ _ _ (makeApiRequest_delivers _ _ _ _ _ Hv)).
    rewrite Htruthy. evaluate.
    rewrite (bind_throw _ _ _ _ _ Hpoll). reflexivity.
  - unfold evs. rewrite fetches_app, fetches_waiting_ticks, length_app, repeat_length.
    reflexivity.
  - unfold evs. rewrite sleeps_app, sleeps_waiting_ticks. reflexivity.
Qed.

(** X25: the transcription poll has a budget of its own, 120 status calls,
    10000 ms apart, at [/api/transcription/status/<handle>]: a
    transcription whose first 120 statuses are all in progress ends with
    the error [Operation timed out after 120 attempts], after the start
    call, 120 status calls and 120 sleeps. *)
Theorem transcription_gives_up_after_its_budget
    (g : Glyphs) (args space_id wait started transcription_id status message : jsval)
    (shown_space shown_id shown_status shown_message : string)
    (config : Config) (w : World) :
  Js.get args "space_id" = Return space_id ->
  Js.get args "wait_for_completion" = Return wait ->
  Js.truthy (default_to (JBool true) wait) = true ->
  snapshot_of (backend (calls w)) = Some started ->
  Js.to_string space_id = Return shown_space ->
  Js.get started "transcription_id" = Return transcription_id ->
  Js.to_string transcription_id = Return shown_id ->
  Js.get started "status" = Return status ->
  Js.to_string status = Return shown_status ->
  Js.get started "message" = Return message ->
  Js.to_string message = Return shown_message ->
  (forall i, (i < 120)%nat ->
     exists v, snapshot_of (backend (calls w + 1 + i)) = Some v
               /\ in_progress ["completed"] ["failed"] v) ->
  let status_call :=
    status_request (apiUrl config ++ "/api/transcription/status/" ++ shown_id)
                   config in
  let evs := ([EFetch (transcribe_start space_id config)]
              ++ waiting_ticks status_call 10000 120)%list in
  tool_body g TranscribeSpace args "args" config w
  = (Throw (ErrorObj "Operation timed out after 120 attempts"), advance w 121 evs)
  /\ List.length (fetches evs) = 121%nat
  /\ sleeps evs = repeat 10000 120.
Proof.
  intros Hsp Hwait Htruthy Hv Hssp Hid Hsid Hst Hsst Hmsg Hsmsg Hticks status_call evs.
  pose proof (get_not_nullish _ _ _ Hsp) as Ha.
  assert (Hpoll : pollForCompletion
                    (apiUrl config ++ "/api/transcription/status/" ++ shown_id)
                    config ["completed"] ["failed"] 120 10000
                    (advance w 1 [EFetch (transcribe_start space_id config)])
                  = (Throw (ErrorObj "Operation timed out after 120 attempts"),
                     advance (advance w 1 [EFetch (transcribe_start space_id config)])
                             120 (waiting_ticks status_call 10000 120))).
  { apply (poll_exhausts (apiUrl config ++ "/api/transcription/status/" ++ shown_id)
             config ["completed"] ["failed"] 120 10000).
    intros i Hi. apply Hticks. exact Hi. }
  rewrite advance_advance in Hpoll.
  split; [|split].
  - unfold tool_body. rewrite !(destructure_get _ _ _ Ha). evaluate.
    unfold transcribe_space_body.
    rewrite (bind_return _ _ _ _ _ (makeApiRequest_delivers _ _ _ _ _ Hv)).
    rewrite Htruthy. evaluate.
    rewrite (bind_throw _ _ _ _ _ Hpoll). reflexivity.
  - unfold evs. rewrite fetches_app, fetches_waiting_ticks, length_app, repeat_length.
    reflexivity.
  - unfold evs. rewrite sleeps_app, sleeps_waiting_ticks. reflexivity.
Qed.

(** *** The combined workflow *)

(** The availability request of the workflow. *)
Notation availability_check id config :=
  (api_request (apiUrl config ++ "/api/check-space/" ++ id) config no_options).

(** From the entry of the workflow to its download poll: the URL is
    rendered, the identifier extracted, the space found available and
    the download started. *)
Ltac enter_workflow Hv Htruthy Hv1 :=
  unfold download_and_transcribe_space_body;
  evaluate;
  rewrite (bind_return _ _ _ _ _ (makeApiRequest_delivers _ _ _ _ _ Hv));
  evaluate; rewrite Htruthy; cbv beta iota zeta delta [negb];
  rewrite (bind_return _ _ _ _ _
             (makeApiRequest_delivers _ _ _ (advance _ 1 _) _ Hv1));
  evaluate; rewrite advance_advance; cbn [Nat.add app].

Lemma fetches_poll_run (r : request) (ms : Z) (k : nat) :
  (1 <= k)%nat -> fetches (waiting_ticks r ms (k - 1) ++ [EFetch r]) = repeat r k.
Proof.
  intros Hk. rewrite fetches_app, fetches_waiting_ticks.
  replace k with (k - 1 + 1)%nat at 2 by lia. now rewrite repeat_app.
Qed.

Lemma sleeps_poll_run (r : request) (ms : Z) (k : nat) :
  sleeps (waiting_ticks r ms (k - 1) ++ [EFetch r]) = repeat ms (k - 1).
Proof. rewrite sleeps_app, sleeps_waiting_ticks. apply app_nil_r. Qed.

Lemma extract_space_id_of_match (url id : string) :
  regex_match url = Some id -> extract_space_id (JStr url) = Return id.
Proof. intros H. unfold extract_space_id. now rewrite H. Qed.

(** X18: the combined workflow, when every stage succeeds: one availability
    check, the download start, the download poll (5000 ms between
    statuses), the transcription start and the transcription poll
    (10000 ms between statuses), in that order and nothing else.  The
    transcription is started for the [space_id] of the final download
    snapshot, not for the identifier taken from the URL.  The result
    reports every stage; the handles, the filename and the [space_id] are
    rendered into it and must render as text. *)
Theorem workflow_runs_its_stages_in_order
    (g : Glyphs) (url id : string)
    (availability started download_id downloaded filename space_id
       transcribing transcription_id transcribed : jsval)
    (shown_id shown_filename shown_tid shown_space : string)
    (config : Config) (k1 k2 : nat) (w : World) :
  regex_match url = Some id ->
  snapshot_of (backend (calls w)) = Some availability ->
  (exists available, Js.get availability "available" = Return available
                     /\ Js.truthy available = true) ->
  snapshot_of (backend (calls w + 1)) = Some started ->
  Js.get started "download_id" = Return download_id ->
  Js.to_string download_id = Return shown_id ->
  (1 <= k1 <= 60)%nat ->
  (forall i, (i < k1 - 1)%nat ->
     exists v, snapshot_of (backend (calls w + 2 + i)) = Some v
               /\ in_progress ["completed"] ["failed"] v) ->
  snapshot_of (backend (calls w + 2 + (k1 - 1))) = Some downloaded ->
  status_in ["completed"] downloaded ->
  Js.get downloaded "filename" = Return filename ->
  Js.to_string filename = Return shown_filename ->
  Js.get downloaded "space_id" = Return space_id ->
  Js.to_string space_id = Return shown_space ->
  snapshot_of (backend (calls w + 2 + k1)) = Some transcribing ->
  Js.get transcribing "transcription_id" = Return transcription_id ->
  Js.to_string transcription_id = Return shown_tid ->
  (1 <= k2 <= 120)%nat ->
  (forall i, (i < k2 - 1)%nat ->
     exists v, snapshot_of (backend (calls w + 2 + k1 + 1 + i)) = Some v
               /\ in_progress ["completed"] ["failed"] v) ->
  snapshot_of (backend (calls w + 2 + k1 + 1 + (k2 - 1))) = Some transcribed ->
  status_in ["completed"] transcribed ->
  let download_status :=
    status_request (apiUrl config ++ "/api/status/" ++ shown_id) config in
  let transcription_status :=
    status_request (apiUrl config ++ "/api/transcription/status/" ++ shown_tid)
                   config in
  let evs :=
    ([EFetch (availability_check id config);
      EFetch (download_start (JStr url) config)]
     ++ (waiting_ticks download_status 5000 (k1 - 1) ++ [EFetch download_status])
     ++ [EFetch (transcribe_start space_id config)]
     ++ (waiting_ticks transcription_status 10000 (k2 - 1)
         ++ [EFetch transcription_status]))%list in
  download_and_transcribe_space_body g (JStr url) config w
  = (Return (text_result
               ("Starting complete process for " ++ url ++ nl ++ nl
                ++ "1. Checking space availability..." ++ nl
                ++ "   " ++ check_mark g ++ " Space is available" ++ nl ++ nl
                ++ "2. Starting download..." ++ nl
                ++ "   Download ID: " ++ shown_id ++ nl
                ++ "   " ++ check_mark g ++ " Download completed" ++ nl
                ++ "   Filename: " ++ shown_filename ++ nl ++ nl
                ++ "3. Starting transcription..." ++ nl
                ++ "   Transcription ID: " ++ shown_tid ++ nl
                ++ "   " ++ check_mark g ++ " Transcription completed" ++ nl ++ nl
                ++ party_popper g ++ " Complete! Space " ++ shown_space
                ++ " has been downloaded and transcribed." ++ nl
                ++ "Use the 'get_transcript' tool with space_id="
                ++ String "034"%char "" ++ shown_space ++ String "034"%char ""
                ++ " to view the transcript.")),
     advance w (2 + k1 + 1 + k2) evs)
  /\ fetches evs
     = ([availability_check id config; download_start (JStr url) config]
        ++ repeat download_status k1
        ++ [transcribe_start space_id config]
        ++ repeat transcription_status k2)%list
  /\ sleeps evs = (repeat 5000 (k1 - 1) ++ repeat 10000 (k2 - 1))%list.
Proof.
  intros Hid Hv (available & Hav & Htruthy) Hv1 Hdid Hsdid Hk1 Hticks1 Hdl Hdone1
         Hfile Hsfile Hsid Hssid Htr Htid Hstid Hk2 Hticks2 Hfin Hdone2
         download_status transcription_status evs.
  pose proof (extract_space_id_of_match url id Hid) as Hx.
  assert (Hr : Js.to_string (JStr url) = Return url) by reflexivity.
  assert (Hb1 : Z.of_nat k1 <= default_maxAttempts)
    by (unfold default_maxAttempts; lia).
  assert (Hb2 : Z.of_nat k2 <= 120) by lia.
  split; [|split].
  - enter_workflow Hv Htruthy Hv1.
    rewrite (bind_return _ _ _ _ _
               (poll_completes_at _ config default_completed default_failed
                  default_maxAttempts default_intervalMs k1
                  (advance w 2 [EFetch (availability_check id config);
                                EFetch (download_start (JStr url) config)])
                  downloaded (proj1 Hk1) Hb1 Hticks1 Hdl Hdone1)).
    evaluate.
    match goal with
    | |- context [bind (makeApiRequest _ _ _) _ ?w2] =>
        rewrite (bind_return _ _ _ _ _ (makeApiRequest_delivers _ _ _ w2 _ Htr))
    end.
    evaluate.
    match goal with
    | |- context [bind (pollForCompletion _ _ _ _ _ _) _ ?w3] =>
        rewrite (bind_return _ _ _ _ _
                   (poll_completes_at _ config ["completed"] ["failed"] 120 10000
                      k2 w3 transcribed (proj1 Hk2) Hb2 Hticks2 Hfin Hdone2))
    end.
    evaluate. unfold ret.
    rewrite !advance_advance. unfold evs.
    f_equal; [do 2 f_equal; rewrite !append_assoc_string; reflexivity|].
    f_equal; try reflexivity; lia.
  - unfold evs.
    change ([EFetch (availability_check id config);
             EFetch (download_start (JStr url) config)] ++ ?l)%list
      with (EFetch (availability_check id config)
              :: EFetch (download_start (JStr url) config) :: l).
    cbn [fetches]. rewrite fetches_app, (fetches_poll_run _ _ k1 (proj1 Hk1)).
    cbn [app fetches]. now rewrite (fetches_poll_run _ _ k2 (proj1 Hk2)).
  - unfold evs.
    change ([EFetch (availability_check id config);
             EFetch (download_start (JStr url) config)] ++ ?l)%list
      with (EFetch (availability_check id config)
              :: EFetch (download_start (JStr url) config) :: l).
    cbn [sleeps]. rewrite sleeps_app, sleeps_poll_run.
    cbn [app sleeps]. now rewrite sleeps_poll_run.
Qed.

(** X26: the download poll of the workflow has the budget of 60 status
    calls: when the first 60 statuses of the download are all in
    progress, the workflow ends with the error [Operation timed out after
    60 attempts] after the availability check, the download start and 60
    status calls; no transcription is started. *)
Theorem workflow_gives_up_on_slow_download
    (g : Glyphs) (url id : string) (availability started download_id : jsval)
    (shown_id : string) (config : Config) (w : World) :
  regex_match url = Some id ->
  snapshot_of (backend (calls w)) = Some availability ->
  (exists available, Js.get availability "available" = Return available
                     /\ Js.truthy available = true) ->
  snapshot_of (backend (calls w + 1)) = Some started ->
  Js.get started "download_id" = Return download_id ->
  Js.to_string download_id = Return shown_id ->
  (forall i, (i < 60)%nat ->
     exists v, snapshot_of (backend (calls w + 2 + i)) = Some v
               /\ in_progress ["completed"] ["failed"] v) ->
  let download_status :=
    status_request (apiUrl config ++ "/api/status/" ++ shown_id) config in
  let evs :=
    ([EFetch (availability_check id config);
      EFetch (download_start (JStr url) config)]
     ++ waiting_ticks download_status 5000 60)%list in
  download_and_transcribe_space_body g (JStr url) config w
  = (Throw (ErrorObj "Operation timed out after 60 attempts"), advance w 62 evs)
  /\ fetches evs
     = ([availability_check id config; download_start (JStr url) config]
        ++ repeat download_status 60)%list.
Proof.
  intros Hid Hv (available & Hav & Htruthy) Hv1 Hdid Hsdid Hticks download_status evs.
  pose proof (extract_space_id_of_match url id Hid) as Hx.
  assert (Hr : Js.to_string (JStr url) = Return url) by reflexivity.
  split.
  - enter_workflow Hv Htruthy Hv1.
    rewrite (bind_throw _ _ _ _ _
               (poll_exhausts _ config default_completed default_failed
                  default_maxAttempts default_intervalMs
                  (advance w 2 [EFetch (availability_check id config);
                                EFetch (download_start (JStr url) config)])
                  Hticks)).
    rewrite advance_advance. reflexivity.
  - unfold evs.
    change ([EFetch (availability_check id config);
             EFetch (download_start (JStr url) config)] ++ ?l)%list
      with (EFetch (availability_check id config)
              :: EFetch (download_start (JStr url) config) :: l).
    cbn [fetches]. now rewrite fetches_waiting_ticks.
Qed.

(** X27: the transcription poll of the workflow has the budget of 120 status
    calls: when the download completed at its k-th status and the first
    120 statuses of the transcription are all in progress, the workflow
    ends with the error [Operation timed out after 120 attempts] after
    2 + k + 1 + 120 calls. *)
Theorem workflow_gives_up_on_slow_transcription
    (g : Glyphs) (url id : string)
    (availability started download_id downloaded filename space_id
       transcribing transcription_id : jsval)
    (shown_id shown_filename shown_tid : string)
    (config : Config) (k : nat) (w : World) :
  regex_match url = Some id ->
  snapshot_of (backend (calls w)) = Some availability ->
  (exists available, Js.get availability "available" = Return available
                     /\ Js.truthy available = true) ->
  snapshot_of (backend (calls w + 1)) = Some started ->
  Js.get started "download_id" = Return download_id ->
  Js.to_string download_id = Return shown_id ->
  (1 <= k <= 60)%nat ->
  (forall i, (i < k - 1)%nat ->
     exists v, snapshot_of (backend (calls w + 2 + i)) = Some v
               /\ in_progress ["completed"] ["failed"] v) ->
  snapshot_of (backend (calls w + 2 + (k - 1))) = Some downloaded ->
  status_in ["completed"] downloaded ->
  Js.get downloaded "filename" = Return filename ->
  Js.to_string filename = Return shown_filename ->
  Js.get downloaded "space_id" = Return space_id ->
  snapshot_of (backend (calls w + 2 + k)) = Some transcribing ->
  Js.get transcribing "transcription_id" = Return transcription_id ->
  Js.to_string transcription_id = Return shown_tid ->
  (forall i, (i < 120)%nat ->
     exists v, snapshot_of (backend (calls w + 2 + k + 1 + i)) = Some v
               /\ in_progress ["completed"] ["failed"] v) ->
  let download_status :=
    status_request (apiUrl config ++ "/api/status/" ++ shown_id) config in
  let transcription_status :=
    status_request (apiUrl config ++ "/api/transcription/status/" ++ shown_tid)
                   config in
  let evs :=
    ([EFetch (availability_check id config);
      EFetch (download_start (JStr url) config)]
     ++ (waiting_ticks download_status 5000 (k - 1) ++ [EFetch download_status])
     ++ [EFetch (transcribe_start space_id config)]
     ++ waiting_ticks transcription_status 10000 120)%list in
  download_and_transcribe_space_body g (JStr url) config w
  = (Throw (ErrorObj "Operation timed out after 120 attempts"),
     advance w (2 + k + 1 + 120) evs)
  /\ fetches evs
     = ([availability_check id config; download_start (JStr url) config]
        ++ repeat download_status k
        ++ [transcribe_start space_id config]
        ++ repeat transcription_status 120)%list.
Proof.
  intros Hid Hv (available & Hav & Htruthy) Hv1 Hdid Hsdid Hk Hticks1 Hdl Hdone1
         Hfile Hsfile Hsid Htr Htid Hstid Hticks2
         download_status transcription_status evs.
  pose proof (extract_space_id_of_match url id Hid) as Hx.
  assert (Hr : Js.to_string (JStr url) = Return url) by reflexivity.
  assert (Hb1 : Z.of_nat k <= default_maxAttempts)
    by (unfold default_maxAttempts; lia).
  split.
  - enter_workflow Hv Htruthy Hv1.
    rewrite (bind_return _ _ _ _ _
               (poll_completes_at _ config default_completed default_failed
                  default_maxAttempts default_intervalMs k
                  (advance w 2 [EFetch (availability_check id config);
                                EFetch (download_start (JStr url) config)])
                  downloaded (proj1 Hk) Hb1 Hticks1 Hdl Hdone1)).
    evaluate.
    match goal with
    | |- context [bind (makeApiRequest _ _ _) _ ?w2] =>
        rewrite (bind_return _ _ _ _ _ (makeApiRequest_delivers _ _ _ w2 _ Htr))
    end.
    evaluate.
    match goal with
    | |- context [bind (pollForCompletion _ _ _ _ _ _) _ ?w3] =>
        rewrite (bind_throw _ _ _ _ _
                   (poll_exhausts _ config ["completed"] ["failed"] 120 10000
                      w3 Hticks2))
    end.
    rewrite !advance_advance. unfold evs.
    f_equal. f_equal; try reflexivity; lia.
  - unfold evs.
    change ([EFetch (availability_check id config);
             EFetch (download_start (JStr url) config)] ++ ?l)%list
      with (EFetch (availability_check id config)
              :: EFetch (download_start (JStr url) config) :: l).
    cbn [fetches]. rewrite fetches_app, (fetches_poll_run _ _ k (proj1 Hk)).
    cbn [app fetches]. now rewrite fetches_waiting_ticks.
Qed.

(** X19: a download that fails ends the combined workflow there: the failure
    error of the download poll comes out, with the [error] field of the
    failed snapshot or, that field being falsy, its [message] field as
    detail, after the availability check, the download start and the k
    status calls; no transcription is started. *)
Theorem workflow_stops_at_failed_download
    (g : Glyphs) (url id : string)
    (availability started download_id failed st err msg : jsval)
    (shown_id detail : string) (config : Config) (k : nat) (w : World) :
  regex_match url = Some id ->
  snapshot_of (backend (calls w)) = Some availability ->
  (exists available, Js.get availability "available" = Return available
                     /\ Js.truthy available = true) ->
  snapshot_of (backend (calls w + 1)) = Some started ->
  Js.get started "download_id" = Return download_id ->
  Js.to_string download_id = Return shown_id ->
  (1 <= k <= 60)%nat ->
  (forall i, (i < k - 1)%nat ->
     exists v, snapshot_of (backend (calls w + 2 + i)) = Some v
               /\ in_progress ["completed"] ["failed"] v) ->
  snapshot_of (backend (calls w + 2 + (k - 1))) = Some failed ->
  Js.get failed "status" = Return st ->
  Js.includes ["completed"] st = false ->
  Js.includes ["failed"] st = true ->
  Js.get failed "error" = Return err ->
  Js.get failed "message" = Return msg ->
  Js.to_string (if Js.truthy err then err else msg) = Return detail ->
  let download_status :=
    status_request (apiUrl config ++ "/api/status/" ++ shown_id) config in
  let evs :=
    ([EFetch (availability_check id config);
      EFetch (download_start (JStr url) config)]
     ++ (waiting_ticks download_status 5000 (k - 1) ++ [EFetch download_status]))%list in
  download_and_transcribe_space_body g (JStr url) config w
  = (Throw (ErrorObj ("Operation failed: " ++ detail)), advance w (2 + k) evs)
  /\ fetches evs
     = ([availability_check id config; download_start (JStr url) config]
        ++ repeat download_status k)%list.
Proof.
  intros Hid Hv (available & Hav & Htruthy) Hv1 Hdid Hsdid Hk Hticks Hfail Hst Hc Hf
         Herr Hmsg Hdetail download_status evs.
  pose proof (extract_space_id_of_match url id Hid) as Hx.
  assert (Hr : Js.to_string (JStr url) = Return url) by reflexivity.
  assert (Hb : Z.of_nat k <= default_maxAttempts)
    by (unfold default_maxAttempts; lia).
  split.
  - destruct (poll_fails_at (apiUrl config ++ "/api/status/" ++ shown_id)
                config default_completed default_failed default_maxAttempts
                default_intervalMs k
                (advance w 2 [EFetch (availability_check id config);
                              EFetch (download_start (JStr url) config)])
                failed st (proj1 Hk) Hb Hticks Hfail Hst Hc Hf)
      as (err' & msg' & He & Hm & Hrun).
    assert (err' = err) as -> by congruence.
    assert (msg' = msg) as -> by congruence.
    unfold failure_of, Js.or in Hrun. rewrite Hdetail in Hrun.
    enter_workflow Hv Htruthy Hv1.
    rewrite (bind_throw _ _ _ _ _ Hrun), advance_advance. reflexivity.
  - unfold evs.
    change ([EFetch (availability_check id config);
             EFetch (download_start (JStr url) config)] ++ ?l)%list
      with (EFetch (availability_check id config)
              :: EFetch (download_start (JStr url) config) :: l).
    cbn [fetches]. now rewrite (fetches_poll_run _ _ k (proj1 Hk)).
Qed.

(** *** Transcripts *)

(** The request [get_transcript] sends: a plain GET, no JSON header. *)
Notation transcript_request shown_space shown_format config :=
  {| req_url := apiUrl config ++ "/api/transcript/" ++ shown_space
                  ++ "/download/" ++ shown_format;
     req_method := None;
     req_headers := [];
     req_body := None;
     req_abort_ms := abort_delay config |}.

(** X20: fetching a transcript is a single GET.  The identifier and the
    format, [paragraphs] when left out, go into the URL as they render,
    unchecked; one of them that does not render as text ends the tool
    with the TypeError of the rendering before any network call.  A 2xx
    answer returns the body text under a heading; any other status is
    the error [HTTP <status>: <body>], without the prefix of
    [makeApiRequest]; a rejected call is thrown as it is. *)
Theorem get_transcript_is_one_plain_get
    (g : Glyphs) (args space_id format : jsval) (config : Config) (w : World) :
  Js.get args "space_id" = Return space_id ->
  Js.get args "format" = Return format ->
  let chosen := default_to (JStr "paragraphs") format in
  (forall e,
      Js.to_string space_id = Throw e ->
      tool_body g GetTranscript args "args" config w = (Throw e, w))
  /\ (forall shown_space e,
        Js.to_string space_id = Return shown_space ->
        Js.to_string chosen = Throw e ->
        tool_body g GetTranscript args "args" config w = (Throw e, w))
  /\ (forall shown_space shown_format,
        Js.to_string space_id = Return shown_space ->
        Js.to_string chosen = Return shown_format ->
        let w' := advance w 1 [EFetch (transcript_request shown_space shown_format
                                                          config)] in
        snd (tool_body g GetTranscript args "args" config w) = w'
        /\ (forall r body,
              backend (calls w) = Responds r -> resp_text r = Return body ->
              tool_body g GetTranscript args "args" config w
              = (if resp_ok r
                 then Return (text_result
                                ("Transcript for space " ++ shown_space ++ " ("
                                 ++ shown_format ++ " format):" ++ nl ++ nl ++ body))
                 else Throw (ErrorObj ("HTTP " ++ Js.number_to_string (resp_status r)
                                         ++ ": " ++ body)),
                 w'))
        /\ (forall e,
              backend (calls w) = Rejects e ->
              tool_body g GetTranscript args "args" config w = (Throw e, w'))).
Proof.
  intros Hsid Hfmt chosen.
  pose proof (get_not_nullish _ _ _ Hsid) as Ha.
  assert (Hbody : tool_body g GetTranscript args "args" config w
                  = get_transcript_body space_id chosen config w).
  { unfold tool_body, bind, lift.
    now rewrite !(destructure_get _ _ _ Ha), Hsid, Hfmt. }
  rewrite Hbody. unfold get_transcript_body.
  split; [|split].
  - intros e He. now rewrite (bind_render_throw _ _ _ _ He).
  - intros shown_space e Hs He. rewrite (bind_render _ _ _ _ Hs).
    now rewrite (bind_render_throw _ _ _ _ He).
  - intros shown_space shown_format Hs Hf.
    rewrite (bind_render _ _ _ _ Hs), (bind_render _ _ _ _ Hf).
    unfold render, bind, fetch, lift, throw, ret, advance.
    replace (calls w + 1)%nat with (S (calls w)) by lia.
    rewrite Hs, Hf.
    split; [|split].
    + destruct (backend (calls w)) as [e|r]; [reflexivity|].
      destruct (resp_ok r); simpl; destruct (resp_text r); reflexivity.
    + intros r body -> Ht. destruct (resp_ok r); simpl; now rewrite Ht.
    + now intros e ->.
Qed.

(** *** The list of spaces *)

(** The callback of the listing makes no network call: its outcome does
    not depend on the world, which it leaves as it was. *)
Lemma space_entry_pure (g : Glyphs) (index : Z) (space : jsval) (w w0 : World) :
  space_entry g index space w = (fst (space_entry g index space w0), w).
Proof. unfold space_entry. settle_pure. Qed.

(** An entry is numbered from 1. *)
Lemma space_entry_numbered (g : Glyphs) (index : Z) (space : jsval) (w : World)
    (entry : string) :
  fst (space_entry g index space w) = Return entry ->
  exists rest, entry = Js.number_to_string (index + 1) ++ ". " ++ rest.
Proof.
  unfold space_entry, render, bind, lift, ret.
  repeat (cbv beta iota;
          match goal with
          | |- fst (_, _) = _ -> _ =>
              cbn [fst]; first [ discriminate | intros [= <-]; eexists; reflexivity ]
          | |- _ => case_on_goal
          end).
Qed.

(** X28: what an entry shows for fields that are missing or falsy: the
    title [Untitled Space], the creator [Unknown] with the handle
    [@unknown], the date and the state [Unknown], audio and transcript
    marked as missing, and no size line. *)
Theorem space_entry_falls_back_on_defaults
    (g : Glyphs) (index : Z) (space id : jsval) (shown_id : string) (w : World) :
  (forall k,
      In k ["title"; "creator_name"; "creator_screen_name"; "start_date";
            "has_audio"; "has_transcript"; "audio_size"; "state"] ->
      exists v, Js.get space k = Return v /\ Js.truthy v = false) ->
  Js.get space "id" = Return id ->
  Js.to_string id = Return shown_id ->
  space_entry g index space w
  = (Return (Js.number_to_string (index + 1) ++ ". Untitled Space" ++ nl
             ++ "   ID: " ++ shown_id ++ nl
             ++ "   Creator: Unknown (@unknown)" ++ nl
             ++ "   Date: Unknown" ++ nl
             ++ "   Audio: " ++ (cross_mark g ++ " Missing") ++ nl
             ++ "   Transcript: " ++ (cross_mark g ++ " Not transcribed") ++ nl
             ++ "   State: Unknown" ++ nl ++ nl),
     w).
Proof.
  intros Hmissing Hid Hsid.
  destruct (Hmissing "title" ltac:(simpl; auto 10)) as (title & Htitle & Ftitle).
  destruct (Hmissing "creator_name" ltac:(simpl; auto 10))
    as (creator_name & Hcreator & Fcreator).
  destruct (Hmissing "creator_screen_name" ltac:(simpl; auto 10))
    as (screen_name & Hscreen & Fscreen).
  destruct (Hmissing "start_date" ltac:(simpl; auto 10)) as (start_date & Hdate & Fdate).
  destruct (Hmissing "has_audio" ltac:(simpl; auto 10)) as (has_audio & Haudio & Faudio).
  destruct (Hmissing "has_transcript" ltac:(simpl; auto 10))
    as (has_transcript & Htranscript & Ftranscript).
  destruct (Hmissing "audio_size" ltac:(simpl; auto 10)) as (audio_size & Hsize & Fsize).
  destruct (Hmissing "state" ltac:(simpl; auto 10)) as (state & Hstate & Fstate).
  assert (Rtitle : Js.to_string (Js.or title (JStr "Untitled Space"))
                   = Return "Untitled Space")
    by (unfold Js.or; now rewrite Ftitle).
  assert (Rcreator : Js.to_string (Js.or creator_name (JStr "Unknown"))
                     = Return "Unknown")
    by (unfold Js.or; now rewrite Fcreator).
  assert (Rscreen : Js.to_string (Js.or screen_name (JStr "unknown"))
                    = Return "unknown")
    by (unfold Js.or; now rewrite Fscreen).
  assert (Rdate : Js.to_string (Js.or start_date (JStr "Unknown")) = Return "Unknown")
    by (unfold Js.or; now rewrite Fdate).
  assert (Rstate : Js.to_string (Js.or state (JStr "Unknown")) = Return "Unknown")
    by (unfold Js.or; now rewrite Fstate).
  unfold space_entry. follow. reflexivity.
Qed.

(** The texts the entries append, in order. *)
Lemma forEach_space_entries (g : Glyphs) (items : list jsval) (entries : list string)
    (index : nat) (result : string) (w : World) :
  List.length entries = List.length items ->
  (forall i space entry,
      nth_error items i = Some space ->
      nth_error entries i = Some entry ->
      fst (space_entry g (Z.of_nat (index + i)) space w) = Return entry) ->
  forEach_space g items (Z.of_nat index) result w
  = (Return (result ++ fold_right append "" entries), w).
Proof.
  revert entries index result.
  induction items as [|space items IH]; intros entries index result Hlen Hall.
  - destruct entries; [|discriminate Hlen]. simpl. unfold ret.
    now replace (result ++ "") with result
      by (clear; induction result; simpl; congruence).
  - destruct entries as [|entry entries]; [discriminate Hlen|].
    cbn [forEach_space fold_right].
    pose proof (Hall 0%nat space entry eq_refl eq_refl) as Hentry.
    rewrite Nat.add_0_r in Hentry.
    rewrite (bind_return _ _ _ _ _
               (eq_trans (space_entry_pure g _ space w w)
                         (f_equal (fun o => (o, w)) Hentry))).
    replace (Z.of_nat index + 1) with (Z.of_nat (S index)) by lia.
    rewrite (IH entries (S index) (result ++ entry)).
    + now rewrite append_assoc_string.
    + simpl in Hlen. congruence.
    + intros i sp en Hsp Hen.
      replace (S index + i)%nat with (index + S i)%nat by lia.
      now apply Hall.
Qed.

(** The first entry whose callback throws ends the loop. *)
Lemma forEach_space_stops (g : Glyphs) (good rest : list jsval) (bad : jsval)
    (index : nat) (result : string) (w : World) (e : thrown) :
  (forall i space,
      nth_error good i = Some space ->
      exists entry, fst (space_entry g (Z.of_nat (index + i)) space w) = Return entry) ->
  fst (space_entry g (Z.of_nat (index + List.length good)) bad w) = Throw e ->
  forEach_space g (good ++ bad :: rest) (Z.of_nat index) result w = (Throw e, w).
Proof.
  revert index result.
  induction good as [|space good IH]; intros index result Hall Hbad.
  - cbn [app forEach_space]. simpl in Hbad. rewrite Nat.add_0_r in Hbad.
    apply (bind_throw _ _ w w).
    rewrite (space_entry_pure g _ bad w w). now rewrite Hbad.
  - change ((space :: good) ++ bad :: rest)%list
      with (space :: (good ++ bad :: rest))%list.
    cbn [forEach_space].
    destruct (Hall 0%nat space eq_refl) as [entry Hentry].
    rewrite Nat.add_0_r in Hentry.
    rewrite (bind_return _ _ _ _ _
               (eq_trans (space_entry_pure g _ space w w)
                         (f_equal (fun o => (o, w)) Hentry))).
    replace (Z.of_nat index + 1) with (Z.of_nat (S index)) by lia.
    apply IH.
    + intros i sp Hsp.
      replace (S index + i)%nat with (index + S i)%nat by lia.
      now apply Hall.
    + replace (S index + List.length good)%nat
        with (index + List.length (space :: good))%nat by (simpl; lia).
      exact Hbad.
Qed.

Lemma is_zero_length_of_entries (item : jsval) (items : list jsval) :
  is_zero (js_length (JArr (item :: items))) = false.
Proof.
  unfold is_zero, js_length.
  destruct (Z.of_nat (List.length (item :: items))) eqn:E;
    [simpl in E; lia | reflexivity | reflexivity].
Qed.

(** The request of the listing. *)
Notation spaces_request config :=
  (api_request (apiUrl config ++ "/api/spaces") config no_options).

(** X21: with storage configured and nothing to list (the [spaces] field
    absent, [null], or an empty array) the listing is the invitation to
    download, not an error. *)
Theorem list_spaces_with_nothing_stored
    (g : Glyphs) (response r2_configured spaces : jsval) (config : Config) (w : World) :
  snapshot_of (backend (calls w)) = Some response ->
  Js.get response "r2_configured" = Return r2_configured ->
  Js.truthy r2_configured = true ->
  Js.get response "spaces" = Return spaces ->
  Js.truthy spaces = false \/ spaces = JArr [] ->
  list_spaces_body g config w
  = (Return (text_result
               "No spaces found. Download some Twitter Spaces to get started!"),
     advance w 1 [EFetch (spaces_request config)]).
Proof.
  intros Hv Hr2 Htruthy Hsp Hnone.
  unfold list_spaces_body. unfold bind at 1.
  rewrite (makeApiRequest_delivers _ _ _ _ _ Hv).
  unfold bind, lift. rewrite Hr2, Htruthy, Hsp. cbv [negb].
  destruct Hnone as [Hfalsy| ->]; [|reflexivity].
  unfold Js.or. now rewrite Hfalsy.
Qed.

(** X22: with storage configured and [n >= 1] entries whose callbacks all
    return, the listing is one network call and the text [Found n
    spaces:] followed by what the callbacks appended, entry by entry in
    the order of the array, each entry numbered by its position counted
    from 1. *)
Theorem list_spaces_counts_the_entries
    (g : Glyphs) (response r2_configured : jsval) (items : list jsval)
    (entries : list string) (config : Config) (w : World) :
  snapshot_of (backend (calls w)) = Some response ->
  Js.get response "r2_configured" = Return r2_configured ->
  Js.truthy r2_configured = true ->
  Js.get response "spaces" = Return (JArr items) ->
  items <> [] ->
  List.length entries = List.length items ->
  (forall i space entry,
      nth_error items i = Some space ->
      nth_error entries i = Some entry ->
      fst (space_entry g (Z.of_nat i) space w) = Return entry) ->
  list_spaces_body g config w
  = (Return (text_result
               (("Found " ++ Js.number_to_string (Z.of_nat (List.length items))
                 ++ " spaces:" ++ nl ++ nl)
                ++ fold_right append "" entries)),
     advance w 1 [EFetch (spaces_request config)])
  /\ (forall i entry,
        nth_error entries i = Some entry ->
        exists rest,
          entry = Js.number_to_string (Z.of_nat i + 1) ++ ". " ++ rest).
Proof.
  intros Hv Hr2 Htruthy Hsp Hne Hlen Hall. split.
  - unfold list_spaces_body.
    rewrite (bind_return _ _ _ _ _ (makeApiRequest_delivers _ _ _ _ _ Hv)).
    evaluate. rewrite Htruthy. cbv beta iota zeta delta [negb]. evaluate.
    change (Js.or (JArr items) (JArr [])) with (JArr items).
    destruct items as [|item items]; [congruence|].
    rewrite is_zero_length_of_entries.
    assert (Hcount : Js.to_string (js_length (JArr (item :: items)))
                     = Return (Js.number_to_string
                                 (Z.of_nat (List.length (item :: items)))))
      by reflexivity.
    evaluate.
    rewrite (bind_return _ _ _ _ _
               (forEach_space_entries g (item :: items) entries 0 _
                  (advance w 1 [EFetch (spaces_request config)]) Hlen
                  (fun i space entry Hs He =>
                     eq_trans (f_equal fst (space_entry_pure g _ space _ w))
                              (Hall i space entry Hs He)))).
    reflexivity.
  - intros i entry Hentry.
    destruct (nth_error items i) as [space|] eqn:Hspace.
    + apply (space_entry_numbered g (Z.of_nat i) space w).
      now apply Hall.
    + apply nth_error_None in Hspace.
      assert (i < List.length entries)%nat
        by (apply nth_error_Some; congruence).
      lia.
Qed.

(** X23: one entry whose callback throws spoils the whole listing: the
    entries before it returning, the tool throws what that callback
    threw, and nothing of the entries before it is returned.  An entry
    that is [null] is such an entry: its callback throws the TypeError
    of reading its [title]. *)
Theorem list_spaces_fails_on_bad_entry
    (g : Glyphs) (response r2_configured bad : jsval) (good rest : list jsval)
    (config : Config) (w : World) :
  snapshot_of (backend (calls w)) = Some response ->
  Js.get response "r2_configured" = Return r2_configured ->
  Js.truthy r2_configured = true ->
  Js.get response "spaces" = Return (JArr (good ++ bad :: rest)) ->
  (forall i space,
      nth_error good i = Some space ->
      exists entry, fst (space_entry g (Z.of_nat i) space w) = Return entry) ->
  (forall e,
      fst (space_entry g (Z.of_nat (List.length good)) bad w) = Throw e ->
      list_spaces_body g config w
      = (Throw e, advance w 1 [EFetch (spaces_request config)]))
  /\ (nullish bad = true ->
      exists e,
        Js.get bad "title" = Throw e
        /\ list_spaces_body g config w
           = (Throw e, advance w 1 [EFetch (spaces_request config)])).
Proof.
  intros Hv Hr2 Htruthy Hsp Hall.
  assert (Hthrows : forall e,
             fst (space_entry g (Z.of_nat (List.length good)) bad w) = Throw e ->
             list_spaces_body g config w
             = (Throw e, advance w 1 [EFetch (spaces_request config)])).
  { intros e Hbad. unfold list_spaces_body.
    rewrite (bind_return _ _ _ _ _ (makeApiRequest_delivers _ _ _ _ _ Hv)).
    evaluate. rewrite Htruthy. cbv beta iota zeta delta [negb]. evaluate.
    change (Js.or (JArr (good ++ bad :: rest)) (JArr []))
      with (JArr (good ++ bad :: rest)).
    assert (Hnz : is_zero (js_length (JArr (good ++ bad :: rest))) = false).
    { destruct good; apply is_zero_length_of_entries. }
    rewrite Hnz.
    assert (Hcount : Js.to_string (js_length (JArr (good ++ bad :: rest)))
                     = Return (Js.number_to_string
                                 (Z.of_nat (List.length (good ++ bad :: rest)))))
      by reflexivity.
    evaluate.
    apply bind_throw.
    apply (forEach_space_stops g good rest bad 0).
    - intros i space Hs. destruct (Hall i space Hs) as [entry Hentry].
      exists entry. rewrite <- Hentry.
      apply (f_equal fst (space_entry_pure g _ space _ w)).
    - rewrite <- Hbad. apply (f_equal fst (space_entry_pure g _ bad _ w)). }
  split; [exact Hthrows|].
  intros Hnull.
  assert (exists e, Js.get bad "title" = Throw e
                    /\ fst (space_entry g (Z.of_nat (List.length good)) bad w)
                       = Throw e) as (e & He & Hbad)
    by (destruct bad; try discriminate Hnull; eexists; split; reflexivity).
  exists e. split; [exact He|]. now apply Hthrows.
Qed.

End Server.

(** ** Sample runs of the program *)

Example regex_match_space_url :
  regex_match sample_space_url = Some "1ZkKzYLnWOLxv".
Proof. reflexivity. Qed.

Example regex_match_stops_at_punctuation :
  regex_match "https://x.com/i/spaces/1ZkKz-YLn?s=20" = Some "1ZkKz".
Proof. reflexivity. Qed.

Example regex_match_takes_leftmost :
  regex_match "/spaces//spaces/abc/spaces/def" = Some "abc".
Proof. reflexivity. Qed.

Example regex_match_needs_an_identifier :
  regex_match "https://x.com/i/spaces/" = None.
Proof. reflexivity. Qed.

Example to_string_of_array :
  Js.to_string (JArr [JNum 1; JNull; JStr "a"; JArr [JNum 2; JNum 3]])
  = Return "1,,a,2,3".
Proof. reflexivity. Qed.

(** Numbers render as JavaScript renders them: in decimal while they are
    exact, as the nearest double beyond 2^53, in exponent form from
    21 digits on. *)
Example number_to_string_samples :
  Js.number_to_string 60 = "60"
  /\ Js.number_to_string (-1) = "-1"
  /\ Js.number_to_string 9007199254740993 = "9007199254740992"
  /\ Js.number_to_string (2 ^ 64) = "18446744073709552000"
  /\ Js.number_to_string 123456789012345678901 = "123456789012345680000"
  /\ Js.number_to_string (10 ^ 21) = "1e+21"
  /\ Js.number_to_string (- 2 ^ 70) = "-1.1805916207174113e+21"
  /\ Js.number_to_string (10 ^ 400) = "Infinity".
Proof. repeat split; vm_compute; reflexivity. Qed.

(** An object out of JSON whose [toString] is not a function has no
    primitive value: rendering it throws. *)
Example to_string_of_unprintable :
  Js.to_string unprintable
  = Throw (ErrorObj "Cannot convert object to primitive value")
  /\ Js.to_string (JArr [JStr "a"; unprintable])
     = Throw (ErrorObj "Cannot convert object to primitive value")
  /\ Js.to_string (JObj [("name", JStr "a")]) = Return "[object Object]".
Proof. repeat split. Qed.

Example makeApiRequest_wraps_http_errors :
  fst (makeApiRequest
         (fun _ => Responds {| resp_status := 500;
                               resp_text := Return "boom";
                               resp_json := Throw (ErrorObj "Unexpected token") |})
         sample_status_url local_config no_options fresh_world)
  = Throw (ErrorObj "API request failed: HTTP 500: boom").
Proof. reflexivity. Qed.

(** A download that completes on the second status call: the result names
    the file and the space, after one start call and two status calls. *)
Example download_twitter_space_run :
  handleCallTool download_completes no_size
    (call_params "download_twitter_space" (JObj [("space_url", JStr sample_space_url)]))
    local_config fresh_world
  = (Return (text_result
       ("Started download for https://x.com/i/spaces/1ZkKzYLnWOLxv" ++ nl
        ++ "Download ID: d1" ++ nl
        ++ "Status: started" ++ nl
        ++ "Message: Download started" ++ nl ++ nl
        ++ "Waiting for download to complete..." ++ nl ++ nl
        ++ check_mark express_glyphs ++ " Download completed!" ++ nl
        ++ "Space ID: 1ZkKzYLnWOLxv" ++ nl
        ++ "Filename: spaces/1ZkKzYLnWOLxv.mp3" ++ nl
        ++ "Final Message: undefined" ++ nl)),
     {| calls := 3;
        log := [EFetch (api_request "http://localhost:8000/api/download" local_config
                          {| init_method := Some "POST";
                             init_body := Some (JObj [("space_url",
                                                       JStr sample_space_url)]) |});
                EFetch (status_request sample_status_url local_config);
                ESleep 5000;
                EFetch (status_request sample_status_url local_config)] |}).
Proof. vm_compute. reflexivity. Qed.

(** A [tools/call] without parameters never reaches a tool: the
    destructuring before the [try] throws, and the front answers with the
    internal-error code. *)
Example tools_call_without_params :
  fst (handleMcpRequest backend_down no_size
         (JObj [("jsonrpc", JStr "2.0"); ("id", JNum 3); ("method", JStr "tools/call")])
         local_config fresh_world)
  = Return {| rpc_id := JNum 3;
              rpc_result := None;
              rpc_error :=
                Some {| code := -32603;
                        message := "Cannot destructure property 'name' of 'params' as it is undefined." |} |}.
Proof. reflexivity. Qed.

(** A method that does not render as text is answered with the
    internal-error code: the error is thrown while the message of the
    method-not-found answer is built. *)
Example unprintable_method_is_an_internal_error :
  fst (handleMcpRequest backend_down no_size
         (JObj [("jsonrpc", JStr "2.0"); ("id", JNum 4); ("method", unprintable)])
         local_config fresh_world)
  = Return {| rpc_id := JNum 4;
              rpc_result := None;
              rpc_error :=
                Some {| code := -32603;
                        message := "Cannot convert object to primitive value" |} |}.
Proof. reflexivity. Qed.

(** A failed snapshot whose [error] does not render: the poll throws the
    TypeError of the rendering, not the failure error. *)
Example poll_with_unprintable_error :
  fst (pollForCompletion
         (fun _ => json_reply (JObj [("status", JStr "failed");
                                     ("error", unprintable)]))
         sample_status_url local_config ["completed"] ["failed"] 60 5000 fresh_world)
  = Throw (ErrorObj "Cannot convert object to primitive value").
Proof. reflexivity. Qed.

(** A transcript format that does not render ends the tool before any
    network call. *)
Example get_transcript_with_unprintable_format :
  tool_body transcript_ready no_size express_glyphs GetTranscript
    (JObj [("space_id", JStr "1ZkKzYLnWOLxv"); ("format", unprintable)])
    "args" local_config fresh_world
  = (Throw (ErrorObj "Cannot convert object to primitive value"), fresh_world).
Proof. reflexivity. Qed.

(** ** The properties at work on sample runs *)

Lemma processing_in_progress :
  in_progress ["completed"] ["failed"] processing_snapshot.
Proof. exists (JStr "processing"). repeat split. Defined.

Lemma poll_returns_kth_snapshot_witness :
  pollForCompletion completes_second sample_status_url local_config
                    ["completed"] ["failed"] 60 5000 fresh_world
  = (Return completed_snapshot,
     {| calls := 2;
        log := [EFetch (status_request sample_status_url local_config);
                ESleep 5000;
                EFetch (status_request sample_status_url local_config)] |})
  /\ fetches [EFetch (status_request sample_status_url local_config);
              ESleep 5000;
              EFetch (status_request sample_status_url local_config)]
     = [status_request sample_status_url local_config;
        status_request sample_status_url local_config]
  /\ sleeps [EFetch (status_request sample_status_url local_config);
             ESleep 5000;
             EFetch (status_request sample_status_url local_config)]
     = [5000].
Proof.
  apply (poll_returns_kth_snapshot completes_second sample_status_url local_config
           ["completed"] ["failed"] 60 5000 2 fresh_world completed_snapshot).
  - lia.
  - lia.
  - intros i Hi. destruct i as [|i]; [|lia].
    exists processing_snapshot. split; [reflexivity | exact processing_in_progress].
  - reflexivity.
  - exists (JStr "completed"). split; reflexivity.
Defined.

Lemma poll_times_out_after_budget_witness :
  pollForCompletion never_done sample_status_url local_config
                    ["completed"] ["failed"] 3 10 fresh_world
  = (Throw (ErrorObj "Operation timed out after 3 attempts"),
     advance fresh_world 3
             (waiting_ticks (status_request sample_status_url local_config) 10 3))
  /\ fetches (waiting_ticks (status_request sample_status_url local_config) 10 3)
     = repeat (status_request sample_status_url local_config) 3.
Proof.
  apply (poll_times_out_after_budget never_done sample_status_url local_config
           ["completed"] ["failed"] 3 10 fresh_world).
  intros i _. exists processing_snapshot.
  split; [reflexivity | exact processing_in_progress].
Defined.

Lemma timeout_path_sleeps_every_tick_witness :
  pollForCompletion never_done sample_status_url local_config
                    ["completed"] ["failed"] 3 10 fresh_world
  = (Throw (ErrorObj "Operation timed out after 3 attempts"),
     advance fresh_world 3
             (waiting_ticks (status_request sample_status_url local_config) 10 3))
  /\ sleeps (waiting_ticks (status_request sample_status_url local_config) 10 3)
     = [10; 10; 10].
Proof.
  assert (Hw : waits_through never_done ["completed"] ["failed"] fresh_world
                             (Z.to_nat 3)).
  { intros i _. exists processing_snapshot.
    split; [reflexivity | exact processing_in_progress]. }
  pose proof (timeout_path_sleeps_every_tick never_done sample_status_url
                local_config ["completed"] ["failed"] 3 10 fresh_world Hw)
    as (_ & Hrun & Hsleeps & _).
  split; [exact Hrun | exact Hsleeps].
Defined.

Lemma completed_check_precedes_failed_witness :
  pollForCompletion cancelled_at_once sample_status_url local_config
                    ["completed"; "cancelled"] ["failed"; "cancelled"]
                    60 5000 fresh_world
  = (Return cancelled_snapshot,
     {| calls := 1;
        log := [EFetch (status_request sample_status_url local_config)] |}).
Proof.
  refine (proj1 (completed_check_precedes_failed cancelled_at_once
                   sample_status_url local_config
                   ["completed"; "cancelled"] ["failed"; "cancelled"] 60 5000
                   1 fresh_world cancelled_snapshot (JStr "cancelled")
                   _ _ _ eq_refl eq_refl eq_refl eq_refl)).
  - lia.
  - lia.
  - intros i Hi. simpl in Hi. lia.
Defined.

Lemma poll_fails_on_kth_snapshot_witness :
  exists e,
    pollForCompletion fails_second sample_status_url local_config
                      ["completed"] ["failed"] 60 5000 fresh_world
    = (Throw e,
       advance fresh_world 2
         (waiting_ticks (status_request sample_status_url local_config) 5000 1
          ++ [EFetch (status_request sample_status_url local_config)]))
    /\ e = ErrorObj "Operation failed: Space audio is gone".
Proof.
  destruct (poll_fails_on_kth_snapshot fails_second sample_status_url local_config
              ["completed"] ["failed"] 60 5000 2 fresh_world failed_snapshot
              (JStr "failed"))
    as (err & msg & e & He & Hm & Hrun & _ & Hdetail & _).
  - lia.
  - lia.
  - intros i Hi. destruct i as [|i]; [|lia].
    exists processing_snapshot. split; [reflexivity | exact processing_in_progress].
  - reflexivity.
  - reflexivity.
  - reflexivity.
  - reflexivity.
  - exists e. split; [exact Hrun|].
    injection He as <-. injection Hm as <-.
    exact (Hdetail "Space audio is gone" eq_refl).
Defined.

(** The specification's wording fails on a failed snapshot whose [error]
    field is present and empty: the poll reports the [message] field, the
    wording asks for the (empty) [error] field. *)
Lemma empty_error_field_is_not_carried :
  ~ failure_carries_error_unless_absent fails_at_once sample_status_url
      local_config ["completed"] ["failed"] 60 5000.
Proof.
  intros H.
  specialize (H 1%nat fresh_world failed_with_empty_error (JStr "failed") "").
  assert (Hrun : fst (pollForCompletion fails_at_once sample_status_url local_config
                        ["completed"] ["failed"] 60 5000 fresh_world)
                 = Throw (ErrorObj "Operation failed: Download failed"))
    by reflexivity.
  rewrite Hrun in H.
  assert (Hclaim : Throw (A := jsval) (ErrorObj "Operation failed: Download failed")
                   = Throw (ErrorObj ("Operation failed: " ++ ""))).
  { apply H; try reflexivity; try lia. intros i Hi. simpl in Hi. lia. }
  discriminate Hclaim.
Qed.

Lemma tool_handlers_catch_every_error_witness :
  handleCallTool backend_down no_size (call_params "list_spaces" (JObj []))
                 local_config fresh_world
  = (Return (text_result "Error: API request failed: fetch failed"),
     advance fresh_world 1
             [EFetch (api_request "http://localhost:8000/api/spaces"
                                  local_config no_options)]).
Proof.
  exact (proj1 (proj2 (tool_handlers_catch_every_error backend_down no_size
                         (call_params "list_spaces" (JObj [])) (JObj [])
                         local_config fresh_world eq_refl eq_refl))
               (JStr "list_spaces") (JObj [])
               (ErrorObj "API request failed: fetch failed") _
               eq_refl eq_refl eq_refl).
Defined.

Lemma check_rejects_url_without_segment_witness :
  check_space_availability backend_down
    (JObj [("space_url", JStr url_without_segment)]) local_config fresh_world
  = (Return (text_result
               "Error checking space availability: Invalid space URL format"),
     fresh_world).
Proof.
  exact (proj1 (proj2 (check_rejects_url_without_segment backend_down no_size
                         index_glyphs url_without_segment
                         (JObj [("space_url", JStr url_without_segment)])
                         local_config fresh_world
                         (no_match_no_segment url_without_segment eq_refl)
                         eq_refl))).
Defined.

Lemma unavailable_space_stops_workflow_witness :
  handleCallTool space_unavailable no_size
    (call_params "download_and_transcribe_space"
       (JObj [("space_url", JStr sample_space_url)]))
    local_config fresh_world
  = (Return (text_result "Error: Space not available: Space has ended"),
     advance fresh_world 1
       [EFetch (api_request
                  "http://localhost:8000/api/check-space/1ZkKzYLnWOLxv"
                  local_config no_options)]).
Proof.
  destruct (unavailable_space_stops_workflow space_unavailable no_size
              express_glyphs sample_space_url "1ZkKzYLnWOLxv"
              (JObj [("space_url", JStr sample_space_url)]) unavailable_reply
              local_config fresh_world eq_refl eq_refl eq_refl eq_refl)
    as (error & stage_error & Herr & Hshown & _ & _ & _ & Hcall & _).
  injection Herr as <-.
  rewrite (Hshown "Space has ended" eq_refl) in Hcall.
  exact (Hcall (call_params "download_and_transcribe_space"
                  (JObj [("space_url", JStr sample_space_url)]))
               eq_refl eq_refl).
Defined.

Lemma list_spaces_without_storage_witness :
  handleCallTool no_storage no_size (call_params "list_spaces" (JObj []))
                 local_config fresh_world
  = (Return (text_result "R2 storage is not configured. No spaces available."),
     advance fresh_world 1
             [EFetch (api_request "http://localhost:8000/api/spaces"
                                  local_config no_options)]).
Proof.
  exact (proj2 (proj2 (list_spaces_without_storage no_storage no_size
                         index_glyphs no_storage_reply local_config fresh_world
                         eq_refl eq_refl))
               (call_params "list_spaces" (JObj [])) (JObj []) eq_refl eq_refl).
Defined.

Lemma delete_space_is_not_declared : ~ In (JStr "delete_space") declared_tool_names.
Proof. simpl. intuition discriminate. Defined.

Lemma resources_list_is_not_known : ~ In (JStr "resources/list") known_methods.
Proof. simpl. intuition discriminate. Defined.

Lemma unsupported_operation_reports_witness :
  handleMcpRequest backend_down no_size
    (rpc_request 7 "resources/list" JUndefined) local_config fresh_world
  = (Return {| rpc_id := JNum 7;
               rpc_result := None;
               rpc_error :=
                 Some {| code := -32601;
                         message := "Method not found: resources/list" |} |},
     fresh_world)
  /\ handleMcpRequest backend_down no_size
       (rpc_request 8 "tools/call" (call_params "delete_space" (JObj [])))
       local_config fresh_world
     = (Return {| rpc_id := JNum 8;
                  rpc_result :=
                    Some (text_result "Error: Unknown tool: delete_space");
                  rpc_error := None |},
        fresh_world).
Proof.
  split.
  - destruct (proj1 (unsupported_operation_reports backend_down no_size
                       (rpc_request 7 "resources/list" JUndefined)
                       local_config fresh_world)
                    (JStr "resources/list") eq_refl resources_list_is_not_known)
      as (id & Hid & Hshown & _).
    injection Hid as <-. exact (Hshown "resources/list" eq_refl).
  - destruct (proj2 (unsupported_operation_reports backend_down no_size
                       (rpc_request 8 "tools/call"
                          (call_params "delete_space" (JObj [])))
                       local_config fresh_world)
                    (call_params "delete_space" (JObj [])) (JStr "delete_space")
                    (JObj []) eq_refl eq_refl eq_refl eq_refl
                    delete_space_is_not_declared)
      as (id & Hid & Hshown & _).
    injection Hid as <-. exact (Hshown "delete_space" eq_refl).
Defined.

(** The specification's wording fails on an unknown tool: the answer is a
    result carrying tool content, with no protocol error. *)
Lemma unknown_tool_is_answered_as_text :
  ~ unsupported_reported_at_protocol_level backend_down no_size local_config.
Proof.
  intros H.
  destruct (H (rpc_request 8 "tools/call" (call_params "delete_space" (JObj [])))
              fresh_world)
    as (response & w' & Hrun & Hresult & _).
  - right. exists (call_params "delete_space" (JObj [])), (JStr "delete_space").
    repeat split; try reflexivity. exact delete_space_is_not_declared.
  - vm_compute in Hrun. injection Hrun as <- _. discriminate Hresult.
Qed.

(** ** The further properties at work on sample runs *)

Lemma makeApiRequest_reports_http_status_witness :
  makeApiRequest not_found sample_status_url local_config no_options fresh_world
  = (Throw (ErrorObj "API request failed: HTTP 404: Not found"),
     advance fresh_world 1 [EFetch (status_request sample_status_url local_config)]).
Proof.
  exact (makeApiRequest_reports_http_status not_found sample_status_url local_config
           no_options fresh_world _ "Not found" eq_refl eq_refl eq_refl).
Defined.

Lemma makeApiRequest_single_call_uniform_error_witness :
  exists detail, "API request failed: fetch failed" = "API request failed: " ++ detail.
Proof.
  exact (proj1 (proj2 (makeApiRequest_single_call_uniform_error backend_down
                         sample_status_url local_config no_options fresh_world))
               "API request failed: fetch failed" eq_refl).
Defined.

Lemma poll_gives_up_on_request_error_witness :
  exists e,
    pollForCompletion breaks_second sample_status_url local_config
                      ["completed"] ["failed"] 60 5000 fresh_world
    = (Throw e,
       advance fresh_world 2
         (waiting_ticks (status_request sample_status_url local_config) 5000 1
          ++ [EFetch (status_request sample_status_url local_config)]))
    /\ (forall m, e = ErrorObj m -> exists detail, m = "API request failed: " ++ detail).
Proof.
  apply (poll_gives_up_on_request_error breaks_second sample_status_url local_config
           ["completed"] ["failed"] 60 5000 1 fresh_world).
  - simpl. lia.
  - intros i Hi. destruct i as [|i]; [|lia].
    exists processing_snapshot. split; [reflexivity | exact processing_in_progress].
  - reflexivity.
Defined.

Lemma poll_without_budget_witness :
  pollForCompletion completes_second sample_status_url local_config
                    ["completed"] ["failed"] 0 5000 fresh_world
  = (Throw (ErrorObj "Operation timed out after 0 attempts"), fresh_world).
Proof.
  apply (poll_without_budget completes_second sample_status_url local_config
           ["completed"] ["failed"] 0 5000 fresh_world).
  lia.
Defined.

Lemma poll_chokes_on_null_snapshot_witness :
  exists e,
    Js.get JNull "status" = Throw e
    /\ pollForCompletion null_second sample_status_url local_config
                         ["completed"] ["failed"] 60 5000 fresh_world
       = (Throw e,
          advance fresh_world 2
            (waiting_ticks (status_request sample_status_url local_config) 5000 1
             ++ [EFetch (status_request sample_status_url local_config)])).
Proof.
  apply (poll_chokes_on_null_snapshot null_second sample_status_url local_config
           ["completed"] ["failed"] 60 5000 1 fresh_world).
  - simpl. lia.
  - intros i Hi. destruct i as [|i]; [|lia].
    exists processing_snapshot. split; [reflexivity | exact processing_in_progress].
  - reflexivity.
Defined.

Lemma regex_match_finds_the_segment_witness :
  "1ZkKzYLnWOLxv" <> ""
  /\ all_alnum "1ZkKzYLnWOLxv" = true
  /\ exists before after,
       sample_space_url = before ++ "/spaces/" ++ "1ZkKzYLnWOLxv" ++ after.
Proof.
  exact (proj2 (regex_match_finds_the_segment sample_space_url)
               "1ZkKzYLnWOLxv" eq_refl).
Defined.

Lemma no_slash_s_in_prefix : forall x y, "https://x.com/i" <> x ++ "/s" ++ y.
Proof.
  intros x y H.
  repeat (destruct x as [|? x]; simpl in H; [discriminate H|];
          injection H as _ H).
  destruct x; discriminate H.
Defined.

Lemma regex_match_round_trip_witness :
  regex_match ("https://x.com/i" ++ "/spaces/" ++ "1ZkKzYLnWOLxv" ++ "?s=20")
  = Some "1ZkKzYLnWOLxv".
Proof.
  apply regex_match_round_trip.
  - discriminate.
  - reflexivity.
  - reflexivity.
  - exact no_slash_s_in_prefix.
Defined.

Lemma switch_serves_the_declared_tools_witness :
  In (JStr "get_transcript") declared_tool_names.
Proof.
  apply (proj1 (switch_serves_the_declared_tools (JStr "get_transcript"))).
  discriminate.
Defined.

Lemma handleMcpRequest_envelope_witness :
  exists response w',
    handleMcpRequest backend_down no_size
      (rpc_request 5 "tools/call" (call_params "list_spaces" (JObj [])))
      local_config fresh_world
    = (Return response, w')
    /\ Js.get (rpc_request 5 "tools/call" (call_params "list_spaces" (JObj []))) "id"
       = Return (rpc_id response)
    /\ (rpc_result response = None <-> rpc_error response <> None)
    /\ (forall e, rpc_error response = Some e -> code e = -32601 \/ code e = -32603).
Proof.
  apply (handleMcpRequest_envelope backend_down no_size
           (rpc_request 5 "tools/call" (call_params "list_spaces" (JObj [])))
           local_config fresh_world).
  reflexivity.
Defined.

Lemma discovery_is_offline_witness :
  handleMcpRequest backend_down no_size (rpc_request 1 "tools/list" JUndefined)
                   local_config fresh_world
  = (Return {| rpc_id := JNum 1;
               rpc_result := Some (JObj [("tools", TOOLS)]);
               rpc_error := None |}, fresh_world).
Proof.
  exact (proj2 (discovery_is_offline backend_down no_size
                  (rpc_request 1 "tools/list" JUndefined) (JNum 1)
                  local_config fresh_world eq_refl) eq_refl).
Defined.

Lemma tools_call_needs_params_witness :
  exists e,
    destructure JNull "name" "params" = Throw e
    /\ handleMcpRequest backend_down no_size (rpc_request 2 "tools/call" JNull)
                        local_config fresh_world
       = (Return {| rpc_id := JNum 2;
                    rpc_result := None;
                    rpc_error := Some {| code := -32603;
                                         message := error_text e |} |}, fresh_world).
Proof.
  exact (tools_call_needs_params backend_down no_size
           (rpc_request 2 "tools/call" JNull) (JNum 2) JNull
           local_config fresh_world eq_refl eq_refl eq_refl eq_refl).
Defined.

Lemma download_without_waiting_witness :
  tool_body download_completes no_size express_glyphs DownloadTwitterSpace
    (JObj [("space_url", JStr sample_space_url);
           ("wait_for_completion", JBool false)])
    "args" local_config fresh_world
  = (Return (text_result
               ("Started download for " ++ sample_space_url ++ nl
                ++ "Download ID: " ++ "d1" ++ nl
                ++ "Status: " ++ "started" ++ nl
                ++ "Message: " ++ "Download started" ++ nl ++ nl)),
     advance fresh_world 1
       [EFetch (api_request "http://localhost:8000/api/download" local_config
                  {| init_method := Some "POST";
                     init_body := Some (JObj [("space_url",
                                               JStr sample_space_url)]) |})]).
Proof.
  refine (proj2 (download_without_waiting download_completes no_size express_glyphs
                   (JObj [("space_url", JStr sample_space_url);
                          ("wait_for_completion", JBool false)])
                   (JStr sample_space_url) (JBool false) download_started
                   local_config fresh_world eq_refl eq_refl _ eq_refl eq_refl)
                (JStr "d1") (JStr "started") (JStr "Download started")
                sample_space_url "d1" "started" "Download started"
                eq_refl eq_refl eq_refl eq_refl eq_refl eq_refl eq_refl).
  discriminate.
Defined.

Lemma download_waits_for_completion_witness :
  snd (tool_body download_completes no_size express_glyphs DownloadTwitterSpace
         (JObj [("space_url", JStr sample_space_url)]) "args" local_config
         fresh_world)
  = advance fresh_world 3
      ([EFetch (api_request "http://localhost:8000/api/download" local_config
                  {| init_method := Some "POST";
                     init_body := Some (JObj [("space_url",
                                               JStr sample_space_url)]) |})]
       ++ waiting_ticks (status_request sample_status_url local_config) 5000 1
       ++ [EFetch (status_request sample_status_url local_config)]).
Proof.
  refine (proj1 (download_waits_for_completion download_completes no_size
                   express_glyphs
                   (JObj [("space_url", JStr sample_space_url)])
                   (JStr sample_space_url) JUndefined download_started (JStr "d1")
                   (JStr "started") (JStr "Download started") completed_snapshot
                   sample_space_url "d1" "started" "Download started"
                   local_config 2 fresh_world
                   eq_refl eq_refl eq_refl eq_refl eq_refl eq_refl eq_refl
                   eq_refl eq_refl eq_refl eq_refl _ _ eq_refl _)).
  - lia.
  - intros i Hi. destruct i as [|i]; [|lia].
    exists processing_snapshot. split; [reflexivity | exact processing_in_progress].
  - exists (JStr "completed"). split; reflexivity.
Defined.

Lemma download_gives_up_after_its_budget_witness :
  tool_body download_hangs no_size express_glyphs DownloadTwitterSpace
    (JObj [("space_url", JStr sample_space_url)]) "args" local_config fresh_world
  = (Throw (ErrorObj "Operation timed out after 60 attempts"),
     advance fresh_world 61
       ([EFetch (api_request "http://localhost:8000/api/download" local_config
                   {| init_method := Some "POST";
                      init_body := Some (JObj [("space_url",
                                                JStr sample_space_url)]) |})]
        ++ waiting_ticks (status_request sample_status_url local_config) 5000 60)).
Proof.
  refine (proj1 (download_gives_up_after_its_budget download_hangs no_size
                   express_glyphs
                   (JObj [("space_url", JStr sample_space_url)])
                   (JStr sample_space_url) JUndefined download_started (JStr "d1")
                   (JStr "started") (JStr "Download started")
                   sample_space_url "d1" "started" "Download started"
                   local_config fresh_world
                   eq_refl eq_refl eq_refl eq_refl eq_refl eq_refl eq_refl
                   eq_refl eq_refl eq_refl eq_refl _)).
  intros i _. exists processing_snapshot.
  split; [reflexivity | exact processing_in_progress].
Defined.

Lemma transcription_gives_up_after_its_budget_witness :
  tool_body transcription_hangs no_size express_glyphs TranscribeSpace
    (JObj [("space_id", JStr "1ZkKzYLnWOLxv")]) "args" local_config fresh_world
  = (Throw (ErrorObj "Operation timed out after 120 attempts"),
     advance fresh_world 121
       ([EFetch (api_request "http://localhost:8000/api/transcribe" local_config
                   {| init_method := Some "POST";
                      init_body := Some (JObj [("space_id",
                                                JStr "1ZkKzYLnWOLxv")]) |})]
        ++ waiting_ticks
             (status_request "http://localhost:8000/api/transcription/status/t1"
                             local_config) 10000 120)).
Proof.
  refine (proj1 (transcription_gives_up_after_its_budget transcription_hangs no_size
                   express_glyphs
                   (JObj [("space_id", JStr "1ZkKzYLnWOLxv")])
                   (JStr "1ZkKzYLnWOLxv") JUndefined transcription_started
                   (JStr "t1") (JStr "started") JUndefined
                   "1ZkKzYLnWOLxv" "t1" "started" "undefined"
                   local_config fresh_world
                   eq_refl eq_refl eq_refl eq_refl eq_refl eq_refl eq_refl
                   eq_refl eq_refl eq_refl eq_refl _)).
  intros i _. exists processing_snapshot.
  split; [reflexivity | exact processing_in_progress].
Defined.

Lemma workflow_runs_its_stages_in_order_witness :
  download_and_transcribe_space_body workflow_succeeds express_glyphs
    (JStr sample_space_url) local_config fresh_world
  = (Return (text_result
               ("Starting complete process for " ++ sample_space_url ++ nl ++ nl
                ++ "1. Checking space availability..." ++ nl
                ++ "   " ++ check_mark express_glyphs ++ " Space is available"
                ++ nl ++ nl
                ++ "2. Starting download..." ++ nl
                ++ "   Download ID: " ++ "d1" ++ nl
                ++ "   " ++ check_mark express_glyphs ++ " Download completed" ++ nl
                ++ "   Filename: " ++ "spaces/1ZkKzYLnWOLxv.mp3" ++ nl ++ nl
                ++ "3. Starting transcription..." ++ nl
                ++ "   Transcription ID: " ++ "t1" ++ nl
                ++ "   " ++ check_mark express_glyphs ++ " Transcription completed"
                ++ nl ++ nl
                ++ party_popper express_glyphs ++ " Complete! Space "
                ++ "1ZkKzYLnWOLxv"
                ++ " has been downloaded and transcribed." ++ nl
                ++ "Use the 'get_transcript' tool with space_id="
                ++ String "034"%char "" ++ "1ZkKzYLnWOLxv" ++ String "034"%char ""
                ++ " to view the transcript.")),
     advance fresh_world 6
       ([EFetch (api_request "http://localhost:8000/api/check-space/1ZkKzYLnWOLxv"
                             local_config no_options);
         EFetch (api_request "http://localhost:8000/api/download" local_config
                   {| init_method := Some "POST";
                      init_body := Some (JObj [("space_url",
                                                JStr sample_space_url)]) |})]
        ++ (waiting_ticks (status_request sample_status_url local_config) 5000 1
            ++ [EFetch (status_request sample_status_url local_config)])
        ++ [EFetch (api_request "http://localhost:8000/api/transcribe" local_config
                      {| init_method := Some "POST";
                         init_body := Some (JObj [("space_id",
                                                   JStr "1ZkKzYLnWOLxv")]) |})]
        ++ (waiting_ticks
              (status_request "http://localhost:8000/api/transcription/status/t1"
                              local_config) 10000 0
            ++ [EFetch (status_request
                          "http://localhost:8000/api/transcription/status/t1"
                          local_config)]))).
Proof.
  refine (proj1 (workflow_runs_its_stages_in_order workflow_succeeds express_glyphs
                   sample_space_url "1ZkKzYLnWOLxv" available_reply download_started
                   (JStr "d1") completed_snapshot (JStr "spaces/1ZkKzYLnWOLxv.mp3")
                   (JStr "1ZkKzYLnWOLxv") transcription_started (JStr "t1")
                   (JObj [("status", JStr "completed")])
                   "d1" "spaces/1ZkKzYLnWOLxv.mp3" "t1" "1ZkKzYLnWOLxv"
                   local_config 2 1 fresh_world
                   eq_refl eq_refl _ eq_refl eq_refl eq_refl _ _ eq_refl _
                   eq_refl eq_refl eq_refl eq_refl eq_refl eq_refl eq_refl
                   _ _ eq_refl _)).
  - exists (JBool true). split; reflexivity.
  - lia.
  - intros i Hi. destruct i as [|i]; [|lia].
    exists processing_snapshot. split; [reflexivity | exact processing_in_progress].
  - exists (JStr "completed"). split; reflexivity.
  - lia.
  - intros i Hi. simpl in Hi. lia.
  - exists (JStr "completed"). split; reflexivity.
Defined.

Lemma workflow_gives_up_on_slow_download_witness :
  download_and_transcribe_space_body workflow_download_hangs express_glyphs
    (JStr sample_space_url) local_config fresh_world
  = (Throw (ErrorObj "Operation timed out after 60 attempts"),
     advance fresh_world 62
       ([EFetch (api_request "http://localhost:8000/api/check-space/1ZkKzYLnWOLxv"
                             local_config no_options);
         EFetch (api_request "http://localhost:8000/api/download" local_config
                   {| init_method := Some "POST";
                      init_body := Some (JObj [("space_url",
                                                JStr sample_space_url)]) |})]
        ++ waiting_ticks (status_request sample_status_url local_config) 5000 60)).
Proof.
  refine (proj1 (workflow_gives_up_on_slow_download workflow_download_hangs
                   express_glyphs sample_space_url "1ZkKzYLnWOLxv" available_reply
                   download_started (JStr "d1") "d1" local_config fresh_world
                   eq_refl eq_refl _ eq_refl eq_refl eq_refl _)).
  - exists (JBool true). split; reflexivity.
  - intros i _. exists processing_snapshot.
    split; [reflexivity | exact processing_in_progress].
Defined.

Lemma workflow_gives_up_on_slow_transcription_witness :
  download_and_transcribe_space_body workflow_transcription_hangs express_glyphs
    (JStr sample_space_url) local_config fresh_world
  = (Throw (ErrorObj "Operation timed out after 120 attempts"),
     advance fresh_world (2 + 2 + 1 + 120)
       ([EFetch (api_request "http://localhost:8000/api/check-space/1ZkKzYLnWOLxv"
                             local_config no_options);
         EFetch (api_request "http://localhost:8000/api/download" local_config
                   {| init_method := Some "POST";
                      init_body := Some (JObj [("space_url",
                                                JStr sample_space_url)]) |})]
        ++ (waiting_ticks (status_request sample_status_url local_config) 5000 1
            ++ [EFetch (status_request sample_status_url local_config)])
        ++ [EFetch (api_request "http://localhost:8000/api/transcribe" local_config
                      {| init_method := Some "POST";
                         init_body := Some (JObj [("space_id",
                                                   JStr "1ZkKzYLnWOLxv")]) |})]
        ++ waiting_ticks
             (status_request "http://localhost:8000/api/transcription/status/t1"
                             local_config) 10000 120)).
Proof.
  refine (proj1 (workflow_gives_up_on_slow_transcription
                   workflow_transcription_hangs express_glyphs
                   sample_space_url "1ZkKzYLnWOLxv" available_reply download_started
                   (JStr "d1") completed_snapshot (JStr "spaces/1ZkKzYLnWOLxv.mp3")
                   (JStr "1ZkKzYLnWOLxv") transcription_started (JStr "t1")
                   "d1" "spaces/1ZkKzYLnWOLxv.mp3" "t1"
                   local_config 2 fresh_world
                   eq_refl eq_refl _ eq_refl eq_refl eq_refl _ _ eq_refl _
                   eq_refl eq_refl eq_refl eq_refl eq_refl eq_refl _)).
  - exists (JBool true). split; reflexivity.
  - lia.
  - intros i Hi. destruct i as [|i]; [|lia].
    exists processing_snapshot. split; [reflexivity | exact processing_in_progress].
  - exists (JStr "completed"). split; reflexivity.
  - intros i _. exists processing_snapshot.
    split; [reflexivity | exact processing_in_progress].
Defined.

Lemma workflow_stops_at_failed_download_witness :
  download_and_transcribe_space_body workflow_download_fails express_glyphs
    (JStr sample_space_url) local_config fresh_world
  = (Throw (ErrorObj ("Operation failed: " ++ "Space audio is gone")),
     advance fresh_world 4
       ([EFetch (api_request "http://localhost:8000/api/check-space/1ZkKzYLnWOLxv"
                             local_config no_options);
         EFetch (api_request "http://localhost:8000/api/download" local_config
                   {| init_method := Some "POST";
                      init_body := Some (JObj [("space_url",
                                                JStr sample_space_url)]) |})]
        ++ (waiting_ticks (status_request sample_status_url local_config) 5000 1
            ++ [EFetch (status_request sample_status_url local_config)]))).
Proof.
  refine (proj1 (workflow_stops_at_failed_download workflow_download_fails
                   express_glyphs sample_space_url "1ZkKzYLnWOLxv" available_reply
                   download_started (JStr "d1") failed_snapshot (JStr "failed")
                   (JStr "Space audio is gone") (JStr "Download failed")
                   "d1" "Space audio is gone" local_config 2 fresh_world
                   eq_refl eq_refl _ eq_refl eq_refl eq_refl _ _ eq_refl
                   eq_refl eq_refl eq_refl eq_refl eq_refl eq_refl)).
  - exists (JBool true). split; reflexivity.
  - lia.
  - intros i Hi. destruct i as [|i]; [|lia].
    exists processing_snapshot. split; [reflexivity | exact processing_in_progress].
Defined.

Lemma get_transcript_is_one_plain_get_witness :
  tool_body transcript_ready no_size express_glyphs GetTranscript
    (JObj [("space_id", JStr "1ZkKzYLnWOLxv")]) "args" local_config fresh_world
  = (Return (text_result
               ("Transcript for space 1ZkKzYLnWOLxv (paragraphs format):"
                ++ nl ++ nl ++ "Hello everyone.")),
     advance fresh_world 1
       [EFetch {| req_url := "http://localhost:8000/api/transcript/1ZkKzYLnWOLxv/download/paragraphs";
                  req_method := None;
                  req_headers := [];
                  req_body := None;
                  req_abort_ms := 30000 |}]).
Proof.
  exact (proj1 (proj2 (proj2 (proj2 (get_transcript_is_one_plain_get
                                       transcript_ready no_size express_glyphs
                                       (JObj [("space_id", JStr "1ZkKzYLnWOLxv")])
                                       (JStr "1ZkKzYLnWOLxv") JUndefined
                                       local_config fresh_world eq_refl eq_refl))
                             "1ZkKzYLnWOLxv" "paragraphs" eq_refl eq_refl))
               _ "Hello everyone." eq_refl eq_refl).
Defined.

Lemma list_spaces_with_nothing_stored_witness :
  list_spaces_body nothing_stored no_size express_glyphs local_config fresh_world
  = (Return (text_result
               "No spaces found. Download some Twitter Spaces to get started!"),
     advance fresh_world 1
       [EFetch (api_request "http://localhost:8000/api/spaces" local_config
                            no_options)]).
Proof.
  apply (list_spaces_with_nothing_stored nothing_stored no_size express_glyphs
           (JObj [("r2_configured", JBool true)]) (JBool true) JUndefined
           local_config fresh_world); try reflexivity.
  left. reflexivity.
Defined.

Lemma list_spaces_counts_the_entries_witness :
  list_spaces_body one_space_stored no_size express_glyphs local_config fresh_world
  = (Return (text_result
               (("Found 1 spaces:" ++ nl ++ nl)
                ++ "1. Launch" ++ nl
                ++ "   ID: 1ZkKzYLnWOLxv" ++ nl
                ++ "   Creator: Unknown (@unknown)" ++ nl
                ++ "   Date: Unknown" ++ nl
                ++ "   Audio: " ++ cross_mark express_glyphs ++ " Missing" ++ nl
                ++ "   Transcript: " ++ cross_mark express_glyphs
                ++ " Not transcribed" ++ nl
                ++ "   State: Unknown" ++ nl ++ nl)),
     advance fresh_world 1
       [EFetch (api_request "http://localhost:8000/api/spaces" local_config
                            no_options)]).
Proof.
  refine (eq_trans
            (proj1 (list_spaces_counts_the_entries one_space_stored no_size
                      express_glyphs
                      (JObj [("r2_configured", JBool true);
                             ("spaces", JArr [launch_space])])
                      (JBool true) [launch_space]
                      [match fst (space_entry no_size express_glyphs 0 launch_space
                                              fresh_world) with
                       | Return entry => entry
                       | Throw _ => ""
                       end]
                      local_config fresh_world
                      eq_refl eq_refl eq_refl eq_refl _ eq_refl _))
            _).
  - discriminate.
  - intros i space entry Hs He.
    destruct i as [|[|i]]; try discriminate Hs.
    injection Hs as <-. injection He as <-. reflexivity.
  - vm_compute. reflexivity.
Defined.

Lemma list_spaces_fails_on_bad_entry_witness :
  exists e,
    Js.get JNull "title" = Throw e
    /\ list_spaces_body null_entry_stored no_size express_glyphs local_config
                        fresh_world
       = (Throw e,
          advance fresh_world 1
            [EFetch (api_request "http://localhost:8000/api/spaces" local_config
                                 no_options)]).
Proof.
  refine (proj2 (list_spaces_fails_on_bad_entry null_entry_stored no_size
                   express_glyphs
                   (JObj [("r2_configured", JBool true);
                          ("spaces", JArr [launch_space; JNull])])
                   (JBool true) JNull [launch_space] [] local_config fresh_world
                   eq_refl eq_refl eq_refl eq_refl _)
                eq_refl).
  intros i space Hs. destruct i as [|[|i]]; try discriminate Hs.
  injection Hs as <-. eexists. reflexivity.
Defined.

Lemma space_entry_falls_back_on_defaults_witness :
  space_entry no_size express_glyphs 0 (JObj [("id", JStr "1ZkKzYLnWOLxv")])
              fresh_world
  = (Return ("1. Untitled Space" ++ nl
             ++ "   ID: 1ZkKzYLnWOLxv" ++ nl
             ++ "   Creator: Unknown (@unknown)" ++ nl
             ++ "   Date: Unknown" ++ nl
             ++ "   Audio: " ++ cross_mark express_glyphs ++ " Missing" ++ nl
             ++ "   Transcript: " ++ cross_mark express_glyphs ++ " Not transcribed"
             ++ nl
             ++ "   State: Unknown" ++ nl ++ nl),
     fresh_world).
Proof.
  refine (space_entry_falls_back_on_defaults no_size express_glyphs 0
            (JObj [("id", JStr "1ZkKzYLnWOLxv")]) (JStr "1ZkKzYLnWOLxv")
            "1ZkKzYLnWOLxv" fresh_world _ eq_refl eq_refl).
  intros k Hk. simpl in Hk.
  repeat (destruct Hk as [<-|Hk]; [exists JUndefined; split; reflexivity|]).
  contradiction.
Defined.
